(** * Calendar, avatar, voice-assistant and ticket pages: a shallow embedding

    The TypeScript sources embedded here are
    - the calendar page (ticket-to-event projection, event colors, month grid),
    - [frontend/components/ui/user-avatar.tsx] (user colors),
    - [frontend/app/voice-assistant/page.tsx] (transcribe and analyze),
    - [frontend/app/tickets/page.tsx] (create and update payloads),
    - the label picker [MultiSelectLabels] and the [Dropdown] it uses.

    JavaScript strings are sequences of UTF-16 code units, numbers that the
    code uses as integers are in [Z], a value that may be [null] or
    [undefined] is an [option], and an array read that can miss returns an
    [option] as well. *)

From Stdlib Require Import ZArith List String Ascii Bool Lia QArith Permutation
  DecimalString DecimalPos DecimalZ.
Import ListNotations.
Local Open Scope Z_scope.

(** ** JavaScript strings *)

Module Js.

(** A string value: its code units, each one what [charCodeAt] returns. *)
Definition jsstring : Type := list Z.

Definition charCode (a : ascii) : Z := Z.of_N (N_of_ascii a).

(** The code units of an ASCII literal of the source text. *)
Fixpoint lit (s : string) : jsstring :=
  match s with
  | EmptyString => []
  | String a rest => charCode a :: lit rest
  end.

Fixpoint eqb (a b : jsstring) : bool :=
  match a, b with
  | [], [] => true
  | x :: a', y :: b' => (x =? y) && eqb a' b'
  | _, _ => false
  end.

(** [s] used as a condition: the empty string is falsy. *)
Definition nonEmpty (s : jsstring) : bool :=
  match s with [] => false | _ :: _ => true end.

(** A nullable string used as a condition: [null], [undefined] and the empty
    string are falsy. *)
Definition truthy (v : option jsstring) : bool :=
  match v with Some s => nonEmpty s | None => false end.

(** [s.startsWith(p)] *)
Fixpoint startsWith (s p : jsstring) : bool :=
  match p, s with
  | [], _ => true
  | c :: p', d :: s' => (c =? d) && startsWith s' p'
  | _ :: _, [] => false
  end.

(** [s.split(sep)[0]] for a separator of one code unit: the part before its
    first occurrence, the whole string when it does not occur. *)
Fixpoint beforeFirst (sep : Z) (s : jsstring) : jsstring :=
  match s with
  | [] => []
  | c :: rest => if c =? sep then [] else c :: beforeFirst sep rest
  end.

(** [s.substring(0, n)] for [0 <= n]. *)
Definition substring0 (n : nat) (s : jsstring) : jsstring := firstn n s.

(** ToInt32: the value every bitwise operator first brings its operands to. *)
Definition toInt32 (z : Z) : Z := (z + 2 ^ 31) mod 2 ^ 32 - 2 ^ 31.

(** [a[i]]: [undefined] outside of the array, also for a negative index. *)
Definition index {A : Type} (a : list A) (i : Z) : option A :=
  if i <? 0 then None else nth_error a (Z.to_nat i).

(** [x % y], the remainder that takes the sign of [x]. *)
Definition remainder (x y : Z) : Z := Z.rem x y.

(** White space and line terminators, the code units [trim] removes. *)
Definition isWhiteSpace (c : Z) : bool :=
  ((9 <=? c) && (c <=? 13)) || (c =? 32) || (c =? 160) || (c =? 5760)
  || ((8192 <=? c) && (c <=? 8202)) || (c =? 8232) || (c =? 8233)
  || (c =? 8239) || (c =? 8287) || (c =? 12288) || (c =? 65279).

Fixpoint trimStart (s : jsstring) : jsstring :=
  match s with
  | [] => []
  | c :: rest => if isWhiteSpace c then trimStart rest else s
  end.

(** [s.trim()] *)
Definition trim (s : jsstring) : jsstring :=
  rev (trimStart (rev (trimStart s))).

(** [s.includes(q)]: [q] occurs in [s], the empty string in every
    string. *)
Fixpoint includes (s q : jsstring) : bool :=
  startsWith s q
  || match s with
     | [] => false
     | _ :: rest => includes rest q
     end.

(** [s.split(/\s+/)]: the parts of [s] between runs of white space. [cur]
    is the part being read, [inGap] tells that the code unit before was
    white space. A string that starts or ends with white space has an empty
    first or last part, and the empty string has one empty part. *)
Fixpoint splitOn (inGap : bool) (cur s : jsstring) : list jsstring :=
  match s with
  | [] => [cur]
  | c :: rest =>
      if isWhiteSpace c
      then if inGap then splitOn true cur rest
           else cur :: splitOn true [] rest
      else splitOn false (cur ++ [c]) rest
  end.

Definition splitWhiteSpace (s : jsstring) : list jsstring :=
  splitOn false [] s.

(** [String(n)] for an integer. *)
Definition toString (n : Z) : jsstring :=
  lit (DecimalString.NilZero.string_of_int (Z.to_int n)).

(** [s.padStart(2, "0")] *)
Definition padStart2 (s : jsstring) : jsstring :=
  match s with
  | [] => [48; 48]
  | [c] => [48; c]
  | _ => s
  end.

(** The value of a digit of [parseInt] in a radix, [None] for a code unit
    that is no digit of that radix. *)
Definition digitValue (radix c : Z) : option Z :=
  let v :=
    if (48 <=? c) && (c <=? 57) then Some (c - 48)
    else if (97 <=? c) && (c <=? 122) then Some (c - 87)
    else if (65 <=? c) && (c <=? 90) then Some (c - 55)
    else None in
  match v with
  | Some d => if d <? radix then Some d else None
  | None => None
  end.

(** The number that the longest run of digits at the start of [s] writes,
    [acc] for the digits read so far; [None] without a digit. *)
Fixpoint parseDigits (radix : Z) (acc : option Z) (s : jsstring)
  : option Z :=
  match s with
  | [] => acc
  | c :: rest =>
      match digitValue radix c with
      | Some d =>
          parseDigits radix
            (Some (radix * match acc with Some a => a | None => 0 end + d))
            rest
      | None => acc
      end
  end.

(** [parseInt(s)] without a radix, [None] for [NaN]: white space is
    skipped, then a sign is read, then [0x] or [0X] for radix 16, then the
    digits. A result beyond 2^53 is rounded by JavaScript, not here. *)
Definition parseInt (s : jsstring) : option Z :=
  let s := trimStart s in
  let sign := if startsWith s (lit "-") then -1 else 1 in
  let s :=
    if startsWith s (lit "+") || startsWith s (lit "-") then skipn 1 s
    else s in
  let hex := startsWith s (lit "0x") || startsWith s (lit "0X") in
  let radix := if hex then 16 else 10 in
  let s := if hex then skipn 2 s else s in
  option_map (Z.mul sign) (parseDigits radix None s).

End Js.

Import Js.

(** ** user-avatar.tsx *)

Module Avatar.

(** The table local to [getUserColor]. *)
Definition colors : list jsstring :=
  Eval vm_compute in
  map lit ["#3b82f6"; "#22c55e"; "#a855f7"; "#f97316"; "#ec4899"; "#06b6d4";
           "#eab308"; "#6366f1"; "#14b8a6"; "#f43f5e"; "#f59e0b"; "#10b981";
           "#8b5cf6"; "#d946ef"; "#0ea5e9"; "#84cc16"]%string.

(** [colors[userId % colors.length]], [None] for [undefined]. *)
Definition getUserColor (userId : Z) : option jsstring :=
  index colors (remainder userId (Z.of_nat (List.length colors))).

Module User.
Record t := mk {
  id : Z; name : jsstring; email : option jsstring;
  avatar_url : option jsstring; initials : option jsstring;
  color : option jsstring }.
End User.

(** What [UserAvatar] renders: the "?" of no user, the image of the user,
    or the initials on a background color ([None] for [undefined]). *)
Inductive View :=
| Unknown
| Image (src alt : jsstring)
| Badge (backgroundColor : option jsstring) (initials : jsstring).

Section WithUpperCase.

(** [String.prototype.toUpperCase] *)
Variable toUpperCase : jsstring -> jsstring.

(** [getInitials]; [None] when a part has no first character to read, where
    the source adds [undefined]. *)
Definition getInitials (name : jsstring) : option jsstring :=
  let parts := splitWhiteSpace (trim name) in
  if 2 <=? Z.of_nat (List.length parts) then
    match index parts 0,
          index parts (Z.of_nat (List.length parts) - 1) with
    | Some first, Some last =>
        match index first 0, index last 0 with
        | Some a, Some b => Some (toUpperCase [a; b])
        | _, _ => None
        end
    | _, _ => None
    end
  else Some (toUpperCase (substring0 2 name)).

(** [UserAvatar], as far as the user decides it. *)
Definition UserAvatar (user : option User.t) : option View :=
  match user with
  | None => Some Unknown
  | Some user =>
      let initials :=
        if truthy (User.initials user) then User.initials user
        else getInitials (User.name user) in
      let color :=
        if truthy (User.color user) then User.color user
        else getUserColor (User.id user) in
      match initials with
      | Some initials =>
          match User.avatar_url user with
          | Some url =>
              if nonEmpty url then Some (Image url (User.name user))
              else Some (Badge color initials)
          | None => Some (Badge color initials)
          end
      | None => None
      end
  end.

End WithUpperCase.

End Avatar.

(** ** The dropdown

    [Dropdown], the component that [MultiSelectLabels] imports from
    [./dropdown]. *)

Module Dropdown.

Module Option.
Record t := mk {
  value : jsstring; label : jsstring; description : option jsstring }.
End Option.

Module State.
Record t := mk { isOpen : bool; searchQuery : jsstring }.
End State.

Section WithLowerCase.

Variable toLowerCase : jsstring -> jsstring.

Definition filteredOptions (searchable : bool) (options : list Option.t)
  (searchQuery : jsstring) : list Option.t :=
  if searchable
  then filter (fun opt => includes (toLowerCase (Option.label opt))
                                   (toLowerCase searchQuery)) options
  else options.

End WithLowerCase.

(** [handleSelect]: what [onSelect] does with the value, and the state
    after it. *)
Definition handleSelect {R : Type} (onSelect : jsstring -> R)
  (optionValue : jsstring) : R * State.t :=
  (onSelect optionValue, State.mk false []).

End Dropdown.

(** ** The label picker

    [MultiSelectLabels]; the ids of labels are integers. *)

Module Labels.

Module Label.
Record t := mk { id : Z; name : jsstring; color : option jsstring }.
End Label.

(** [selectedLabelIds.includes(id)] *)
Definition includesId (selectedLabelIds : list Z) (id : Z) : bool :=
  existsb (Z.eqb id) selectedLabelIds.

Definition selectedLabels (selectedLabelIds : list Z)
  (availableLabels : list Label.t) : list Label.t :=
  filter (fun label => includesId selectedLabelIds (Label.id label))
         availableLabels.

Definition availableOptions (selectedLabelIds : list Z)
  (availableLabels : list Label.t) : list Dropdown.Option.t :=
  map (fun label =>
         Dropdown.Option.mk (toString (Label.id label)) (Label.name label)
                            (Some (Label.name label)))
      (filter (fun label =>
                 negb (includesId selectedLabelIds (Label.id label)))
              availableLabels).

(** [handleSelect]: the ids that [onSelect] is called with, and
    [isOpen] after it. *)
Definition handleSelect (selectedLabelIds : list Z) (value : jsstring)
  : list Z * bool :=
  let labelId := parseInt value in
  let calls :=
    match labelId with
    | Some labelId =>
        if negb (labelId =? 0) && negb (includesId selectedLabelIds labelId)
        then [labelId] else []
    | None => []
    end in
  (calls, false).

End Labels.

(** ** The calendar page *)

Module Calendar.

Inductive TicketStatus := open | in_progress | resolved | closed.
Inductive Priority := urgent | high | medium | low | none.

Module Label.
Record t := mk { id : jsstring; name : jsstring; color : option jsstring }.
End Label.

Module User.
Record t := mk {
  id : Z; name : jsstring; email : option jsstring;
  avatar_url : option jsstring; initials : option jsstring;
  color : option jsstring }.
End User.

Module Project.
Record t := mk { id : jsstring; name : jsstring; identifier : jsstring }.
End Project.

(** The fields of a ticket that the projection and the color function read. *)
Module Ticket.
Record t := mk {
  id : jsstring;
  title : jsstring;
  start_date : option jsstring;
  end_date : option jsstring;
  assignee : option jsstring;
  status : TicketStatus;
  priority : Priority;
  estimated_hours : option Q;
  project : option Project.t;
  labels : option (list Label.t);
  assignee_user : option User.t }.
End Ticket.

Module PaletteEntry.
Record t := mk { className : jsstring; hex : jsstring }.
End PaletteEntry.

Definition COLOR_PALETTE : list PaletteEntry.t :=
  Eval vm_compute in
  map (fun p => PaletteEntry.mk (lit (fst p)) (lit (snd p)))
    [("bg-blue-500", "#3b82f6"); ("bg-green-500", "#22c55e");
     ("bg-purple-500", "#a855f7"); ("bg-orange-500", "#f97316");
     ("bg-pink-500", "#ec4899"); ("bg-cyan-500", "#06b6d4");
     ("bg-yellow-500", "#eab308"); ("bg-indigo-500", "#6366f1");
     ("bg-teal-500", "#14b8a6"); ("bg-rose-500", "#f43f5e");
     ("bg-amber-500", "#f59e0b"); ("bg-emerald-500", "#10b981");
     ("bg-violet-500", "#8b5cf6"); ("bg-fuchsia-500", "#d946ef");
     ("bg-sky-500", "#0ea5e9"); ("bg-lime-500", "#84cc16");
     ("bg-red-500", "#ef4444"); ("bg-blue-600", "#2563eb");
     ("bg-green-600", "#16a34a"); ("bg-purple-600", "#9333ea")]%string.

(** What a property read on an object literal can give: nothing, one of the
    literal's strings, or a member inherited from [Object.prototype]. *)
Inductive PropertyValue :=
| Undefined
| Str (s : jsstring)
| Inherited (key : jsstring).

Definition colorMap : list (jsstring * jsstring) :=
  Eval vm_compute in
  map (fun p => (lit (fst p), lit (snd p)))
    [("cyan", "bg-cyan-500"); ("purple", "bg-purple-500");
     ("yellow", "bg-yellow-500"); ("green", "bg-green-500");
     ("red", "bg-red-500"); ("blue", "bg-blue-500");
     ("orange", "bg-orange-500"); ("pink", "bg-pink-500");
     ("indigo", "bg-indigo-500"); ("teal", "bg-teal-500");
     ("lime", "bg-lime-500"); ("amber", "bg-amber-500");
     ("emerald", "bg-emerald-500"); ("sky", "bg-sky-500");
     ("violet", "bg-violet-500"); ("fuchsia", "bg-fuchsia-500");
     ("rose", "bg-rose-500")]%string.

(** The property names every object literal inherits. *)
Definition objectPrototypeKeys : list jsstring :=
  Eval vm_compute in
  map lit ["constructor"; "__defineGetter__"; "__defineSetter__";
           "hasOwnProperty"; "__lookupGetter__"; "__lookupSetter__";
           "isPrototypeOf"; "propertyIsEnumerable"; "toString"; "valueOf";
           "__proto__"; "toLocaleString"]%string.

Fixpoint ownProperty (o : list (jsstring * jsstring)) (key : jsstring)
  : option jsstring :=
  match o with
  | [] => None
  | (k, v) :: rest => if Js.eqb k key then Some v else ownProperty rest key
  end.

(** [o[key]] on an object literal with own properties [o]. *)
Definition getProperty (o : list (jsstring * jsstring)) (key : jsstring)
  : PropertyValue :=
  match ownProperty o key with
  | Some v => Str v
  | None => if existsb (Js.eqb key) objectPrototypeKeys
            then Inherited key else Undefined
  end.

(** [v || d] *)
Definition orDefault (v : PropertyValue) (d : jsstring) : PropertyValue :=
  match v with
  | Undefined => Str d
  | Str s => if nonEmpty s then Str s else Str d
  | Inherited k => Inherited k
  end.

Module EventColor.
(** [style], when present, is [{ backgroundColor: ... }]. *)
Record t := mk { className : PropertyValue; style : option jsstring }.
End EventColor.

Definition classOnly (c : jsstring) : EventColor.t :=
  EventColor.mk (Str c) None.

(** The local function [hashString] of [getEventColor]. *)
Definition hashStep (hash c : Z) : Z :=
  let hash := (toInt32 (Z.shiftl (toInt32 hash) 5) - hash) + c in
  Z.land (toInt32 hash) (toInt32 hash).

Definition hashString (str : jsstring) : Z :=
  Z.abs (fold_left hashStep str 0).

(** [ticket.labels && ticket.labels.length > 0 && ticket.labels[0].color] *)
Definition firstLabelColor (ticket : Ticket.t) : option jsstring :=
  match Ticket.labels ticket with
  | Some (l :: _) =>
      match Label.color l with
      | Some c => if nonEmpty c then Some c else None
      | None => None
      end
  | _ => None
  end.

Definition paletteLength : Z := Z.of_nat (List.length COLOR_PALETTE).

Module CalendarEvent.
Record t := mk {
  id : jsstring;
  title : jsstring;
  date : jsstring;
  hours : Q;
  color : EventColor.t;
  assignee : option jsstring;
  assignee_user : option User.t;
  status : TicketStatus;
  ticketId : jsstring;
  project : option Project.t }.
End CalendarEvent.

(** [new Map<string, CalendarEvent[]>()]: the keys in insertion order, each
    with the array stored under it. *)
Definition EventMap : Type := list (jsstring * list CalendarEvent.t).

Fixpoint has (m : EventMap) (key : jsstring) : bool :=
  match m with
  | [] => false
  | (k, _) :: rest => Js.eqb k key || has rest key
  end.

Fixpoint get (m : EventMap) (key : jsstring) : option (list CalendarEvent.t) :=
  match m with
  | [] => None
  | (k, v) :: rest => if Js.eqb k key then Some v else get rest key
  end.

(** [m.set(key, v)]: a new key goes last, a known key keeps its place. *)
Fixpoint set (m : EventMap) (key : jsstring) (v : list CalendarEvent.t)
  : EventMap :=
  match m with
  | [] => [(key, v)]
  | (k, old) :: rest =>
      if Js.eqb k key then (k, v) :: rest else (k, old) :: set rest key v
  end.

(** [m.get(key)!.push(e)]: the array stored under [key] grows in place;
    [None] is the TypeError of calling [push] on [undefined]. *)
Definition pushAt (m : EventMap) (key : jsstring) (e : CalendarEvent.t)
  : option EventMap :=
  match get m key with
  | Some bucket => Some (set m key (bucket ++ [e]))
  | None => None
  end.

(** [if (!m.has(key)) m.set(key, [])] *)
Definition ensure (m : EventMap) (key : jsstring) : EventMap :=
  if has m key then m else set m key [].

(** [a !== b] on [string | null]. *)
Definition strictNotEqual (a b : option jsstring) : bool :=
  match a, b with
  | Some x, Some y => negb (Js.eqb x y)
  | None, None => false
  | _, _ => true
  end.

(** [s.split("T")[0]] *)
Definition datePart (s : jsstring) : jsstring := beforeFirst 84 s.

Definition shortTitle (title : jsstring) : jsstring :=
  if (20 <? Z.of_nat (List.length title))
  then substring0 17 title ++ lit "..." else title.

(** [ticket.estimated_hours || 8] *)
Definition hoursOf (ticket : Ticket.t) : Q :=
  match Ticket.estimated_hours ticket with
  | Some h => if Qeq_bool h 0 then 8%Q else h
  | None => 8%Q
  end.

Definition mkEvent (prefix : string) (ticket : Ticket.t) (dateStr : jsstring)
  (hours : Q) (color : EventColor.t) : CalendarEvent.t :=
  {| CalendarEvent.id := lit prefix ++ Ticket.id ticket;
     CalendarEvent.title := shortTitle (Ticket.title ticket);
     CalendarEvent.date := dateStr;
     CalendarEvent.hours := hours;
     CalendarEvent.color := color;
     CalendarEvent.assignee := Ticket.assignee ticket;
     CalendarEvent.assignee_user := Ticket.assignee_user ticket;
     CalendarEvent.status := Ticket.status ticket;
     CalendarEvent.ticketId := Ticket.id ticket;
     CalendarEvent.project := Ticket.project ticket |}.

(** [bucket.find(e => e.ticketId === id)] used as a condition. *)
Definition findTicket (bucket : list CalendarEvent.t) (id : jsstring) : bool :=
  existsb (fun e => Js.eqb (CalendarEvent.ticketId e) id) bucket.

(** The first [if] of the callback: the event of the start date. *)
Definition addStart (ticket : Ticket.t) (hours : Q) (color : EventColor.t)
  (eventMap : EventMap) : option EventMap :=
  match Ticket.start_date ticket with
  | Some start =>
      if nonEmpty start then
        let dateStr := datePart start in
        pushAt (ensure eventMap dateStr) dateStr
               (mkEvent "start-" ticket dateStr hours color)
      else Some eventMap
  | None => Some eventMap
  end.

(** The second [if] of the callback: the event of the end date. *)
Definition addEnd (ticket : Ticket.t) (hours : Q) (color : EventColor.t)
  (eventMap : EventMap) : option EventMap :=
  match Ticket.end_date ticket with
  | Some end_ =>
      if nonEmpty end_
         && strictNotEqual (Ticket.end_date ticket) (Ticket.start_date ticket)
      then
        let dateStr := datePart end_ in
        let eventMap := ensure eventMap dateStr in
        match get eventMap dateStr with
        | Some bucket =>
            if findTicket bucket (Ticket.id ticket) then Some eventMap
            else pushAt eventMap dateStr
                        (mkEvent "end-" ticket dateStr hours color)
        | None => None
        end
      else Some eventMap
  | None => Some eventMap
  end.

Section WithLowerCase.

(** [String.prototype.toLowerCase], whose Unicode tables are not part of the
    repository. *)
Variable toLowerCase : jsstring -> jsstring.

(** [None] stands for the TypeError of reading [className] of [undefined]. *)
Definition getEventColor (ticket : Ticket.t) : option EventColor.t :=
  match firstLabelColor ticket with
  | Some labelColor =>
      if startsWith labelColor (lit "#") then
        Some (EventColor.mk (Str []) (Some labelColor))
      else
        Some (EventColor.mk
                (orDefault (getProperty colorMap (toLowerCase labelColor))
                           (lit "bg-slate-500"))
                None)
  | None =>
      match Ticket.priority ticket with
      | urgent => Some (classOnly (lit "bg-red-500"))
      | high => Some (classOnly (lit "bg-orange-500"))
      | medium => Some (classOnly (lit "bg-yellow-500"))
      | low => Some (classOnly (lit "bg-blue-300"))
      | none =>
          let hash := remainder (hashString (Ticket.id ticket)) paletteLength in
          let color := index COLOR_PALETTE hash in
          match Ticket.status ticket with
          | open =>
              option_map (fun c => classOnly (PaletteEntry.className c)) color
          | in_progress =>
              let inProgressIndex := remainder (hash + 1) paletteLength in
              option_map (fun c => classOnly (PaletteEntry.className c))
                         (index COLOR_PALETTE inProgressIndex)
          | resolved => Some (classOnly (lit "bg-green-500"))
          | closed => Some (classOnly (lit "bg-slate-600"))
          end
      end
  end.

(** The callback of [tickets.forEach]. *)
Definition processTicket (eventMap : EventMap) (ticket : Ticket.t)
  : option EventMap :=
  if negb (truthy (Ticket.start_date ticket))
     && negb (truthy (Ticket.end_date ticket))
  then Some eventMap
  else
    let hours := hoursOf ticket in
    match getEventColor ticket with
    | Some color =>
        match addStart ticket hours color eventMap with
        | Some eventMap => addEnd ticket hours color eventMap
        | None => None
        end
    | None => None
    end.

(** [tickets.forEach(callback)], stopping at the first exception. *)
Fixpoint forEach (tickets : list Ticket.t) (eventMap : EventMap)
  : option EventMap :=
  match tickets with
  | [] => Some eventMap
  | ticket :: rest =>
      match processTicket eventMap ticket with
      | Some eventMap => forEach rest eventMap
      | None => None
      end
  end.

(** The final loop: the buckets, in key order, appended to one array. *)
Definition flatten (m : EventMap) : list CalendarEvent.t :=
  List.concat (map snd m).

(** The memoised [events] of the page, as a function of [tickets]. *)
Definition events (tickets : list Ticket.t) : option (list CalendarEvent.t) :=
  option_map flatten (forEach tickets []).

End WithLowerCase.

(** [getEventsForDate], with the [events] it closes over as an argument. *)
Definition getEventsForDate (events : list CalendarEvent.t)
  (dateStr : jsstring) : list CalendarEvent.t :=
  filter (fun event => Js.eqb (CalendarEvent.date event) dateStr) events.

(** *** Dates

    A [Date] is modelled by its local day: the number of days from
    1970-01-01 in the proleptic Gregorian calendar. The time of day and the
    limit of the time value (about 10^8 days on both sides) are left out. *)
Module Date.

Definition t : Type := Z.

(** The day number of the civil date [y]-[m]-[d], months from 1. *)
Definition daysFromCivil (y m d : Z) : Z :=
  let y := if m <=? 2 then y - 1 else y in
  let era := y / 400 in
  let yoe := y - era * 400 in
  let doy := (153 * (if 2 <? m then m - 3 else m + 9) + 2) / 5 + d - 1 in
  let doe := yoe * 365 + yoe / 4 - yoe / 100 + doy in
  era * 146097 + doe - 719468.

(** Year, month (from 1) and day of the month of a day number. *)
Definition civilFromDays (z : Z) : Z * Z * Z :=
  let z := z + 719468 in
  let era := z / 146097 in
  let doe := z - era * 146097 in
  let yoe := (doe - doe / 1460 + doe / 36524 - doe / 146096) / 365 in
  let doy := doe - (365 * yoe + yoe / 4 - yoe / 100) in
  let mp := (5 * doy + 2) / 153 in
  let d := doy - (153 * mp + 2) / 5 + 1 in
  let m := if mp <? 10 then mp + 3 else mp - 9 in
  ((if m <=? 2 then yoe + era * 400 + 1 else yoe + era * 400), m, d).

(** [new Date(year, month, date)]: a year from 0 to 99 counts from 1900,
    months and days outside of their range carry over. *)
Definition make (year month date : Z) : t :=
  let year := if (0 <=? year) && (year <=? 99) then 1900 + year else year in
  let ym := year + month / 12 in
  let mn := month mod 12 in
  daysFromCivil ym (mn + 1) 1 + date - 1.

Definition getFullYear (d : t) : Z := fst (fst (civilFromDays d)).
Definition getMonth (d : t) : Z := snd (fst (civilFromDays d)) - 1.
Definition getDate (d : t) : Z := snd (civilFromDays d).
Definition getDay (d : t) : Z := (d + 4) mod 7.

End Date.

(** [Math.ceil(a / b)] for integers [a] and [0 < b]. *)
Definition ceilDiv (a b : Z) : Z := - ((- a) / b).

(** [n - 1], ..., [0]: the values of a counter that starts at [n - 1] and
    steps down while it is [>= 0]. *)
Fixpoint countDown (n : nat) : list Z :=
  match n with
  | O => []
  | S k => Z.of_nat k :: countDown k
  end.

(** [1], ..., [n]: the values of a counter that starts at [1] and steps up
    while it is [<= n]. *)
Definition countUp (n : Z) : list Z :=
  map Z.of_nat (seq 1 (Z.to_nat n)).

Module MonthDays.
Record t := mk {
  daysInMonth : Z;
  startingDayOfWeek : Z;
  prevMonthDays : list Z;
  nextMonthDays : list Z }.
End MonthDays.

Definition getDaysInMonth (date : Date.t) : MonthDays.t :=
  let year := Date.getFullYear date in
  let month := Date.getMonth date in
  let firstDay := Date.make year month 1 in
  let lastDay := Date.make year (month + 1) 0 in
  let daysInMonth := Date.getDate lastDay in
  let startingDayOfWeek := Date.getDay firstDay in
  let prevMonthLastDay := Date.getDate (Date.make year month 0) in
  let prevMonthDays :=
    map (fun i => prevMonthLastDay - i)
        (countDown (Z.to_nat startingDayOfWeek)) in
  let totalCells := ceilDiv (startingDayOfWeek + daysInMonth) 7 * 7 in
  let nextMonthDays := totalCells - (startingDayOfWeek + daysInMonth) in
  let nextMonthDaysArray := countUp nextMonthDays in
  {| MonthDays.daysInMonth := daysInMonth;
     MonthDays.startingDayOfWeek := startingDayOfWeek;
     MonthDays.prevMonthDays := prevMonthDays;
     MonthDays.nextMonthDays := nextMonthDaysArray |}.

(** *** The cells of the grid *)

(** [events.slice(0, MAX_VISIBLE_EVENTS)] with the count of "+n more",
    [None] when that line is not shown. *)
Definition MAX_VISIBLE_EVENTS : nat := 3.

Definition visibleEvents (events : list CalendarEvent.t)
  : list CalendarEvent.t :=
  firstn MAX_VISIBLE_EVENTS events.

Definition moreCount (events : list CalendarEvent.t) : option Z :=
  if (Z.of_nat MAX_VISIBLE_EVENTS <? Z.of_nat (List.length events))
  then Some (Z.of_nat (List.length events) - Z.of_nat MAX_VISIBLE_EVENTS)
  else None.



(** *** The issues of the sidebar *)

(** A ticket with the two further fields that the filter of the sidebar
    reads. *)
Module Issue.
Record t := mk {
  ticket : Ticket.t;
  project_id : option jsstring;
  assignee_id : option jsstring }.
End Issue.

(** The five inputs of the filter. *)
Module Filters.
Record t := mk {
  searchQuery : jsstring;
  selectedProject : jsstring;
  selectedAssignee : jsstring;
  selectedStatus : jsstring;
  selectedPlanned : jsstring }.
End Filters.

(** The string a status is. *)
Definition statusString (st : TicketStatus) : jsstring :=
  match st with
  | open => lit "open"
  | in_progress => lit "in_progress"
  | resolved => lit "resolved"
  | closed => lit "closed"
  end.

(** [v?.toString() === selected] for a string [v]. *)
Definition isSelected (v : option jsstring) (selected : jsstring) : bool :=
  match v with
  | Some x => Js.eqb x selected
  | None => false
  end.

Section Sidebar.

Variable toLowerCase : jsstring -> jsstring.

Definition matchesSearch (searchQuery : jsstring) (ticket : Ticket.t) : bool :=
  Js.eqb searchQuery []
  || includes (toLowerCase (Ticket.title ticket)) (toLowerCase searchQuery)
  || match Ticket.project ticket with
     | Some project =>
         includes (toLowerCase (Project.identifier project))
                  (toLowerCase searchQuery)
     | None => false
     end.

Definition matchesProject (selectedProject : jsstring) (issue : Issue.t)
  : bool :=
  Js.eqb selectedProject []
  || isSelected (Issue.project_id issue) selectedProject.

Definition matchesAssignee (selectedAssignee : jsstring) (issue : Issue.t)
  : bool :=
  Js.eqb selectedAssignee []
  || isSelected (Issue.assignee_id issue) selectedAssignee
  || isSelected
       (option_map (fun u => toString (User.id u))
                   (Ticket.assignee_user (Issue.ticket issue)))
       selectedAssignee.

Definition matchesStatus (selectedStatus : jsstring) (ticket : Ticket.t)
  : bool :=
  Js.eqb selectedStatus []
  || Js.eqb (statusString (Ticket.status ticket)) selectedStatus.

Definition matchesPlanned (selectedPlanned : jsstring) (ticket : Ticket.t)
  : bool :=
  Js.eqb selectedPlanned []
  || (Js.eqb selectedPlanned (lit "yes")
      && (truthy (Ticket.start_date ticket)
          || truthy (Ticket.end_date ticket)))
  || (Js.eqb selectedPlanned (lit "no")
      && negb (truthy (Ticket.start_date ticket))
      && negb (truthy (Ticket.end_date ticket))).

(** The memoised [filteredIssues], as a function of the tickets and of the
    filters. *)
Definition filteredIssues (tickets : list Issue.t) (f : Filters.t)
  : list Issue.t :=
  filter
    (fun issue =>
       let ticket := Issue.ticket issue in
       matchesSearch (Filters.searchQuery f) ticket
       && matchesProject (Filters.selectedProject f) issue
       && matchesAssignee (Filters.selectedAssignee f) issue
       && matchesStatus (Filters.selectedStatus f) ticket
       && matchesPlanned (Filters.selectedPlanned f) ticket)
    tickets.

End Sidebar.

(** *** Date strings, the months and the cells *)

(** [formatDateString]: [month] counts from 0. *)
Definition formatDateString (year month day : Z) : jsstring :=
  toString year ++ lit "-" ++ padStart2 (toString (month + 1))
  ++ lit "-" ++ padStart2 (toString day).

(** [d.setMonth(month)]: the year and the day of the month of [d] with the
    month given; a month outside of 0..11 and a day past the end of the
    month carry over. *)
Definition setMonth (d : Date.t) (month : Z) : Date.t :=
  Date.daysFromCivil (Date.getFullYear d + month / 12) (month mod 12 + 1) 1
  + Date.getDate d - 1.

Inductive Direction := prev | next.

(** The update that [navigateMonth] applies to [currentDate]. *)
Definition navigateMonth (direction : Direction) (current : Date.t)
  : Date.t :=
  match direction with
  | prev => setMonth current (Date.getMonth current - 1)
  | next => setMonth current (Date.getMonth current + 1)
  end.

Definition monthNames : list jsstring :=
  Eval vm_compute in
  map lit ["January"; "February"; "March"; "April"; "May"; "June";
           "July"; "August"; "September"; "October"; "November";
           "December"]%string.

(** [monthNames[currentDate.getMonth()]], the month in the heading of the
    grid. *)
Definition headingMonth (currentDate : Date.t) : option jsstring :=
  index monthNames (Date.getMonth currentDate).

(** [isToday], with the [new Date()] it reads as [today]. *)
Definition isToday (today : Date.t) (year month day : Z) : bool :=
  (Date.getFullYear today =? year)
  && (Date.getMonth today =? month)
  && (Date.getDate today =? day).

(** The properties that a [CalendarCell] is given by the grid, apart from
    [onClick], which does nothing, and [tickets], the same for every
    cell. *)
Module Cell.
Record t := mk {
  day : Z;
  dateStr : jsstring;
  events : list CalendarEvent.t;
  isCurrentMonth : bool;
  isToday : bool }.
End Cell.

(** The [CalendarCell] that the grid pushes for a day of a month. *)
Definition calendarCell (today : Date.t) (events : list CalendarEvent.t)
  (year month : Z) (isCurrentMonth : bool) (day : Z) : Cell.t :=
  let dateStr := formatDateString year month day in
  let dayEvents := getEventsForDate events dateStr in
  {| Cell.day := day;
     Cell.dateStr := dateStr;
     Cell.events := dayEvents;
     Cell.isCurrentMonth := isCurrentMonth;
     Cell.isToday := isToday today year month day |}.

(** The cells of the grid: the days before the month, the days of the
    month, the days after it. *)
Definition calendarCells (today currentDate : Date.t)
  (events : list CalendarEvent.t) : list Cell.t :=
  let r := getDaysInMonth currentDate in
  let year := Date.getFullYear currentDate in
  let month := Date.getMonth currentDate in
  let prevYear := if month =? 0 then year - 1 else year in
  let prevMonth := if month =? 0 then 11 else month - 1 in
  let nextYear := if month =? 11 then year + 1 else year in
  let nextMonth := if month =? 11 then 0 else month + 1 in
  map (calendarCell today events prevYear prevMonth false)
      (MonthDays.prevMonthDays r)
  ++ map (calendarCell today events year month true)
         (countUp (MonthDays.daysInMonth r))
  ++ map (calendarCell today events nextYear nextMonth false)
         (MonthDays.nextMonthDays r).

End Calendar.

(** ** Requests, responses and the effects of an event handler *)

Module Http.

(** A thrown value: an [Error] with its [name] and [message]. *)
Module Exn.
Record t := mk { name : jsstring; message : jsstring }.
End Exn.

(** [new Error(message)] *)
Definition newError (message : jsstring) : Exn.t :=
  Exn.mk (lit "Error") message.

(** [String(err)], that is [Error.prototype.toString]. *)
Definition errorToString (err : Exn.t) : jsstring :=
  if nonEmpty (Exn.name err) then
    if nonEmpty (Exn.message err)
    then Exn.name err ++ lit ": " ++ Exn.message err
    else Exn.name err
  else Exn.message err.

Module Blob.
Record t := mk { type : jsstring; bytes : list Z }.
End Blob.

(** A property value of the objects that are sent. *)
Inductive Value :=
| VUndefined
| VNull
| VString (s : jsstring).

(** An object literal: its own properties in creation order. *)
Definition Object : Type := list (jsstring * Value).

(** [o.key = v] *)
Fixpoint setProp (o : Object) (key : jsstring) (v : Value) : Object :=
  match o with
  | [] => [(key, v)]
  | (k, old) :: rest =>
      if Js.eqb k key then (k, v) :: rest else (k, old) :: setProp rest key v
  end.

Definition isUndefined (v : Value) : bool :=
  match v with VUndefined => true | _ => false end.

(** [JSON.stringify(o)], kept as the members of the text in their order: a
    property whose value is [undefined] is not written. *)
Definition stringify (o : Object) : list (jsstring * Value) :=
  filter (fun kv => negb (isUndefined (snd kv))) o.

Fixpoint member (members : list (jsstring * Value)) (key : jsstring)
  : option Value :=
  match members with
  | [] => None
  | (k, v) :: rest => if Js.eqb k key then Some v else member rest key
  end.

Module FormEntry.
Record t := mk { name : jsstring; value : Blob.t; filename : jsstring }.
End FormEntry.

Inductive Body :=
| NoBody
| FormData (entries : list FormEntry.t)
| JsonText (members : list (jsstring * Value)).

Module Request.
Record t := mk {
  url : jsstring;
  method : jsstring;
  headers : list (jsstring * jsstring);
  body : Body }.
End Request.

(** A response as the handlers read it: [json] is what [response.json()]
    settles to, an exception when the body is not JSON. *)
Module Response.
Record t (B : Type) := mk {
  ok : bool;
  status : Z;
  statusText : jsstring;
  json : Exn.t + B }.
Arguments mk {B}.
Arguments ok {B}.
Arguments status {B}.
Arguments statusText {B}.
Arguments json {B}.
End Response.

(** What [await fetch(...)] gives: a rejection or a response. *)
Inductive FetchOutcome (B : Type) :=
| Rejected (err : Exn.t)
| Resolved (response : Response.t B).
Arguments Rejected {B}.
Arguments Resolved {B}.

(** The network: the outcome of a request, given how many were sent before
    it. *)
Definition Network (B : Type) : Type := nat -> Request.t -> FetchOutcome B.

(** An event handler: it reads and writes the state [S] of the page, sends
    requests (kept in the order they were issued) and may throw. *)
Definition M (B S A : Type) : Type :=
  Network B -> S -> list Request.t -> (Exn.t + A) * S * list Request.t.

Section Effects.

Variables B S : Type.

Definition ret {A} (a : A) : M B S A :=
  fun _ s sent => (inr a, s, sent).

Definition bind {A C} (m : M B S A) (k : A -> M B S C) : M B S C :=
  fun net s sent =>
    match m net s sent with
    | (inr a, s', sent') => k a net s' sent'
    | (inl err, s', sent') => (inl err, s', sent')
    end.

Definition throw {A} (err : Exn.t) : M B S A :=
  fun _ s sent => (inl err, s, sent).

(** [try { body } catch (err) { handler }] *)
Definition tryCatch {A} (body : M B S A) (handler : Exn.t -> M B S A)
  : M B S A :=
  fun net s sent =>
    match body net s sent with
    | (inl err, s', sent') => handler err net s' sent'
    | done => done
    end.

(** [try { body } finally { last }] *)
Definition tryFinally {A} (body : M B S A) (last : M B S unit) : M B S A :=
  fun net s sent =>
    match body net s sent with
    | (r, s', sent') =>
        match last net s' sent' with
        | (inr _, s'', sent'') => (r, s'', sent'')
        | (inl err, s'', sent'') => (inl err, s'', sent'')
        end
    end.

Definition getState : M B S S :=
  fun _ s sent => (inr s, s, sent).

Definition modify (f : S -> S) : M B S unit :=
  fun _ s sent => (inr tt, f s, sent).

(** [await fetch(url, init)] *)
Definition fetch (request : Request.t) : M B S (Response.t B) :=
  fun net s sent =>
    match net (List.length sent) request with
    | Rejected err => (inl err, s, sent ++ [request])
    | Resolved response => (inr response, s, sent ++ [request])
    end.

(** [await response.json()] *)
Definition json (response : Response.t B) : M B S B :=
  match Response.json response with
  | inl err => throw err
  | inr data => ret data
  end.

Definition when (c : bool) (m : M B S unit) : M B S unit :=
  if c then m else ret tt.

(** Running a handler from a state, with nothing sent yet. *)
Definition run {A} (m : M B S A) (net : Network B) (s : S)
  : (Exn.t + A) * S * list Request.t :=
  m net s [].

End Effects.

Arguments ret {B S A}.
Arguments bind {B S A C}.
Arguments throw {B S A}.
Arguments tryCatch {B S A}.
Arguments tryFinally {B S A}.
Arguments getState {B S}.
Arguments modify {B S}.
Arguments fetch {B S}.
Arguments json {B S}.
Arguments when {B S}.
Arguments run {B S A}.

Declare Scope handler_scope.
Delimit Scope handler_scope with handler.
Notation "x <- c ;; k" := (bind c (fun x => k))
  (at level 61, c at next level, right associativity) : handler_scope.
Notation "c ;; k" := (bind c (fun _ => k))
  (at level 61, right associativity) : handler_scope.

(** [process.env.NEXT_PUBLIC_API_URL || "http://localhost:8000"] *)
Definition apiUrl (NEXT_PUBLIC_API_URL : option jsstring) : jsstring :=
  match NEXT_PUBLIC_API_URL with
  | Some u => if nonEmpty u then u else lit "http://localhost:8000"
  | None => lit "http://localhost:8000"
  end.

(** [String(n)] for an integer. *)
Definition decimal (n : Z) : jsstring :=
  lit (DecimalString.NilZero.string_of_int (Z.to_int n)).

End Http.

(** ** voice-assistant/page.tsx *)

Module Voice.

Import Http.
Local Open Scope handler_scope.

Inductive RecordingStatus := idle | recording | processing.
Inductive TranscriptionStep :=
  upload | transcribing | analyzing | planning | creating | complete.

Module File.
Record t := mk { name : jsstring; blob : Blob.t }.
End File.

(** A JSON body as the two handlers read it: the properties they look at
    ([None] when absent or [null]) and the text [JSON.stringify] gives for
    the whole value. *)
Module Json.
Record t := mk {
  detail : option jsstring;
  message : option jsstring;
  transcript : option jsstring;
  text : jsstring }.
End Json.

(** The state of the page that the two handlers read or write. *)
Module State.
Record t := mk {
  recordingStatus : RecordingStatus;
  audioBlob : option Blob.t;
  uploadedFile : option File.t;
  transcript : jsstring;
  currentStep : TranscriptionStep;
  error : jsstring;
  analysisResult : option Json.t;
  isAnalyzing : bool }.
End State.

Definition initialState : State.t :=
  State.mk idle None None [] upload [] None false.

Definition setRecordingStatus (v : RecordingStatus) : M Json.t State.t unit :=
  modify (fun s => State.mk v (State.audioBlob s) (State.uploadedFile s)
    (State.transcript s) (State.currentStep s) (State.error s)
    (State.analysisResult s) (State.isAnalyzing s)).

Definition setTranscript (v : jsstring) : M Json.t State.t unit :=
  modify (fun s => State.mk (State.recordingStatus s) (State.audioBlob s)
    (State.uploadedFile s) v (State.currentStep s) (State.error s)
    (State.analysisResult s) (State.isAnalyzing s)).

Definition setCurrentStep (v : TranscriptionStep) : M Json.t State.t unit :=
  modify (fun s => State.mk (State.recordingStatus s) (State.audioBlob s)
    (State.uploadedFile s) (State.transcript s) v (State.error s)
    (State.analysisResult s) (State.isAnalyzing s)).

Definition setError (v : jsstring) : M Json.t State.t unit :=
  modify (fun s => State.mk (State.recordingStatus s) (State.audioBlob s)
    (State.uploadedFile s) (State.transcript s) (State.currentStep s) v
    (State.analysisResult s) (State.isAnalyzing s)).

Definition setAnalysisResult (v : option Json.t) : M Json.t State.t unit :=
  modify (fun s => State.mk (State.recordingStatus s) (State.audioBlob s)
    (State.uploadedFile s) (State.transcript s) (State.currentStep s)
    (State.error s) v (State.isAnalyzing s)).

Definition setIsAnalyzing (v : bool) : M Json.t State.t unit :=
  modify (fun s => State.mk (State.recordingStatus s) (State.audioBlob s)
    (State.uploadedFile s) (State.transcript s) (State.currentStep s)
    (State.error s) (State.analysisResult s) v).

(** [a || b] on strings. *)
Definition orElse (a : option jsstring) (b : jsstring) : jsstring :=
  match a with
  | Some s => if nonEmpty s then s else b
  | None => b
  end.

(** [uploadedFile || audioBlob] *)
Definition fileToTranscribe (s : State.t) : option Blob.t :=
  match State.uploadedFile s with
  | Some f => Some (File.blob f)
  | None => State.audioBlob s
  end.

(** [uploadedFile?.name || "recording.webm"] *)
Definition fileName (s : State.t) : jsstring :=
  orElse (option_map File.name (State.uploadedFile s)) (lit "recording.webm").

Section WithEnv.

Variable NEXT_PUBLIC_API_URL : option jsstring.

Definition API_URL : jsstring := apiUrl NEXT_PUBLIC_API_URL.

Definition transcribeRequest (file : Blob.t) (filename : jsstring)
  : Request.t :=
  {| Request.url := API_URL ++ lit "/api/voice/transcribe-file";
     Request.method := lit "POST";
     Request.headers := [];
     Request.body := FormData [FormEntry.mk (lit "file") file filename] |}.

(** The handler reads the state once, when it is called; the [console]
    output is left out. *)
Definition transcribeAudio : M Json.t State.t unit :=
  s <- getState ;;
  match fileToTranscribe s with
  | None =>
      setError
        (lit "No audio to transcribe. Please record or upload an audio file.")
  | Some file =>
      tryCatch
        (setRecordingStatus processing ;;
         setCurrentStep transcribing ;;
         setError [] ;;
         response <- fetch (transcribeRequest file (fileName s)) ;;
         (if negb (Response.ok response) then
            errorData <- json response ;;
            throw (newError (orElse (Json.detail errorData)
                                    (lit "Transcription failed")))
          else ret tt) ;;
         data <- json response ;;
         setTranscript (orElse (Json.transcript data) []) ;;
         (if truthy (Json.transcript data) then setCurrentStep complete
          else setError
                 (lit "No speech detected in the audio. Please try again.")) ;;
         setRecordingStatus idle)
        (fun err =>
           setError (lit "Transcription failed: " ++ Exn.message err) ;;
           setRecordingStatus idle ;;
           setCurrentStep upload)
  end.

Definition analyzeRequest (transcript : jsstring) : Request.t :=
  {| Request.url := API_URL ++ lit "/api/voice/process-meeting";
     Request.method := lit "POST";
     Request.headers := [(lit "Content-Type", lit "application/json")];
     Request.body :=
       JsonText (stringify [(lit "transcript", VString transcript);
                            (lit "project_name", VNull)]) |}.

(** The half second the handler waits before it stores the result changes
    neither the state nor what is sent. *)
Definition analyzeWithAI : M Json.t State.t unit :=
  s <- getState ;;
  let transcript := State.transcript s in
  if negb (nonEmpty transcript) then
    setError (lit "No transcript to analyze")
  else
    tryCatch
      (setIsAnalyzing true ;;
       setCurrentStep analyzing ;;
       setError [] ;;
       response <- fetch (analyzeRequest transcript) ;;
       responseData <- json response ;;
       (if negb (Response.ok response) then
          let errorMessage :=
            orElse (Json.detail responseData)
              (orElse (Json.message responseData)
                 (orElse (Some (Json.text responseData))
                    (lit "Server error: "
                       ++ decimal (Response.status response)
                       ++ lit " " ++ Response.statusText response))) in
          throw (newError errorMessage)
        else ret tt) ;;
       setCurrentStep planning ;;
       let data := responseData in
       setCurrentStep creating ;;
       setAnalysisResult (Some data) ;;
       setCurrentStep complete ;;
       setIsAnalyzing false)
      (fun err =>
         let errorMessage :=
           orElse (Some (Exn.message err)) (errorToString err) in
         setError (lit "AI analysis failed: " ++ errorMessage) ;;
         setIsAnalyzing false ;;
         setCurrentStep upload).

End WithEnv.

Definition setAudioBlob (v : option Blob.t) : M Json.t State.t unit :=
  modify (fun s => State.mk (State.recordingStatus s) v (State.uploadedFile s)
    (State.transcript s) (State.currentStep s) (State.error s)
    (State.analysisResult s) (State.isAnalyzing s)).

Definition setUploadedFile (v : option File.t) : M Json.t State.t unit :=
  modify (fun s => State.mk (State.recordingStatus s) (State.audioBlob s) v
    (State.transcript s) (State.currentStep s) (State.error s)
    (State.analysisResult s) (State.isAnalyzing s)).

(** [handleFileUpload], with [event.target.files?.[0]] as its argument. *)
Definition handleFileUpload (file : option File.t) : M Json.t State.t unit :=
  match file with
  | Some file =>
      if negb (startsWith (Blob.type (File.blob file)) (lit "audio/")) then
        setError (lit "Please upload an audio file (MP3, WAV, M4A, etc.)")
      else
        setUploadedFile (Some file) ;;
        setError [] ;;
        setTranscript []
  | None => ret tt
  end.

(** [reset]. The recording time and the file input element, which none of
    the handlers above reads, are not part of the state here. *)
Definition reset : M Json.t State.t unit :=
  setAudioBlob None ;;
  setUploadedFile None ;;
  setTranscript [] ;;
  setCurrentStep upload ;;
  setError [] ;;
  setAnalysisResult None ;;
  setIsAnalyzing false.

(** [formatTime]: [Math.floor(seconds / 60)], a colon and [seconds % 60]
    on two digits. *)
Definition formatTime (seconds : Z) : jsstring :=
  let mins := seconds / 60 in
  let secs := remainder seconds 60 in
  toString mins ++ lit ":" ++ padStart2 (toString secs).

(** The condition under which the page shows the panel of the processing
    steps. *)
Definition showsProgress (s : State.t) : bool :=
  (match State.recordingStatus s with processing => true | _ => false end
   || State.isAnalyzing s
   || match State.currentStep s with upload => false | _ => true end)
  && match State.currentStep s with complete => false | _ => true end.

End Voice.

(** ** tickets/page.tsx *)

Module Tickets.

Import Http.
Local Open Scope handler_scope.

Inductive TicketStatus := open | in_progress | resolved | closed.

(** The string a status is, in a payload. *)
Definition statusString (st : TicketStatus) : jsstring :=
  match st with
  | open => lit "open"
  | in_progress => lit "in_progress"
  | resolved => lit "resolved"
  | closed => lit "closed"
  end.

Module Ticket.
Record t := mk {
  id : Z;
  title : jsstring;
  summary : option jsstring;
  start_date : option jsstring;
  end_date : option jsstring;
  assignee : option jsstring;
  status : TicketStatus;
  created_at : jsstring;
  updated_at : jsstring }.
End Ticket.

(** [TicketCreate], the type of the form state. *)
Module TicketCreate.
Record t := mk {
  title : jsstring;
  summary : option jsstring;
  start_date : option jsstring;
  end_date : option jsstring;
  assignee : option jsstring;
  status : option TicketStatus }.
End TicketCreate.

(** A JSON body as the handlers read it: [data.tickets] of the list
    response ([None] when the property is absent) and the text that
    [JSON.stringify(errorData.detail)] gives in a template. *)
Module Json.
Record t := mk { tickets : option (list Ticket.t); detailText : jsstring }.
End Json.

Definition emptyForm : TicketCreate.t :=
  TicketCreate.mk [] (Some []) None None (Some []) (Some open).

(** The state of the page that the handlers read or write, with the
    messages shown by [alert], oldest first. *)
Module State.
Record t := mk {
  tickets : option (list Ticket.t);
  loading : bool;
  showCreateModal : bool;
  showEditModal : bool;
  editingTicket : option Ticket.t;
  formData : TicketCreate.t;
  alerts : list jsstring }.
End State.

Definition setTickets (v : option (list Ticket.t)) : M Json.t State.t unit :=
  modify (fun s => State.mk v (State.loading s) (State.showCreateModal s)
    (State.showEditModal s) (State.editingTicket s) (State.formData s)
    (State.alerts s)).

Definition setLoading (v : bool) : M Json.t State.t unit :=
  modify (fun s => State.mk (State.tickets s) v (State.showCreateModal s)
    (State.showEditModal s) (State.editingTicket s) (State.formData s)
    (State.alerts s)).

Definition setShowCreateModal (v : bool) : M Json.t State.t unit :=
  modify (fun s => State.mk (State.tickets s) (State.loading s) v
    (State.showEditModal s) (State.editingTicket s) (State.formData s)
    (State.alerts s)).

Definition setShowEditModal (v : bool) : M Json.t State.t unit :=
  modify (fun s => State.mk (State.tickets s) (State.loading s)
    (State.showCreateModal s) v (State.editingTicket s) (State.formData s)
    (State.alerts s)).

Definition setEditingTicket (v : option Ticket.t) : M Json.t State.t unit :=
  modify (fun s => State.mk (State.tickets s) (State.loading s)
    (State.showCreateModal s) (State.showEditModal s) v (State.formData s)
    (State.alerts s)).

Definition setFormData (v : TicketCreate.t) : M Json.t State.t unit :=
  modify (fun s => State.mk (State.tickets s) (State.loading s)
    (State.showCreateModal s) (State.showEditModal s) (State.editingTicket s)
    v (State.alerts s)).

Definition alert (message : jsstring) : M Json.t State.t unit :=
  modify (fun s => State.mk (State.tickets s) (State.loading s)
    (State.showCreateModal s) (State.showEditModal s) (State.editingTicket s)
    (State.formData s) (State.alerts s ++ [message])).

Definition resetForm : M Json.t State.t unit := setFormData emptyForm.

(** [if (v && v.trim()) payload.key = v.trim()] *)
Definition setTrimmed (payload : Object) (key : string)
  (v : option jsstring) : Object :=
  match v with
  | Some text =>
      if nonEmpty text && nonEmpty (trim text)
      then setProp payload (lit key) (VString (trim text))
      else payload
  | None => payload
  end.

(** [if (v) payload.key = v] *)
Definition setIfSet (payload : Object) (key : string)
  (v : option jsstring) : Object :=
  match v with
  | Some text =>
      if nonEmpty text then setProp payload (lit key) (VString text)
      else payload
  | None => payload
  end.

(** The four conditional assignments, the same in both handlers. *)
Definition withOptionalFields (formData : TicketCreate.t) (payload : Object)
  : Object :=
  let payload := setTrimmed payload "summary" (TicketCreate.summary formData) in
  let payload :=
    setTrimmed payload "assignee" (TicketCreate.assignee formData) in
  let payload :=
    setIfSet payload "start_date" (TicketCreate.start_date formData) in
  setIfSet payload "end_date" (TicketCreate.end_date formData).

(** The payload of [createTicket]: [status: formData.status || "open"]. *)
Definition createPayload (formData : TicketCreate.t) : Object :=
  withOptionalFields formData
    [(lit "title", VString (trim (TicketCreate.title formData)));
     (lit "status",
      VString (match TicketCreate.status formData with
               | Some st => statusString st
               | None => lit "open"
               end))].

(** The payload of [updateTicket]: [status: formData.status]. *)
Definition updatePayload (formData : TicketCreate.t) : Object :=
  withOptionalFields formData
    [(lit "title", VString (trim (TicketCreate.title formData)));
     (lit "status",
      match TicketCreate.status formData with
      | Some st => VString (statusString st)
      | None => VUndefined
      end)].

Definition jsonHeaders : list (jsstring * jsstring) :=
  [(lit "Content-Type", lit "application/json")].

Section WithEnv.

Variable NEXT_PUBLIC_API_URL : option jsstring.

Definition API_URL : jsstring := apiUrl NEXT_PUBLIC_API_URL.

Definition listRequest : Request.t :=
  {| Request.url := API_URL ++ lit "/tickets/";
     Request.method := lit "GET";
     Request.headers := [];
     Request.body := NoBody |}.

Definition fetchTickets : M Json.t State.t unit :=
  tryFinally
    (tryCatch
       (setLoading true ;;
        response <- fetch listRequest ;;
        when (negb (Response.ok response))
             (throw (newError (lit "Failed to fetch tickets"))) ;;
        data <- json response ;;
        setTickets (Json.tickets data))
       (fun _ =>
          alert (lit ("Failed to load tickets. "
                      ++ "Please check your backend connection."))))
    (setLoading false).

Definition createRequest (formData : TicketCreate.t) : Request.t :=
  {| Request.url := API_URL ++ lit "/tickets/";
     Request.method := lit "POST";
     Request.headers := jsonHeaders;
     Request.body := JsonText (stringify (createPayload formData)) |}.

Definition createTicket : M Json.t State.t unit :=
  s <- getState ;;
  let formData := State.formData s in
  tryCatch
    (let payload := createPayload formData in
     response <- fetch (createRequest formData) ;;
     (if negb (Response.ok response) then
        errorData <- json response ;;
        throw (newError (lit "Failed to create ticket"))
      else ret tt) ;;
     fetchTickets ;;
     setShowCreateModal false ;;
     resetForm ;;
     alert (lit "Ticket created successfully!"))
    (fun _ => alert (lit "Failed to create ticket")).

Definition updateRequest (editingTicket : Ticket.t)
  (formData : TicketCreate.t) : Request.t :=
  {| Request.url :=
       API_URL ++ lit "/tickets/" ++ decimal (Ticket.id editingTicket);
     Request.method := lit "PUT";
     Request.headers := jsonHeaders;
     Request.body := JsonText (stringify (updatePayload formData)) |}.

Definition updateTicket : M Json.t State.t unit :=
  s <- getState ;;
  let formData := State.formData s in
  match State.editingTicket s with
  | None => ret tt
  | Some editingTicket =>
      tryCatch
        (response <- fetch (updateRequest editingTicket formData) ;;
         (if negb (Response.ok response) then
            errorData <- json response ;;
            alert (lit "Update failed: " ++ Json.detailText errorData) ;;
            throw (newError (lit "Failed to update ticket"))
          else ret tt) ;;
         fetchTickets ;;
         setShowEditModal false ;;
         setEditingTicket None ;;
         resetForm ;;
         alert (lit "Ticket updated successfully!"))
        (fun _ => alert (lit "Failed to update ticket"))
  end.

End WithEnv.

(** [openEditModal] *)
Definition openEditModal (ticket : Ticket.t) : M Json.t State.t unit :=
  setEditingTicket (Some ticket) ;;
  setFormData
    {| TicketCreate.title := Ticket.title ticket;
       TicketCreate.summary :=
         Some (match Ticket.summary ticket with
               | Some text => text
               | None => []
               end);
       TicketCreate.assignee :=
         Some (match Ticket.assignee ticket with
               | Some text => text
               | None => []
               end);
       TicketCreate.start_date := Ticket.start_date ticket;
       TicketCreate.end_date := Ticket.end_date ticket;
       TicketCreate.status := Some (Ticket.status ticket) |} ;;
  setShowEditModal true.

Section MoreHandlers.

Variable NEXT_PUBLIC_API_URL : option jsstring.

Definition deleteRequest (ticketId : Z) : Request.t :=
  {| Request.url :=
       API_URL NEXT_PUBLIC_API_URL ++ lit "/tickets/" ++ decimal ticketId;
     Request.method := lit "DELETE";
     Request.headers := [];
     Request.body := NoBody |}.

(** [deleteTicket]; [confirmed] is the answer to the [confirm] dialog. *)
Definition deleteTicket (confirmed : bool) (ticketId : Z)
  : M Json.t State.t unit :=
  if negb confirmed then ret tt
  else
    tryCatch
      (response <- fetch (deleteRequest ticketId) ;;
       when (negb (Response.ok response))
            (throw (newError (lit "Failed to delete ticket"))) ;;
       fetchTickets NEXT_PUBLIC_API_URL ;;
       alert (lit "Ticket deleted successfully!"))
      (fun _ => alert (lit "Failed to delete ticket")).

End MoreHandlers.

(** The status filter of the list: "all" or one status. *)
Inductive StatusFilter := all | only (st : TicketStatus).

Section TicketList.

Variable toLowerCase : jsstring -> jsstring.

Definition statusEqb (a b : TicketStatus) : bool :=
  match a, b with
  | open, open | in_progress, in_progress
  | resolved, resolved | closed, closed => true
  | _, _ => false
  end.

(** [filteredTickets], as a function of the list and of the two inputs. *)
Definition filteredTickets (tickets : list Ticket.t) (searchQuery : jsstring)
  (selectedStatus : StatusFilter) : list Ticket.t :=
  filter
    (fun ticket =>
       let matchesSearch :=
         includes (toLowerCase (Ticket.title ticket)) (toLowerCase searchQuery)
         || match Ticket.summary ticket with
            | Some summary =>
                includes (toLowerCase summary) (toLowerCase searchQuery)
            | None => false
            end in
       let matchesStatus :=
         match selectedStatus with
         | all => true
         | only st => statusEqb (Ticket.status ticket) st
         end in
       matchesSearch && matchesStatus)
    tickets.

End TicketList.

End Tickets.

(** ** Definitions used to state the properties *)

Module Props.

Import Calendar.

(** The palette entry of a ticket id: the two statements
    [hash = hashString(ticket.id) % COLOR_PALETTE.length] and
    [color = COLOR_PALETTE[hash]] of the default case. *)
Definition hashColor (id : jsstring) : option PaletteEntry.t :=
  index COLOR_PALETTE (remainder (hashString id) paletteLength).

(** The entry after it, going round at the end of the palette. *)
Definition nextHashColor (id : jsstring) : option PaletteEntry.t :=
  index COLOR_PALETTE
    (remainder (remainder (hashString id) paletteLength + 1) paletteLength).

Definition paletteClass (c : option PaletteEntry.t) : option EventColor.t :=
  option_map (fun c => classOnly (PaletteEntry.className c)) c.

(** Lower case of the letters A to Z, an instance of [toLowerCase] on
    strings of ASCII. *)
Definition asciiLower (s : jsstring) : jsstring :=
  map (fun c => if (65 <=? c) && (c <=? 90) then c + 32 else c) s.

(** Upper case of the letters a to z, an instance of [toUpperCase] on
    strings of ASCII. *)
Definition asciiUpper (s : jsstring) : jsstring :=
  map (fun c => if (97 <=? c) && (c <=? 122) then c - 32 else c) s.

Definition sampleTicket (id : string) (start_date end_date : option string)
  (status : TicketStatus) (priority : Priority)
  (labels : option (list Label.t)) : Ticket.t :=
  {| Ticket.id := lit id;
     Ticket.title := lit "Prepare the quarterly roadmap review";
     Ticket.start_date := option_map lit start_date;
     Ticket.end_date := option_map lit end_date;
     Ticket.assignee := None;
     Ticket.status := status;
     Ticket.priority := priority;
     Ticket.estimated_hours := None;
     Ticket.project := None;
     Ticket.labels := labels;
     Ticket.assignee_user := None |}.

(** A closed ticket without labels or priority. *)
Definition closedTicket : Ticket.t :=
  sampleTicket "1" None None closed none None.

(** A ticket whose first label has the color [name]. *)
Definition labelledTicket (name : string) : Ticket.t :=
  sampleTicket "7" None None open high
    (Some [Label.mk (lit "l1") (lit "backend") (Some (lit name))]).

(** The exception that a failing transcription request raises inside the
    [try] block: the rejection of [fetch], the rejection of
    [response.json()], or the [Error] thrown for a response that is not ok.
    [None] when the request does not fail. *)
Definition transcribeFailure (o : Http.FetchOutcome Voice.Json.t)
  : option Http.Exn.t :=
  match o with
  | Http.Rejected err => Some err
  | Http.Resolved r =>
      match Http.Response.json r with
      | inl err => Some err
      | inr data =>
          if Http.Response.ok r then None
          else Some (Http.newError
                       (Voice.orElse (Voice.Json.detail data)
                                     (lit "Transcription failed")))
      end
  end.

(** The same for the analysis request; the message of the [Error] thrown
    for a response that is not ok is its [detail], else its [message], else
    its text. *)
Definition analyzeFailure (o : Http.FetchOutcome Voice.Json.t)
  : option Http.Exn.t :=
  match o with
  | Http.Rejected err => Some err
  | Http.Resolved r =>
      match Http.Response.json r with
      | inl err => Some err
      | inr data =>
          if Http.Response.ok r then None
          else Some (Http.newError
                 (Voice.orElse (Voice.Json.detail data)
                    (Voice.orElse (Voice.Json.message data)
                       (Voice.orElse (Some (Voice.Json.text data))
                          (lit "Server error: "
                             ++ Http.decimal (Http.Response.status r)
                             ++ lit " " ++ Http.Response.statusText r)))))
      end
  end.

(** A recording waiting to be transcribed, and a network that answers
    every request with a 503 whose body has a [detail]. *)
Definition recordedState : Voice.State.t :=
  Voice.State.mk Voice.idle
    (Some (Http.Blob.mk (lit "audio/webm") [26; 69; 223; 163]))
    None [] Voice.upload [] None false.

Definition transcribedState : Voice.State.t :=
  Voice.State.mk Voice.idle None None (lit "We ship the beta on Friday.")
    Voice.complete [] None false.

Definition unavailable : Http.Network Voice.Json.t :=
  fun _ _ =>
    Http.Resolved
      (Http.Response.mk false 503 (lit "Service Unavailable")
         (inr (Voice.Json.mk (Some (lit "upstream is down")) None None
                 (lit "{}")))).

(** Every event of a bucket has the key of the bucket as its [date]. *)
Definition dated (m : EventMap) : Prop :=
  Forall (fun kb => Forall (fun e => CalendarEvent.date e = fst kb) (snd kb)) m.

(** [d] is the date part of the start date or of the end date of [t], of
    one that is set. *)
Definition onDate (t : Ticket.t) (d : jsstring) : Prop :=
  (exists s, Ticket.start_date t = Some s /\ s <> [] /\ d = datePart s)
  \/ (exists x, Ticket.end_date t = Some x /\ x <> [] /\ d = datePart x).

(** [e] is an event of the ticket [t]: it carries the id of [t], and it is
    the "start-" event on the date part of a start date that is set or the
    "end-" event on the date part of an end date that is set. *)
Definition eventOf (t : Ticket.t) (e : CalendarEvent.t) : Prop :=
  CalendarEvent.ticketId e = Ticket.id t
  /\ ((exists s, Ticket.start_date t = Some s /\ s <> []
                 /\ CalendarEvent.date e = datePart s
                 /\ CalendarEvent.id e = lit "start-" ++ Ticket.id t)
      \/ (exists x, Ticket.end_date t = Some x /\ x <> []
                    /\ CalendarEvent.date e = datePart x
                    /\ CalendarEvent.id e = lit "end-" ++ Ticket.id t)).

(** [es] can be all the events of the ticket [t]: at most two, on different
    dates, and two only when both dates are set and their date parts
    differ. *)
Definition produced (t : Ticket.t) (es : list CalendarEvent.t) : Prop :=
  Forall (eventOf t) es
  /\ (List.length es <= 2)%nat
  /\ NoDup (map CalendarEvent.date es)
  /\ (List.length es = 2%nat ->
      exists s x, Ticket.start_date t = Some s /\ s <> []
                  /\ Ticket.end_date t = Some x /\ x <> []
                  /\ datePart s <> datePart x).

(** Every date of [t] has an event of [t] among [es]. *)
Definition covered (t : Ticket.t) (es : list CalendarEvent.t) : Prop :=
  forall d, onDate t d ->
  exists e, In e es /\ CalendarEvent.ticketId e = Ticket.id t
            /\ CalendarEvent.date e = d.

(** The events that carry the ticket id [id]. *)
Definition eventsOfId (id : jsstring) (es : list CalendarEvent.t)
  : list CalendarEvent.t :=
  filter (fun e => Js.eqb (CalendarEvent.ticketId e) id) es.

(** Four tickets: one with two times of the same day, one that ends before
    it starts, one without dates and one with an end date only. *)
Definition sameDayTicket : Ticket.t :=
  sampleTicket "1" (Some "2025-01-01T09:00"%string)
    (Some "2025-01-01T17:00"%string) open none None.

Definition reversedTicket : Ticket.t :=
  sampleTicket "2" (Some "2025-01-02"%string) (Some "2025-01-01"%string)
    open low None.

Definition datelessTicket : Ticket.t :=
  sampleTicket "3" None None resolved none None.

Definition endOnlyTicket : Ticket.t :=
  sampleTicket "4" None (Some "2025-01-03T12:00:00"%string)
    in_progress none None.

Definition sampleTickets : list Ticket.t :=
  [sameDayTicket; reversedTicket; datelessTicket; endOnlyTicket].

(** What a field that is sent trimmed must be in the members of a payload:
    the trimmed text when that is not empty, no member otherwise. *)
Definition trimmedMember (v : option jsstring) : option Http.Value :=
  match v with
  | Some text =>
      if nonEmpty (trim text) then Some (Http.VString (trim text)) else None
  | None => None
  end.

(** What a date field must be: the date when it is set, no member
    otherwise. *)
Definition setMember (v : option jsstring) : option Http.Value :=
  match v with
  | Some text => if nonEmpty text then Some (Http.VString text) else None
  | None => None
  end.

(** The payload of a form, as the members of the JSON text that is sent:
    the trimmed title, summary and assignee only with a trimmed value that
    is not empty, the dates only when set. *)
Definition normalized (form : Tickets.TicketCreate.t)
  (members : list (jsstring * Http.Value)) : Prop :=
  Http.member members (lit "title")
  = Some (Http.VString (trim (Tickets.TicketCreate.title form)))
  /\ Http.member members (lit "summary")
     = trimmedMember (Tickets.TicketCreate.summary form)
  /\ Http.member members (lit "assignee")
     = trimmedMember (Tickets.TicketCreate.assignee form)
  /\ Http.member members (lit "start_date")
     = setMember (Tickets.TicketCreate.start_date form)
  /\ Http.member members (lit "end_date")
     = setMember (Tickets.TicketCreate.end_date form).

(** White space alone is never sent as a summary or as an assignee. *)
Definition blanksOmitted (form : Tickets.TicketCreate.t)
  (members : list (jsstring * Http.Value)) : Prop :=
  forall text,
    Forall (fun c => isWhiteSpace c = true) text ->
    (Tickets.TicketCreate.summary form = Some text ->
     Http.member members (lit "summary") = None)
    /\ (Tickets.TicketCreate.assignee form = Some text ->
        Http.member members (lit "assignee") = None).

(** A form with a padded title and a summary of blanks, the state of the
    page while ticket 12 is edited with it, and a network that accepts
    everything and lists no tickets. *)
Definition paddedForm : Tickets.TicketCreate.t :=
  Tickets.TicketCreate.mk (lit "  Fix login  ") (Some (lit "   "))
    (Some (lit "2025-11-08")) None (Some (lit " ana ")) (Some Tickets.open).

Definition editedTicket : Tickets.Ticket.t :=
  Tickets.Ticket.mk 12 (lit "Fix login") None None None None Tickets.open
    (lit "2025-11-01T10:00:00") (lit "2025-11-01T10:00:00").

Definition editingState : Tickets.State.t :=
  Tickets.State.mk (Some [editedTicket]) false false true (Some editedTicket)
    paddedForm [].

Definition accepting : Http.Network Tickets.Json.t :=
  fun _ _ =>
    Http.Resolved
      (Http.Response.mk true 200 (lit "OK")
         (inr (Tickets.Json.mk (Some []) (lit "undefined")))).

(** A network whose speech service hears "Ship it on Friday.", one whose
    speech service hears nothing, and an uploaded file. *)
Definition hearing : Http.Network Voice.Json.t :=
  fun _ _ =>
    Http.Resolved
      (Http.Response.mk true 200 (lit "OK")
         (inr (Voice.Json.mk None None (Some (lit "Ship it on Friday."))
                 (lit "{}")))).

Definition silent : Http.Network Voice.Json.t :=
  fun _ _ =>
    Http.Resolved
      (Http.Response.mk true 200 (lit "OK")
         (inr (Voice.Json.mk None None None (lit "{}")))).

Definition standupFile : Voice.File.t :=
  Voice.File.mk (lit "standup.mp3")
    (Http.Blob.mk (lit "audio/mpeg") [73; 68; 51]).

Definition notesFile : Voice.File.t :=
  Voice.File.mk (lit "notes.pdf")
    (Http.Blob.mk (lit "application/pdf") [37; 80; 68; 70]).

(** A request was answered by a response that is ok. *)
Definition accepted {B : Type} (o : Http.FetchOutcome B) : bool :=
  match o with
  | Http.Resolved r => Http.Response.ok r
  | Http.Rejected _ => false
  end.

(** A network that rejects every request. *)
Definition offline : Http.Network Tickets.Json.t :=
  fun _ _ =>
    Http.Rejected (Http.Exn.mk (lit "TypeError") (lit "Failed to fetch")).

(** A page that shows the form to create a ticket, filled in. *)
Definition creatingState : Tickets.State.t :=
  Tickets.State.mk (Some []) false true false None paddedForm [].

(** [text] with white space taken away at both ends gives [inner]: the
    two differ by white space before and after only, and [inner] neither
    starts nor ends with white space. *)
Definition stripped (text inner : jsstring) : Prop :=
  (exists before after,
     text = before ++ inner ++ after
     /\ Forall (fun c => isWhiteSpace c = true) before
     /\ Forall (fun c => isWhiteSpace c = true) after)
  /\ (forall c, hd_error inner = Some c -> isWhiteSpace c = false)
  /\ (forall c, hd_error (rev inner) = Some c -> isWhiteSpace c = false).

(** A ticket of the list of the tickets page. *)
Definition storedTicket : Tickets.Ticket.t :=
  Tickets.Ticket.mk 7 (lit " Plan the launch ") None
    (Some (lit "2025-12-01")) None (Some (lit "mia")) Tickets.in_progress
    (lit "2025-11-01T10:00:00") (lit "2025-11-02T10:00:00").

(** [q] occurs in [text]. *)
Definition occursIn (q text : jsstring) : Prop :=
  exists before after, text = before ++ q ++ after.

(** The four sample tickets as issues of the sidebar, and the filters that
    ask only for planned, or only for unplanned, tickets. *)
Definition sampleIssues : list Issue.t :=
  map (fun t => Issue.mk t None None) sampleTickets.

Definition noFilters : Filters.t := Filters.mk [] [] [] [] [].

Definition plannedOnly : Filters.t := Filters.mk [] [] [] [] (lit "yes").

Definition unplannedOnly : Filters.t := Filters.mk [] [] [] [] (lit "no").

(** The Gregorian calendar: leap years, and the days of a month counted
    from 1. *)
Definition isLeap (y : Z) : bool :=
  ((y mod 4 =? 0) && negb (y mod 100 =? 0)) || (y mod 400 =? 0).

Definition monthLength (y m : Z) : Z :=
  if m =? 2 then (if isLeap y then 29 else 28)
  else if (m =? 4) || (m =? 6) || (m =? 9) || (m =? 11) then 30 else 31.

(** The year that [new Date(year, ...)] takes a year to mean. *)
Definition yearOfDate (year : Z) : Z :=
  if (0 <=? year) && (year <=? 99) then 1900 + year else year.

(** The month before and the month after a month counted from 0, as year
    and month. *)
Definition monthBefore (y m : Z) : Z * Z :=
  if m =? 0 then (y - 1, 11) else (y, m - 1).

Definition monthAfter (y m : Z) : Z * Z :=
  if m =? 11 then (y + 1, 0) else (y, m + 1).

(** [y]-[m]-[d] is a date of the calendar, months from 1. *)
Definition validDate (y m d : Z) : Prop :=
  1 <= m <= 12 /\ 1 <= d <= monthLength y m.

(** The year, the month from 0 and the day of the month of a date. *)
Definition fieldsOf (d : Date.t) : Z * Z * Z :=
  (Date.getFullYear d, Date.getMonth d, Date.getDate d).

(** The code unit of a decimal digit. *)
Definition isDigit (c : Z) : Prop := 48 <= c <= 57.




(** The 15th of January 2025. *)
Definition january2025 : Date.t := Date.daysFromCivil 2025 1 15.

(** A word: not empty, and without white space. *)
Definition isWord (w : jsstring) : Prop :=
  w <> [] /\ Forall (fun c => isWhiteSpace c = false) w.

(** A user without stored initials, color or picture. *)
Definition ada : Avatar.User.t :=
  Avatar.User.mk 21 (lit " ada  king lovelace ") None None None None.

(** The number that the digits of [d] write after the digits of [acc]. *)
Fixpoint uintValue (acc : Z) (d : Decimal.uint) : Z :=
  match d with
  | Decimal.Nil => acc
  | Decimal.D0 l => uintValue (10 * acc + 0) l
  | Decimal.D1 l => uintValue (10 * acc + 1) l
  | Decimal.D2 l => uintValue (10 * acc + 2) l
  | Decimal.D3 l => uintValue (10 * acc + 3) l
  | Decimal.D4 l => uintValue (10 * acc + 4) l
  | Decimal.D5 l => uintValue (10 * acc + 5) l
  | Decimal.D6 l => uintValue (10 * acc + 6) l
  | Decimal.D7 l => uintValue (10 * acc + 7) l
  | Decimal.D8 l => uintValue (10 * acc + 8) l
  | Decimal.D9 l => uintValue (10 * acc + 9) l
  end.

(** The option that [MultiSelectLabels] makes of a label. *)
Definition optionOf (label : Labels.Label.t) : Dropdown.Option.t :=
  Dropdown.Option.mk (toString (Labels.Label.id label))
    (Labels.Label.name label) (Some (Labels.Label.name label)).

(** Three labels, the first with the id 0. *)
Definition bugLabel : Labels.Label.t := Labels.Label.mk 0 (lit "Bug") None.

Definition backendLabel : Labels.Label.t :=
  Labels.Label.mk 1 (lit "Backend") None.

Definition sampleLabels : list Labels.Label.t :=
  [bugLabel; backendLabel; Labels.Label.mk 2 (lit "UI") None].

(** *** Label colors, places of the palette and date parts *)

(** The first label of [ticket] has the color [c], which is not empty. *)
Definition labelColorOf (ticket : Ticket.t) (c : jsstring) : Prop :=
  exists l rest,
    Ticket.labels ticket = Some (l :: rest)
    /\ Label.color l = Some c /\ c <> [].

(** [ticket] has no labels, or its first label has no color or an empty
    one. *)
Definition noLabelColor (ticket : Ticket.t) : Prop :=
  Ticket.labels ticket = None
  \/ Ticket.labels ticket = Some []
  \/ exists l rest,
       Ticket.labels ticket = Some (l :: rest)
       /\ (Label.color l = None \/ Label.color l = Some []).

(** The color names that have a class of their own, and that class. *)
Definition colorNames : list jsstring :=
  Eval vm_compute in
  map lit ["cyan"; "purple"; "yellow"; "green"; "red"; "blue"; "orange";
           "pink"; "indigo"; "teal"; "lime"; "amber"; "emerald"; "sky";
           "violet"; "fuchsia"; "rose"]%string.

Definition classOfName (name : jsstring) : jsstring :=
  lit "bg-" ++ name ++ lit "-500".

(** The entry of the palette at the place [i mod 20]. *)
Definition paletteAt (i : Z) : option PaletteEntry.t :=
  nth_error COLOR_PALETTE (Z.to_nat (i mod 20)).

(** A ticket with two labels, the first one teal, and a ticket whose first
    label has an empty color. *)
Definition twoLabelTicket : Ticket.t :=
  sampleTicket "8" None None open high
    (Some [Label.mk (lit "l1") (lit "backend") (Some (lit "Teal"));
           Label.mk (lit "l2") (lit "urgent") (Some (lit "#ff0000"))]).

Definition blankLabelTicket : Ticket.t :=
  sampleTicket "9" None None open high
    (Some [Label.mk (lit "l1") (lit "backend") (Some []);
           Label.mk (lit "l2") (lit "urgent") (Some (lit "red"))]).


Definition plannedTicket : Ticket.t :=
  {| Ticket.id := lit "tkt-42";
     Ticket.title := lit "Planned for the spring release";
     Ticket.start_date := Some (lit "2025-03-01");
     Ticket.end_date := Some (lit "2025-03-04T12:00");
     Ticket.assignee := Some (lit "mia");
     Ticket.status := open;
     Ticket.priority := none;
     Ticket.estimated_hours := Some 3%Q;
     Ticket.project := None;
     Ticket.labels := Some [];
     Ticket.assignee_user := None |}.

(** [d] is the date part of the date text [s]: [s] up to its first "T", all
    of [s] when it has none. *)
Definition datePartOf (s d : jsstring) : Prop :=
  ~ In 84 d /\ (s = d \/ exists time, s = d ++ lit "T" ++ time).

(** A date written YYYY-MM-DD. *)
Definition isoDate (d : jsstring) : Prop :=
  exists y1 y2 y3 y4 m1 m2 d1 d2,
    d = [y1; y2; y3; y4; 45; m1; m2; 45; d1; d2]
    /\ Forall isDigit [y1; y2; y3; y4; m1; m2; d1; d2].

(** [d] is the date part of a date of [t] that is set. *)
Definition plannedOn (t : Ticket.t) (d : jsstring) : Prop :=
  exists s,
    (Ticket.start_date t = Some s \/ Ticket.end_date t = Some s)
    /\ s <> [] /\ datePartOf s d.

(** [e] is an event for [t]: it carries the id of [t], and it is the
    "start-" event dated with the date part of a start date that is set,
    or the "end-" event dated with the date part of an end date that is
    set. *)
Definition eventFor (t : Ticket.t) (e : CalendarEvent.t) : Prop :=
  CalendarEvent.ticketId e = Ticket.id t
  /\ ((exists s, Ticket.start_date t = Some s /\ s <> []
                 /\ datePartOf s (CalendarEvent.date e)
                 /\ CalendarEvent.id e = lit "start-" ++ Ticket.id t)
      \/ (exists x, Ticket.end_date t = Some x /\ x <> []
                    /\ datePartOf x (CalendarEvent.date e)
                    /\ CalendarEvent.id e = lit "end-" ++ Ticket.id t)).

(** [es] can be all the events for [t]: at most two, never two on one
    date, and two only when both dates are set with date parts that
    differ. *)
Definition projected (t : Ticket.t) (es : list CalendarEvent.t) : Prop :=
  Forall (eventFor t) es
  /\ (List.length es <= 2)%nat
  /\ NoDup (map CalendarEvent.date es)
  /\ (List.length es = 2%nat ->
      exists s x ds dx,
        Ticket.start_date t = Some s /\ s <> []
        /\ Ticket.end_date t = Some x /\ x <> []
        /\ datePartOf s ds /\ datePartOf x dx /\ ds <> dx).

End Props.

Import Calendar Props.

(** * Properties *)

(** ** Strings and 32-bit integers *)

Lemma eqb_eq (a b : jsstring) : Js.eqb a b = true <-> a = b.
Proof.
  revert b; induction a as [|x a IH]; intros [|y b]; simpl;
    try (split; [discriminate | congruence]); [tauto |].
  rewrite andb_true_iff, Z.eqb_eq, IH.
  split; [intros [-> ->]; reflexivity | intros H; inversion H; auto].
Qed.

Lemma eqb_refl (a : jsstring) : Js.eqb a a = true.
Proof. apply eqb_eq; reflexivity. Qed.

Lemma eqb_neq (a b : jsstring) : Js.eqb a b = false <-> a <> b.
Proof.
  rewrite <- eqb_eq. destruct (Js.eqb a b); split; congruence.
Qed.

Lemma nonEmpty_true (s : jsstring) : nonEmpty s = true <-> s <> [].
Proof. destruct s; simpl; split; congruence. Qed.

Lemma toInt32_range (z : Z) : -2147483648 <= toInt32 z < 2147483648.
Proof.
  unfold toInt32.
  change (2 ^ 31) with 2147483648. change (2 ^ 32) with 4294967296.
  pose proof (Z.mod_pos_bound (z + 2147483648) 4294967296 ltac:(lia)).
  lia.
Qed.

Lemma hashStep_range (hash c : Z) :
  -2147483648 <= hashStep hash c < 2147483648.
Proof.
  unfold hashStep. rewrite Z.land_diag. apply toInt32_range.
Qed.

Lemma fold_left_invariant {A B} (P : A -> Prop) (f : A -> B -> A) :
  (forall a b, P a -> P (f a b)) ->
  forall l a, P a -> P (fold_left f l a).
Proof.
  intros Hstep l; induction l as [|b l IH]; intros a Ha; cbn [fold_left];
    [exact Ha |].
  apply IH, Hstep, Ha.
Qed.

Lemma hash_loop_range (str : jsstring) (hash : Z) :
  -2147483648 <= hash < 2147483648 ->
  -2147483648 <= fold_left hashStep str hash < 2147483648.
Proof.
  apply (fold_left_invariant (fun z => -2147483648 <= z < 2147483648)).
  intros a b _. apply hashStep_range.
Qed.

Lemma hashString_bounds (str : jsstring) : 0 <= hashString str <= 2147483648.
Proof.
  unfold hashString.
  pose proof (hash_loop_range str 0 ltac:(lia)). lia.
Qed.

Lemma paletteLength_20 : paletteLength = 20.
Proof. reflexivity. Qed.

Lemma remainder_in_palette (n : Z) :
  0 <= n -> 0 <= remainder n paletteLength < 20.
Proof.
  intros Hn. rewrite paletteLength_20. unfold remainder.
  apply Z.rem_bound_pos; lia.
Qed.

Lemma index_in_range {A} (a : list A) (i : Z) :
  0 <= i < Z.of_nat (List.length a) ->
  exists x, index a i = Some x /\ In x a.
Proof.
  intros Hi. unfold index.
  destruct (Z.ltb_spec i 0); [lia |].
  destruct (nth_error a (Z.to_nat i)) eqn:E.
  - exists a0; split; [reflexivity | eapply nth_error_In; eauto].
  - apply nth_error_None in E. lia.
Qed.

Lemma hashColor_defined (id : jsstring) :
  exists c, hashColor id = Some c /\ In c COLOR_PALETTE.
Proof.
  apply index_in_range.
  pose proof (remainder_in_palette (hashString id)
                (proj1 (hashString_bounds id))).
  change (Z.of_nat (List.length COLOR_PALETTE)) with 20. lia.
Qed.

Lemma nextHashColor_defined (id : jsstring) :
  exists c, nextHashColor id = Some c /\ In c COLOR_PALETTE.
Proof.
  apply index_in_range.
  pose proof (remainder_in_palette (hashString id)
                (proj1 (hashString_bounds id))).
  pose proof (remainder_in_palette (remainder (hashString id) paletteLength + 1)
                ltac:(lia)).
  change (Z.of_nat (List.length COLOR_PALETTE)) with 20. lia.
Qed.

(** ** Colors *)

Lemma orDefault_defined (v : PropertyValue) (d : jsstring) :
  orDefault v d <> Undefined.
Proof.
  destruct v as [|s|k]; simpl; try discriminate.
  destruct (nonEmpty s); discriminate.
Qed.

Lemma firstLabelColor_some (ticket : Ticket.t) (c : jsstring) :
  labelColorOf ticket c -> firstLabelColor ticket = Some c.
Proof.
  intros (l & rest & Hl & Hc & Hne). unfold firstLabelColor.
  rewrite Hl, Hc. destruct c; [contradiction | reflexivity].
Qed.

Lemma firstLabelColor_none (ticket : Ticket.t) :
  noLabelColor ticket -> firstLabelColor ticket = None.
Proof.
  unfold firstLabelColor.
  intros [-> | [-> | (l & rest & -> & [-> | ->])]]; reflexivity.
Qed.

Lemma startsWith_hash (c : jsstring) :
  startsWith c (lit "#") = true <-> exists tail, c = 35 :: tail.
Proof.
  change (lit "#") with [35]. destruct c as [|x c]; cbn [startsWith].
  - split; [discriminate | intros (tail & H); discriminate].
  - assert (startsWith c [] = true) as -> by (destruct c; reflexivity).
    rewrite andb_true_r, Z.eqb_eq. split.
    + intros <-. eauto.
    + intros (tail & [= -> _]). reflexivity.
Qed.

Lemma ownProperty_table (f : jsstring -> jsstring) (names : list jsstring)
  (key : jsstring) :
  (In key names ->
   ownProperty (map (fun n => (n, f n)) names) key = Some (f key))
  /\ (~ In key names ->
      ownProperty (map (fun n => (n, f n)) names) key = None).
Proof.
  induction names as [|n names [IHin IHout]]; cbn [map ownProperty In].
  - split; [contradiction | reflexivity].
  - destruct (Js.eqb n key) eqn:E.
    + apply eqb_eq in E. subst n. split; [reflexivity |].
      intros H. destruct H. left. reflexivity.
    + apply eqb_neq in E. split.
      * intros [H | H]; [contradiction | apply IHin, H].
      * intros H. apply IHout. intros Hin. apply H. right. exact Hin.
Qed.

Lemma colorMap_table :
  colorMap = map (fun n => (n, classOfName n)) colorNames.
Proof. reflexivity. Qed.

Lemma names_not_inherited (key : jsstring) :
  In key colorNames -> ~ In key objectPrototypeKeys.
Proof.
  intros Hin Hkey.
  assert (forallb (fun n => negb (existsb (Js.eqb n) objectPrototypeKeys))
                  colorNames = true) as Hall by reflexivity.
  rewrite forallb_forall in Hall. specialize (Hall key Hin).
  apply negb_true_iff in Hall.
  assert (existsb (Js.eqb key) objectPrototypeKeys = true); [| congruence].
  apply existsb_exists. exists key. split; [exact Hkey | apply eqb_refl].
Qed.

Lemma paletteAt_index (n : Z) :
  0 <= n -> index COLOR_PALETTE (remainder n paletteLength) = paletteAt n.
Proof.
  intros Hn. unfold paletteAt, index, remainder.
  change paletteLength with 20.
  rewrite Z.rem_mod_nonneg by lia.
  pose proof (Z.mod_pos_bound n 20 ltac:(lia)).
  destruct (Z.ltb_spec (n mod 20) 0); [lia | reflexivity].
Qed.

Lemma paletteAt_defined (n : Z) :
  exists entry, paletteAt n = Some entry /\ In entry COLOR_PALETTE.
Proof.
  unfold paletteAt.
  pose proof (Z.mod_pos_bound n 20 ltac:(lia)).
  destruct (nth_error COLOR_PALETTE (Z.to_nat (n mod 20))) as [entry|] eqn:E.
  - exists entry. split; [reflexivity | eapply nth_error_In; eauto].
  - apply nth_error_None in E.
    change (List.length COLOR_PALETTE) with 20%nat in E. lia.
Qed.

Section EventColorFacts.

Variable toLowerCase : jsstring -> jsstring.

Lemma getEventColor_defined (ticket : Ticket.t) :
  exists color, getEventColor toLowerCase ticket = Some color
                /\ EventColor.className color <> Undefined.
Proof.
  unfold getEventColor.
  destruct (firstLabelColor ticket) as [labelColor|].
  - destruct (startsWith labelColor (lit "#")).
    + eexists; split; [reflexivity | discriminate].
    + eexists; split; [reflexivity | apply orDefault_defined].
  - destruct (Ticket.priority ticket);
      try (eexists; split; [reflexivity | discriminate]).
    destruct (Ticket.status ticket);
      try (eexists; split; [reflexivity | discriminate]).
    + destruct (hashColor_defined (Ticket.id ticket)) as (c & Hc & _).
      unfold hashColor in Hc. cbv zeta. rewrite Hc.
      eexists; split; [reflexivity | discriminate].
    + destruct (nextHashColor_defined (Ticket.id ticket)) as (c & Hc & _).
      unfold nextHashColor in Hc. cbv zeta. rewrite Hc.
      eexists; split; [reflexivity | discriminate].
Qed.

(** C9. [hashString] is never negative, so the index
    [hashString(id) % COLOR_PALETTE.length], and the index after it that an
    in-progress ticket uses, lie in [0, 20) and find an entry of the palette;
    [getEventColor] returns for every ticket, with a [className] that is
    not [undefined]. *)
Theorem palette_indexing_safe :
  (forall id : jsstring,
     0 <= hashString id
     /\ 0 <= remainder (hashString id) paletteLength < 20
     /\ (exists c, index COLOR_PALETTE
                     (remainder (hashString id) paletteLength) = Some c)
     /\ 0 <= remainder (remainder (hashString id) paletteLength + 1)
                       paletteLength < 20
     /\ (exists c, index COLOR_PALETTE
                     (remainder (remainder (hashString id) paletteLength + 1)
                                paletteLength) = Some c))
  /\ Z.of_nat (List.length COLOR_PALETTE) = 20
  /\ forall ticket : Ticket.t,
       exists color, getEventColor toLowerCase ticket = Some color
                     /\ EventColor.className color <> Undefined.
Proof.
  split; [| split; [reflexivity |]].
  - intros id.
    pose proof (hashString_bounds id) as [Hh _].
    pose proof (remainder_in_palette _ Hh) as Hr.
    destruct (hashColor_defined id) as (c & Hc & _).
    destruct (nextHashColor_defined id) as (c' & Hc' & _).
    repeat split; try lia; eauto.
    + apply remainder_in_palette; lia.
    + apply remainder_in_palette; lia.
  - apply getEventColor_defined.
Qed.

(** The color of a ticket that neither a label nor the priority decides. *)
Lemma getEventColor_by_status (ticket : Ticket.t) :
  noLabelColor ticket -> Ticket.priority ticket = none ->
  getEventColor toLowerCase ticket
  = match Ticket.status ticket with
    | open =>
        option_map (fun c => classOnly (PaletteEntry.className c))
                   (paletteAt (hashString (Ticket.id ticket)))
    | in_progress =>
        option_map (fun c => classOnly (PaletteEntry.className c))
                   (paletteAt (hashString (Ticket.id ticket) mod 20 + 1))
    | resolved => Some (classOnly (lit "bg-green-500"))
    | closed => Some (classOnly (lit "bg-slate-600"))
    end.
Proof.
  intros Hno Hp. unfold getEventColor.
  rewrite (firstLabelColor_none ticket Hno), Hp. cbv zeta.
  pose proof (hashString_bounds (Ticket.id ticket)) as [Hh _].
  destruct (Ticket.status ticket); try reflexivity.
  - rewrite paletteAt_index by exact Hh. reflexivity.
  - rewrite <- paletteAt_index.
    + unfold remainder at 2. change paletteLength with 20.
      rewrite (Z.rem_mod_nonneg (hashString (Ticket.id ticket)) 20)
        by lia.
      reflexivity.
    + pose proof (Z.mod_pos_bound (hashString (Ticket.id ticket)) 20
                    ltac:(lia)). lia.
Qed.


(** C2, as amended. The color of a ticket is decided by its first label
    when that label has a color that is not empty: an inline style for a
    color that starts with "#"; else the class "bg-<name>-500" when the
    lower-cased color is one of the seventeen color names, "bg-slate-500"
    when it is no color name and no member that object literals inherit,
    and that member when it is one. Without labels, or with a first label
    that has no color or an empty one, the priorities urgent, high, medium
    and low decide. Without a priority the status decides: the palette
    entry at [hashString(id) mod 20] for an open ticket, the entry after
    it, going round, for a ticket in progress, and a fixed class for a
    resolved or a closed one. *)
Theorem event_color_by_cases (ticket : Ticket.t) :
  (forall c,
     labelColorOf ticket c ->
     ((exists tail, c = 35 :: tail) ->
      getEventColor toLowerCase ticket
      = Some (EventColor.mk (Str []) (Some c)))
     /\ ((forall tail, c <> 35 :: tail) ->
         (In (toLowerCase c) colorNames ->
          getEventColor toLowerCase ticket
          = Some (classOnly (classOfName (toLowerCase c))))
         /\ (~ In (toLowerCase c) colorNames ->
             ~ In (toLowerCase c) objectPrototypeKeys ->
             getEventColor toLowerCase ticket
             = Some (classOnly (lit "bg-slate-500")))
         /\ (In (toLowerCase c) objectPrototypeKeys ->
             getEventColor toLowerCase ticket
             = Some (EventColor.mk (Inherited (toLowerCase c)) None))))
  /\ (noLabelColor ticket ->
      match Ticket.priority ticket with
      | urgent =>
          getEventColor toLowerCase ticket = Some (classOnly (lit "bg-red-500"))
      | high =>
          getEventColor toLowerCase ticket
          = Some (classOnly (lit "bg-orange-500"))
      | medium =>
          getEventColor toLowerCase ticket
          = Some (classOnly (lit "bg-yellow-500"))
      | low =>
          getEventColor toLowerCase ticket
          = Some (classOnly (lit "bg-blue-300"))
      | none =>
          match Ticket.status ticket with
          | open =>
              exists entry,
                paletteAt (hashString (Ticket.id ticket)) = Some entry
                /\ In entry COLOR_PALETTE
                /\ getEventColor toLowerCase ticket
                   = Some (classOnly (PaletteEntry.className entry))
          | in_progress =>
              exists entry,
                paletteAt (hashString (Ticket.id ticket) mod 20 + 1)
                = Some entry
                /\ In entry COLOR_PALETTE
                /\ getEventColor toLowerCase ticket
                   = Some (classOnly (PaletteEntry.className entry))
          | resolved =>
              getEventColor toLowerCase ticket
              = Some (classOnly (lit "bg-green-500"))
          | closed =>
              getEventColor toLowerCase ticket
              = Some (classOnly (lit "bg-slate-600"))
          end
      end).
Proof.
  split.
  - intros c Hc. unfold getEventColor.
    rewrite (firstLabelColor_some ticket c Hc). split.
    + intros Hhash. apply startsWith_hash in Hhash. rewrite Hhash.
      reflexivity.
    + intros Hplain.
      assert (startsWith c (lit "#") = false) as ->.
      { destruct (startsWith c (lit "#")) eqn:E; [| reflexivity].
        apply startsWith_hash in E. destruct E as (tail & E).
        destruct (Hplain tail E). }
      unfold getProperty. rewrite colorMap_table.
      destruct (ownProperty_table classOfName colorNames (toLowerCase c))
        as [Hin Hout].
      split; [| split].
      * intros Hname. rewrite (Hin Hname). reflexivity.
      * intros Hname Hkey. rewrite (Hout Hname).
        destruct (existsb (Js.eqb (toLowerCase c)) objectPrototypeKeys)
          eqn:E; [| reflexivity].
        apply existsb_exists in E. destruct E as (k & Hk & E).
        apply eqb_eq in E. subst k. contradiction.
      * intros Hkey.
        rewrite Hout by (intros H; exact (names_not_inherited _ H Hkey)).
        assert (existsb (Js.eqb (toLowerCase c)) objectPrototypeKeys = true)
          as -> by (apply existsb_exists; exists (toLowerCase c);
                    split; [exact Hkey | apply eqb_refl]).
        reflexivity.
  - intros Hno.
    destruct (Ticket.priority ticket) eqn:Hp;
      try (unfold getEventColor;
           rewrite (firstLabelColor_none ticket Hno), Hp; reflexivity).
    rewrite (getEventColor_by_status ticket Hno Hp).
    destruct (Ticket.status ticket); try reflexivity.
    + destruct (paletteAt_defined (hashString (Ticket.id ticket)))
        as (entry & -> & Hin).
      exists entry. auto.
    + destruct (paletteAt_defined
                  (hashString (Ticket.id ticket) mod 20 + 1))
        as (entry & -> & Hin).
      exists entry. auto.
Qed.

End EventColorFacts.

(** [event_color_by_cases] at a ticket with two labels, whose first, teal,
    label decides; at a ticket whose first label has an empty color, where
    the priority decides; and at a closed ticket without label or
    priority. *)
Lemma event_color_by_cases_witness :
  getEventColor asciiLower twoLabelTicket
  = Some (classOnly (lit "bg-teal-500"))
  /\ getEventColor asciiLower blankLabelTicket
     = Some (classOnly (lit "bg-orange-500"))
  /\ getEventColor asciiLower closedTicket
     = Some (classOnly (lit "bg-slate-600")).
Proof.
  split; [| split].
  - destruct (event_color_by_cases asciiLower twoLabelTicket) as [Hlabel _].
    destruct (Hlabel (lit "Teal")) as [_ Hname].
    { exists (Label.mk (lit "l1") (lit "backend") (Some (lit "Teal"))).
      eexists. split; [reflexivity | split; [reflexivity | discriminate]]. }
    destruct (Hname ltac:(discriminate)) as (Hteal & _).
    rewrite Hteal; [reflexivity |].
    vm_compute. tauto.
  - destruct (event_color_by_cases asciiLower blankLabelTicket) as [_ Hno].
    apply Hno. right. right.
    exists (Label.mk (lit "l1") (lit "backend") (Some [])). eexists.
    split; [reflexivity | right; reflexivity].
  - destruct (event_color_by_cases asciiLower closedTicket) as [_ Hno].
    apply Hno. left. reflexivity.
Defined.

(** C2, as stated, fails: a closed ticket with no label and no priority
    gets "bg-slate-600", which is not the palette entry of its id. *)
Lemma closed_ticket_not_hash_colored :
  firstLabelColor closedTicket = None
  /\ Ticket.priority closedTicket = none
  /\ getEventColor asciiLower closedTicket
     = Some (classOnly (lit "bg-slate-600"))
  /\ paletteClass (hashColor (Ticket.id closedTicket))
     = Some (classOnly (lit "bg-rose-500"))
  /\ getEventColor asciiLower closedTicket
     <> paletteClass (hashColor (Ticket.id closedTicket)).
Proof.
  repeat split; try reflexivity.
  vm_compute. discriminate.
Qed.

(** The [className] is a string, except for a label color whose lower case
    names a member that object literals inherit: then it is that member. *)
Lemma className_string_or_inherited (toLowerCase : jsstring -> jsstring)
  (ticket : Ticket.t) (color : EventColor.t) :
  getEventColor toLowerCase ticket = Some color ->
  (exists s, EventColor.className color = Str s)
  \/ (exists labelColor,
        firstLabelColor ticket = Some labelColor
        /\ In (toLowerCase labelColor) objectPrototypeKeys
        /\ EventColor.className color = Inherited (toLowerCase labelColor)).
Proof.
  unfold getEventColor.
  destruct (firstLabelColor ticket) as [labelColor|].
  - destruct (startsWith labelColor (lit "#")); intros [= <-];
      cbn [EventColor.className]; [left; eauto |].
    unfold getProperty.
    destruct (ownProperty colorMap (toLowerCase labelColor)) as [v|].
    + left. cbn [orDefault]. destruct (nonEmpty v); eauto.
    + destruct (existsb (Js.eqb (toLowerCase labelColor)) objectPrototypeKeys)
        eqn:E; cbn [orDefault]; [| left; eauto].
      right. exists labelColor. split; [reflexivity | split; [| reflexivity]].
      apply existsb_exists in E. destruct E as (k & Hin & Hk).
      apply eqb_eq in Hk. subst k. exact Hin.
  - destruct (Ticket.priority ticket);
      try (intros [= <-]; left; cbn; eauto).
    destruct (Ticket.status ticket);
      try (intros [= <-]; left; cbn; eauto);
      cbv zeta; match goal with
                | |- option_map _ ?o = _ -> _ => destruct o
                end;
      cbn [option_map]; try discriminate; intros [= <-]; left; cbn; eauto.
Qed.

Example hashString_values :
  hashString (lit "1") = 49
  /\ hashString (lit "abcdefghijklmnop") = 2093879032
  /\ hashColor (lit "abcdefghijklmnop")
     = Some (PaletteEntry.mk (lit "bg-violet-500") (lit "#8b5cf6")).
Proof. repeat split; reflexivity. Qed.

Example getEventColor_hex_label :
  getEventColor asciiLower (labelledTicket "#ff0000")
  = Some (EventColor.mk (Str []) (Some (lit "#ff0000"))).
Proof. reflexivity. Qed.

Example getEventColor_unknown_label :
  getEventColor asciiLower (labelledTicket "Chartreuse")
  = Some (classOnly (lit "bg-slate-500")).
Proof. reflexivity. Qed.

Example getEventColor_inherited_label :
  getEventColor asciiLower (labelledTicket "Constructor")
  = Some (EventColor.mk (Inherited (lit "constructor")) None).
Proof. reflexivity. Qed.

Example getUserColor_values :
  Avatar.getUserColor 21 = Some (lit "#06b6d4")
  /\ Avatar.getUserColor 16 = Some (lit "#3b82f6")
  /\ Avatar.getUserColor (-1) = None.
Proof. repeat split; reflexivity. Qed.



Section HashColorFacts.

Variable toLowerCase : jsstring -> jsstring.
Variable toUpperCase : jsstring -> jsstring.


End HashColorFacts.



(** ** The month grid *)

Lemma countDown_length (n : nat) : List.length (countDown n) = n.
Proof. induction n; simpl; congruence. Qed.

Lemma countUp_length (n : Z) : List.length (countUp n) = Z.to_nat n.
Proof. unfold countUp. rewrite length_map, length_seq. reflexivity. Qed.

Lemma getDay_range (d : Date.t) : 0 <= Date.getDay d <= 6.
Proof.
  unfold Date.getDay.
  pose proof (Z.mod_pos_bound (d + 4) 7 ltac:(lia)). lia.
Qed.



Lemma ceilDiv_least (a : Z) :
  a <= ceilDiv a 7 * 7 < a + 7.
Proof.
  unfold ceilDiv.
  pose proof (Z.mul_div_le (- a) 7 ltac:(lia)).
  pose proof (Z.mul_succ_div_gt (- a) 7 ltac:(lia)).
  lia.
Qed.



Example grid_november_2026 :
  getDaysInMonth (Date.make 2026 10 2)
  = MonthDays.mk 30 0 [] [1; 2; 3; 4; 5].
Proof. reflexivity. Qed.

Example grid_february_2024 :
  getDaysInMonth (Date.make 2024 1 15)
  = MonthDays.mk 29 4 [28; 29; 30; 31] [1; 2].
Proof. reflexivity. Qed.

(** ** The voice assistant *)

Module VoiceFacts.

Import Http Voice.

Ltac step_handler :=
  cbv beta iota zeta
      delta [run bind ret throw tryCatch getState modify fetch json when
             setRecordingStatus setTranscript setCurrentStep setError
             setAnalysisResult setIsAnalyzing
             State.recordingStatus State.audioBlob State.uploadedFile
             State.transcript State.currentStep State.error
             State.analysisResult State.isAnalyzing];
  cbn [List.length app negb].

Section WithEnv.

Variable NEXT_PUBLIC_API_URL : option jsstring.
Variable net : Network Json.t.

(** C3. With an empty transcript the analysis handler only stores the
    message "No transcript to analyze": nothing is sent, and nothing else of
    the state changes. *)
Theorem empty_transcript_rejected (s : State.t) :
  State.transcript s = [] ->
  run (analyzeWithAI NEXT_PUBLIC_API_URL) net s
  = (inr tt,
     State.mk (State.recordingStatus s) (State.audioBlob s)
       (State.uploadedFile s) (State.transcript s) (State.currentStep s)
       (lit "No transcript to analyze")
       (State.analysisResult s) (State.isAnalyzing s),
     []).
Proof.
  intros Ht. destruct s; cbn [State.transcript] in Ht; subst.
  reflexivity.
Qed.

Lemma transcribeAudio_run (s : State.t) (file : Blob.t) :
  fileToTranscribe s = Some file ->
  let request := transcribeRequest NEXT_PUBLIC_API_URL file (fileName s) in
  exists s',
    run (transcribeAudio NEXT_PUBLIC_API_URL) net s = (inr tt, s', [request])
    /\ State.analysisResult s' = State.analysisResult s
    /\ match transcribeFailure (net 0%nat request) with
       | Some err =>
           State.error s' = lit "Transcription failed: " ++ Exn.message err
           /\ State.currentStep s' = upload
           /\ State.recordingStatus s' = idle
           /\ State.transcript s' = State.transcript s
       | None => State.recordingStatus s' = idle
       end.
Proof.
  intros Hfile request.
  unfold transcribeAudio, run, bind at 1, getState. rewrite Hfile.
  fold request. clearbody request. unfold transcribeFailure.
  step_handler.
  destruct (net 0%nat request) as [err | response];
    [eexists; repeat split; reflexivity |].
  destruct response as [ok status statusText [err | data]];
    cbn [Response.ok Response.json negb];
    destruct ok; step_handler; cbn [Response.json];
    try (eexists; repeat split; reflexivity).
  destruct (truthy (Json.transcript data));
    eexists; repeat split; reflexivity.
Qed.

Lemma analyzeWithAI_run (s : State.t) :
  State.transcript s <> [] ->
  let request := analyzeRequest NEXT_PUBLIC_API_URL (State.transcript s) in
  exists s',
    run (analyzeWithAI NEXT_PUBLIC_API_URL) net s = (inr tt, s', [request])
    /\ State.transcript s' = State.transcript s
    /\ match analyzeFailure (net 0%nat request) with
       | Some err =>
           State.error s'
           = lit "AI analysis failed: "
             ++ orElse (Some (Exn.message err)) (errorToString err)
           /\ State.currentStep s' = upload
           /\ State.isAnalyzing s' = false
           /\ State.analysisResult s' = State.analysisResult s
       | None => State.currentStep s' = complete
       end.
Proof.
  intros Ht request.
  unfold analyzeWithAI, run, bind at 1, getState.
  apply nonEmpty_true in Ht. rewrite Ht. cbn [negb].
  fold request. clearbody request. unfold analyzeFailure.
  step_handler.
  destruct (net 0%nat request) as [err | response];
    [eexists; repeat split; reflexivity |].
  destruct response as [ok status statusText [err | data]];
    cbn [Response.ok Response.json negb];
    destruct ok; step_handler; cbn [Response.json];
    eexists; repeat split; reflexivity.
Qed.

(** C4. When the transcription request fails (the request is rejected, the
    response is not ok, or its body cannot be read), the handler ends with
    that one request sent, the message of the failure in [error], and the
    step back at "upload"; the transcript is as it was, so no analysis is
    started. The same holds for a failing analysis request: one request
    sent, the message in [error], the step back at "upload", no result
    stored. *)
Theorem failure_aborts (s : State.t) :
  (forall file err,
     fileToTranscribe s = Some file ->
     transcribeFailure
       (net 0%nat (transcribeRequest NEXT_PUBLIC_API_URL file (fileName s)))
     = Some err ->
     exists s',
       run (transcribeAudio NEXT_PUBLIC_API_URL) net s
       = (inr tt, s',
          [transcribeRequest NEXT_PUBLIC_API_URL file (fileName s)])
       /\ State.error s' = lit "Transcription failed: " ++ Exn.message err
       /\ State.currentStep s' = State.currentStep initialState
       /\ State.recordingStatus s' = idle
       /\ State.transcript s' = State.transcript s
       /\ State.analysisResult s' = State.analysisResult s)
  /\ (forall err,
        State.transcript s <> [] ->
        analyzeFailure
          (net 0%nat (analyzeRequest NEXT_PUBLIC_API_URL (State.transcript s)))
        = Some err ->
        exists s',
          run (analyzeWithAI NEXT_PUBLIC_API_URL) net s
          = (inr tt, s',
             [analyzeRequest NEXT_PUBLIC_API_URL (State.transcript s)])
          /\ State.error s'
             = lit "AI analysis failed: "
               ++ orElse (Some (Exn.message err)) (errorToString err)
          /\ State.currentStep s' = State.currentStep initialState
          /\ State.isAnalyzing s' = false
          /\ State.analysisResult s' = State.analysisResult s).
Proof.
  split.
  - intros file err Hfile Hfail.
    destruct (transcribeAudio_run s file Hfile) as (s' & Hrun & Hres & Hcase).
    rewrite Hfail in Hcase. destruct Hcase as (He & Hstep & Hrec & Htr).
    exists s'. repeat split; assumption.
  - intros err Ht Hfail.
    destruct (analyzeWithAI_run s Ht) as (s' & Hrun & _ & Hcase).
    rewrite Hfail in Hcase. destruct Hcase as (He & Hstep & Han & Hres).
    exists s'. repeat split; assumption.
Qed.

(** C7. The transcription handler sends one POST to
    /api/voice/transcribe-file whose body is a form with the audio in its
    "file" field; the analysis handler sends one POST to
    /api/voice/process-meeting whose body is JSON with the transcript in its
    "transcript" member. *)
Theorem voice_requests (s : State.t) :
  (forall file,
     fileToTranscribe s = Some file ->
     exists s',
       run (transcribeAudio NEXT_PUBLIC_API_URL) net s
       = (inr tt, s',
          [ {| Request.url :=
                 apiUrl NEXT_PUBLIC_API_URL ++ lit "/api/voice/transcribe-file";
               Request.method := lit "POST";
               Request.headers := [];
               Request.body :=
                 FormData [FormEntry.mk (lit "file") file (fileName s)] |} ]))
  /\ (State.transcript s <> [] ->
      exists s' members,
        run (analyzeWithAI NEXT_PUBLIC_API_URL) net s
        = (inr tt, s',
           [ {| Request.url :=
                  apiUrl NEXT_PUBLIC_API_URL
                  ++ lit "/api/voice/process-meeting";
                Request.method := lit "POST";
                Request.headers :=
                  [(lit "Content-Type", lit "application/json")];
                Request.body := JsonText members |} ])
        /\ member members (lit "transcript")
           = Some (VString (State.transcript s))).
Proof.
  split.
  - intros file Hfile.
    destruct (transcribeAudio_run s file Hfile) as (s' & Hrun & _).
    exists s'. exact Hrun.
  - intros Ht.
    destruct (analyzeWithAI_run s Ht) as (s' & Hrun & _).
    exists s'. eexists. split; [exact Hrun | reflexivity].
Qed.

End WithEnv.

(** [empty_transcript_rejected] at the initial state of the page. *)
Lemma empty_transcript_rejected_witness :
  run (analyzeWithAI None) unavailable initialState
  = (inr tt,
     State.mk idle None None [] upload (lit "No transcript to analyze")
       None false,
     []).
Proof.
  exact (empty_transcript_rejected None unavailable initialState eq_refl).
Defined.

(** [failure_aborts] with a recording, and with a transcript, on a network
    that answers 503. *)
Lemma failure_aborts_witness :
  (exists s',
     run (transcribeAudio None) unavailable recordedState
     = (inr tt, s',
        [transcribeRequest None
           (Blob.mk (lit "audio/webm") [26; 69; 223; 163])
           (lit "recording.webm")])
     /\ State.error s' = lit "Transcription failed: upstream is down"
     /\ State.currentStep s' = upload)
  /\ (exists s',
        run (analyzeWithAI None) unavailable transcribedState
        = (inr tt, s',
           [analyzeRequest None (lit "We ship the beta on Friday.")])
        /\ State.error s' = lit "AI analysis failed: upstream is down"
        /\ State.currentStep s' = upload).
Proof.
  destruct (failure_aborts None unavailable recordedState) as [Htr _].
  destruct (failure_aborts None unavailable transcribedState) as [_ Han].
  split.
  - destruct (Htr (Blob.mk (lit "audio/webm") [26; 69; 223; 163])
                  (newError (lit "upstream is down")) eq_refl eq_refl)
      as (s' & Hrun & He & Hs & _).
    exists s'. repeat split; assumption.
  - destruct (Han (newError (lit "upstream is down"))
                  ltac:(discriminate) eq_refl)
      as (s' & Hrun & He & Hs & _).
    exists s'. repeat split; assumption.
Defined.

(** [voice_requests] at the same two states. *)
Lemma voice_requests_witness :
  (exists s',
     run (transcribeAudio None) unavailable recordedState
     = (inr tt, s',
        [ {| Request.url :=
               lit "http://localhost:8000/api/voice/transcribe-file";
             Request.method := lit "POST";
             Request.headers := [];
             Request.body :=
               FormData
                 [FormEntry.mk (lit "file")
                    (Blob.mk (lit "audio/webm") [26; 69; 223; 163])
                    (lit "recording.webm")] |} ]))
  /\ (exists s' members,
        run (analyzeWithAI None) unavailable transcribedState
        = (inr tt, s',
           [ {| Request.url :=
                  lit "http://localhost:8000/api/voice/process-meeting";
                Request.method := lit "POST";
                Request.headers :=
                  [(lit "Content-Type", lit "application/json")];
                Request.body := JsonText members |} ])
        /\ member members (lit "transcript")
           = Some (VString (lit "We ship the beta on Friday."))).
Proof.
  destruct (voice_requests None unavailable recordedState) as [Htr _].
  destruct (voice_requests None unavailable transcribedState) as [_ Han].
  split.
  - exact (Htr (Blob.mk (lit "audio/webm") [26; 69; 223; 163]) eq_refl).
  - exact (Han ltac:(discriminate)).
Defined.

End VoiceFacts.

(** ** The tickets page *)

Module TicketFacts.

Import Http Tickets.

Lemma trimStart_blank (text : jsstring) :
  Forall (fun c => isWhiteSpace c = true) text -> trimStart text = [].
Proof.
  induction 1 as [|c text Hc _ IH]; cbn [trimStart]; [reflexivity |].
  rewrite Hc. exact IH.
Qed.

Lemma trim_blank (text : jsstring) :
  Forall (fun c => isWhiteSpace c = true) text -> trim text = [].
Proof.
  intros H. unfold trim. rewrite (trimStart_blank text H). reflexivity.
Qed.

Lemma trim_guard (text : jsstring) :
  nonEmpty text && nonEmpty (trim text) = nonEmpty (trim text).
Proof. destruct text; reflexivity. Qed.

Lemma setTrimmed_eq (payload : Object) (key : string) (v : option jsstring) :
  setTrimmed payload key v
  = match trimmedMember v with
    | Some value => setProp payload (lit key) value
    | None => payload
    end.
Proof.
  destruct v as [text|]; cbn [setTrimmed trimmedMember]; [| reflexivity].
  rewrite trim_guard. destruct (nonEmpty (trim text)); reflexivity.
Qed.

Lemma setIfSet_eq (payload : Object) (key : string) (v : option jsstring) :
  setIfSet payload key v
  = match setMember v with
    | Some value => setProp payload (lit key) value
    | None => payload
    end.
Proof.
  destruct v as [text|]; cbn [setIfSet setMember]; [| reflexivity].
  destruct (nonEmpty text); reflexivity.
Qed.

Lemma trimmedMember_string (v : option jsstring) (value : Value) :
  trimmedMember v = Some value -> exists text, value = VString text.
Proof.
  destruct v as [text|]; cbn [trimmedMember]; [| discriminate].
  destruct (nonEmpty (trim text)); [| discriminate].
  intros [= <-]. eauto.
Qed.

Lemma setMember_string (v : option jsstring) (value : Value) :
  setMember v = Some value -> exists text, value = VString text.
Proof.
  destruct v as [text|]; cbn [setMember]; [| discriminate].
  destruct (nonEmpty text); [| discriminate].
  intros [= <-]. eauto.
Qed.

(** The members written for a payload that starts with a title and a
    status. *)
Lemma payload_members (form : TicketCreate.t) (status : Value) :
  normalized form
    (stringify
       (withOptionalFields form
          [(lit "title", VString (trim (TicketCreate.title form)));
           (lit "status", status)])).
Proof.
  unfold withOptionalFields, normalized.
  rewrite !setTrimmed_eq, !setIfSet_eq.
  destruct (trimmedMember (TicketCreate.summary form)) as [v1|] eqn:E1;
    [destruct (trimmedMember_string _ _ E1) as [t1 ->] |];
  (destruct (trimmedMember (TicketCreate.assignee form)) as [v2|] eqn:E2;
    [destruct (trimmedMember_string _ _ E2) as [t2 ->] |]);
  (destruct (setMember (TicketCreate.start_date form)) as [v3|] eqn:E3;
    [destruct (setMember_string _ _ E3) as [t3 ->] |]);
  (destruct (setMember (TicketCreate.end_date form)) as [v4|] eqn:E4;
    [destruct (setMember_string _ _ E4) as [t4 ->] |]);
  destruct status; repeat split; reflexivity.
Qed.

Lemma normalized_blanks (form : TicketCreate.t)
  (members : list (jsstring * Value)) :
  normalized form members -> blanksOmitted form members.
Proof.
  intros (_ & Hs & Ha & _) text Hblank.
  split; intros E; rewrite E in *; cbn [trimmedMember] in *;
    rewrite (trim_blank text Hblank) in *; assumption.
Qed.

Ltac step_page :=
  cbv beta iota zeta
      delta [run bind ret throw tryCatch tryFinally getState modify fetch json
             when fetchTickets resetForm
             setTickets setLoading setShowCreateModal setShowEditModal
             setEditingTicket setFormData alert
             State.tickets State.loading State.showCreateModal
             State.showEditModal State.editingTicket State.formData
             State.alerts Response.ok Response.json];
  cbn [List.length app negb].

Ltac case_outcome net :=
  match goal with
  | |- context [net ?n ?request] =>
      let err := fresh "err" in
      let ok := fresh "ok" in
      let data := fresh "data" in
      destruct (net n request) as [err | [ok ? ? [err | data]]];
      [| destruct ok | destruct ok]; step_page
  end.

Section WithEnv.

Variable NEXT_PUBLIC_API_URL : option jsstring.
Variable net : Network Json.t.

Lemma createTicket_run (s : State.t) :
  exists s' rest,
    run (createTicket NEXT_PUBLIC_API_URL) net s
    = (inr tt, s',
       createRequest NEXT_PUBLIC_API_URL (State.formData s) :: rest).
Proof.
  unfold createTicket, run, bind at 1, getState.
  generalize (createRequest NEXT_PUBLIC_API_URL (State.formData s)) as request.
  generalize (listRequest NEXT_PUBLIC_API_URL) as list_request.
  intros list_request request. step_page.
  case_outcome net; try (do 2 eexists; reflexivity);
    case_outcome net; do 2 eexists; reflexivity.
Qed.

Lemma updateTicket_run (s : State.t) (editingTicket : Ticket.t) :
  State.editingTicket s = Some editingTicket ->
  exists s' rest,
    run (updateTicket NEXT_PUBLIC_API_URL) net s
    = (inr tt, s',
       updateRequest NEXT_PUBLIC_API_URL editingTicket (State.formData s)
       :: rest).
Proof.
  intros He. unfold updateTicket, run, bind at 1, getState. rewrite He.
  generalize
    (updateRequest NEXT_PUBLIC_API_URL editingTicket (State.formData s))
    as request.
  generalize (listRequest NEXT_PUBLIC_API_URL) as list_request.
  intros list_request request. step_page.
  case_outcome net; try (do 2 eexists; reflexivity);
    case_outcome net; do 2 eexists; reflexivity.
Qed.

(** C10. The first request of [createTicket] is a POST to /tickets/ and the
    first request of [updateTicket], which sends nothing when no ticket is
    being edited, is a PUT to the ticket. The JSON members of both have the
    trimmed title, a summary and an assignee only when their trimmed text is
    not empty (then that text), and the dates only when set; a summary or an
    assignee of white space only is not among the members. *)
Theorem payload_normalized (s : State.t) :
  (exists s' members rest,
     run (createTicket NEXT_PUBLIC_API_URL) net s
     = (inr tt, s',
        {| Request.url := apiUrl NEXT_PUBLIC_API_URL ++ lit "/tickets/";
           Request.method := lit "POST";
           Request.headers := [(lit "Content-Type", lit "application/json")];
           Request.body := JsonText members |} :: rest)
     /\ normalized (State.formData s) members
     /\ blanksOmitted (State.formData s) members)
  /\ (forall editingTicket,
        State.editingTicket s = Some editingTicket ->
        exists s' members rest,
          run (updateTicket NEXT_PUBLIC_API_URL) net s
          = (inr tt, s',
             {| Request.url :=
                  apiUrl NEXT_PUBLIC_API_URL ++ lit "/tickets/"
                  ++ decimal (Ticket.id editingTicket);
                Request.method := lit "PUT";
                Request.headers :=
                  [(lit "Content-Type", lit "application/json")];
                Request.body := JsonText members |} :: rest)
          /\ normalized (State.formData s) members
          /\ blanksOmitted (State.formData s) members)
  /\ (State.editingTicket s = None ->
      run (updateTicket NEXT_PUBLIC_API_URL) net s = (inr tt, s, [])).
Proof.
  split; [| split].
  - destruct (createTicket_run s) as (s' & rest & Hrun).
    exists s', (stringify (createPayload (State.formData s))), rest.
    pose proof (payload_members (State.formData s)
                  (VString match TicketCreate.status (State.formData s) with
                           | Some st => statusString st
                           | None => lit "open"
                           end)) as Hn.
    split; [exact Hrun | split; [exact Hn | apply normalized_blanks, Hn]].
  - intros editingTicket He.
    destruct (updateTicket_run s editingTicket He) as (s' & rest & Hrun).
    exists s', (stringify (updatePayload (State.formData s))), rest.
    pose proof (payload_members (State.formData s)
                  match TicketCreate.status (State.formData s) with
                  | Some st => VString (statusString st)
                  | None => VUndefined
                  end) as Hn.
    split; [exact Hrun | split; [exact Hn | apply normalized_blanks, Hn]].
  - intros He. unfold updateTicket, run, bind, getState. rewrite He.
    reflexivity.
Qed.

End WithEnv.

(** [payload_normalized] while ticket 12 is edited with a padded title, a
    blank summary and a padded assignee. *)
Lemma payload_normalized_witness :
  exists s' members rest,
    run (updateTicket None) accepting editingState
    = (inr tt, s',
       {| Request.url := lit "http://localhost:8000/tickets/12";
          Request.method := lit "PUT";
          Request.headers := [(lit "Content-Type", lit "application/json")];
          Request.body := JsonText members |} :: rest)
    /\ member members (lit "title") = Some (VString (lit "Fix login"))
    /\ member members (lit "summary") = None
    /\ member members (lit "assignee") = Some (VString (lit "ana"))
    /\ member members (lit "start_date") = Some (VString (lit "2025-11-08"))
    /\ member members (lit "end_date") = None.
Proof.
  destruct (payload_normalized None accepting editingState) as (_ & Hup & _).
  destruct (Hup editedTicket eq_refl) as (s' & members & rest & Hrun & Hn & _).
  exists s', members, rest. split; [exact Hrun | exact Hn].
Defined.

End TicketFacts.

(** ** The event map *)

Lemma get_has (m : EventMap) (k : jsstring) :
  has m k = match get m k with Some _ => true | None => false end.
Proof.
  induction m as [|[k0 b0] m IH]; cbn [has get]; [reflexivity |].
  destruct (Js.eqb k0 k); [reflexivity | exact IH].
Qed.

Lemma set_absent (m : EventMap) (k : jsstring) (v : list CalendarEvent.t) :
  get m k = None -> set m k v = m ++ [(k, v)].
Proof.
  induction m as [|[k0 b0] m IH]; cbn [get set app]; [reflexivity |].
  destruct (Js.eqb k0 k); [discriminate |].
  intros H. rewrite (IH H). reflexivity.
Qed.

Lemma get_set_same (m : EventMap) (k : jsstring) (v : list CalendarEvent.t) :
  get (set m k v) k = Some v.
Proof.
  induction m as [|[k0 b0] m IH]; cbn [get set].
  - rewrite eqb_refl. reflexivity.
  - destruct (Js.eqb k0 k) eqn:E; cbn [get]; rewrite E;
      [reflexivity | exact IH].
Qed.

Lemma flatten_cons (k : jsstring) (b : list CalendarEvent.t) (m : EventMap) :
  flatten ((k, b) :: m) = b ++ flatten m.
Proof. reflexivity. Qed.

Lemma flatten_app (m m' : EventMap) :
  flatten (m ++ m') = flatten m ++ flatten m'.
Proof.
  unfold flatten. rewrite map_app, concat_app. reflexivity.
Qed.

Lemma flatten_set (m : EventMap) (k : jsstring)
  (b es : list CalendarEvent.t) :
  get m k = Some b ->
  Permutation (flatten (set m k (b ++ es))) (flatten m ++ es).
Proof.
  induction m as [|[k0 b0] m IH]; cbn [get set]; [discriminate |].
  destruct (Js.eqb k0 k).
  - intros [= ->]. rewrite !flatten_cons, <- !app_assoc.
    apply Permutation_app_head, Permutation_app_comm.
  - intros H. rewrite !flatten_cons, <- app_assoc.
    apply Permutation_app_head, IH, H.
Qed.

Lemma In_get_flatten (m : EventMap) (k : jsstring)
  (b : list CalendarEvent.t) (e : CalendarEvent.t) :
  get m k = Some b -> In e b -> In e (flatten m).
Proof.
  induction m as [|[k0 b0] m IH]; cbn [get]; [discriminate |].
  rewrite flatten_cons, in_app_iff.
  destruct (Js.eqb k0 k); [intros [= ->]; auto | eauto].
Qed.

Lemma dated_get (m : EventMap) (k : jsstring) (b : list CalendarEvent.t) :
  dated m -> get m k = Some b ->
  Forall (fun e => CalendarEvent.date e = k) b.
Proof.
  unfold dated.
  induction 1 as [|[k0 b0] m Hb _ IH]; cbn [get]; [discriminate |].
  destruct (Js.eqb k0 k) eqn:E; [| exact IH].
  apply eqb_eq in E. subst k0. intros [= <-]. exact Hb.
Qed.

Lemma dated_set (m : EventMap) (k : jsstring) (v : list CalendarEvent.t) :
  dated m -> Forall (fun e => CalendarEvent.date e = k) v ->
  dated (set m k v).
Proof.
  unfold dated.
  induction 1 as [|[k0 b0] m Hb Hm IH]; intros Hv; cbn [set].
  - repeat constructor. exact Hv.
  - destruct (Js.eqb k0 k) eqn:E.
    + apply eqb_eq in E. subst k0. constructor; assumption.
    + constructor; [exact Hb | exact (IH Hv)].
Qed.

Lemma ensure_spec (m : EventMap) (k : jsstring) :
  exists b,
    get (ensure m k) k = Some b
    /\ flatten (ensure m k) = flatten m
    /\ (dated m -> dated (ensure m k))
    /\ (get m k = Some b \/ b = []).
Proof.
  unfold ensure. rewrite get_has.
  destruct (get m k) as [b|] eqn:E.
  - exists b. rewrite E. auto.
  - exists []. rewrite get_set_same. split; [reflexivity |].
    split; [| split; [| auto]].
    + rewrite (set_absent m k [] E), flatten_app. apply app_nil_r.
    + intros Hm. apply dated_set; [exact Hm | constructor].
Qed.

Lemma ensure_present (m : EventMap) (k : jsstring)
  (b : list CalendarEvent.t) :
  get m k = Some b -> ensure m k = m.
Proof. intros H. unfold ensure. rewrite get_has, H. reflexivity. Qed.

Lemma pushAt_spec (m : EventMap) (k : jsstring)
  (b : list CalendarEvent.t) (e : CalendarEvent.t) :
  get m k = Some b -> dated m -> CalendarEvent.date e = k ->
  exists m',
    pushAt m k e = Some m'
    /\ dated m'
    /\ Permutation (flatten m') (flatten m ++ [e])
    /\ get m' k = Some (b ++ [e]).
Proof.
  intros Hget Hm He. unfold pushAt. rewrite Hget.
  exists (set m k (b ++ [e])). split; [reflexivity |].
  split; [| split; [apply flatten_set, Hget | apply get_set_same]].
  apply dated_set; [exact Hm |].
  apply Forall_app. split; [eapply dated_get; eauto |].
  repeat constructor. exact He.
Qed.

Lemma findTicket_true (b : list CalendarEvent.t) (id : jsstring) :
  findTicket b id = true <->
  exists e, In e b /\ CalendarEvent.ticketId e = id.
Proof.
  unfold findTicket. rewrite existsb_exists.
  split; intros (e & Hin & He); exists e; split; auto; apply eqb_eq; exact He.
Qed.

Lemma truthy_true (v : option jsstring) :
  truthy v = true <-> exists s, v = Some s /\ s <> [].
Proof.
  destruct v as [s|]; cbn [truthy].
  - rewrite nonEmpty_true. split; [eauto | intros (s' & [= <-] & H); exact H].
  - split; [discriminate | intros (s' & H & _); discriminate].
Qed.

Lemma filter_permutation {A} (f : A -> bool) (l l' : list A) :
  Permutation l l' -> Permutation (filter f l) (filter f l').
Proof.
  induction 1 as [| x l l' _ IH | x y l | l l' l'' _ IH1 _ IH2];
    cbn [filter].
  - constructor.
  - destruct (f x); [constructor |]; exact IH.
  - destruct (f x), (f y); try reflexivity. constructor.
  - etransitivity; eassumption.
Qed.

(** ** The projection of tickets onto dates *)

Section ProjectionFacts.

Variable toLowerCase : jsstring -> jsstring.

Lemma mkEvent_start (t : Ticket.t) (s : jsstring) (h : Q) (c : EventColor.t) :
  Ticket.start_date t = Some s -> s <> [] ->
  eventOf t (mkEvent "start-" t (datePart s) h c).
Proof.
  intros Hs Hne. split; [reflexivity |]. left. exists s. auto.
Qed.

Lemma mkEvent_end (t : Ticket.t) (x : jsstring) (h : Q) (c : EventColor.t) :
  Ticket.end_date t = Some x -> x <> [] ->
  eventOf t (mkEvent "end-" t (datePart x) h c).
Proof.
  intros Hx Hne. split; [reflexivity |]. right. exists x. auto.
Qed.

(** The first [if]: nothing for a start date that is not set, else the
    "start-" event, last in its bucket. *)
Lemma addStart_spec (t : Ticket.t) (h : Q) (c : EventColor.t) (m : EventMap) :
  dated m ->
  exists m1,
    addStart t h c m = Some m1
    /\ dated m1
    /\ ((truthy (Ticket.start_date t) = false /\ m1 = m)
        \/ (exists s b,
              Ticket.start_date t = Some s /\ s <> []
              /\ Permutation (flatten m1)
                   (flatten m ++ [mkEvent "start-" t (datePart s) h c])
              /\ get m1 (datePart s)
                 = Some (b ++ [mkEvent "start-" t (datePart s) h c]))).
Proof.
  intros Hm. unfold addStart.
  destruct (Ticket.start_date t) as [s|] eqn:Hs; [| exists m; auto].
  destruct (nonEmpty s) eqn:Hne; [| exists m; cbn [truthy]; auto].
  destruct (ensure_spec m (datePart s)) as (b & Hget & Hflat & Hdated & _).
  destruct (pushAt_spec (ensure m (datePart s)) (datePart s) b
              (mkEvent "start-" t (datePart s) h c) Hget (Hdated Hm) eq_refl)
    as (m1 & Hpush & Hm1 & Hperm & Hget1).
  exists m1. split; [exact Hpush | split; [exact Hm1 |]].
  right. exists s, b. rewrite Hflat in Hperm.
  apply nonEmpty_true in Hne.
  split; [reflexivity | split; [exact Hne | split; assumption]].
Qed.

(** The second [if]: nothing for an end date that is not set or that is
    the start date; else the "end-" event, unless the bucket of its date
    already has an event of the ticket. *)
Lemma addEnd_spec (t : Ticket.t) (h : Q) (c : EventColor.t) (m1 : EventMap) :
  dated m1 ->
  exists m2,
    addEnd t h c m1 = Some m2
    /\ dated m2
    /\ ((m2 = m1
         /\ (truthy (Ticket.end_date t) = false
             \/ Ticket.end_date t = Ticket.start_date t))
        \/ (exists x b,
              Ticket.end_date t = Some x /\ x <> []
              /\ get (ensure m1 (datePart x)) (datePart x) = Some b
              /\ ((findTicket b (Ticket.id t) = true
                   /\ flatten m2 = flatten m1)
                  \/ (findTicket b (Ticket.id t) = false
                      /\ Permutation (flatten m2)
                           (flatten m1
                            ++ [mkEvent "end-" t (datePart x) h c]))))).
Proof.
  intros Hm. unfold addEnd.
  destruct (Ticket.end_date t) as [x|] eqn:Hx;
    [| exists m1; split; [reflexivity | split; [exact Hm |]];
       left; split; [reflexivity | left; reflexivity]].
  destruct (nonEmpty x) eqn:Hne; cbn [andb];
    [| exists m1; split; [reflexivity | split; [exact Hm |]];
       left; split; [reflexivity | left; exact Hne]].
  destruct (strictNotEqual (Some x) (Ticket.start_date t)) eqn:Hneq.
  - destruct (ensure_spec m1 (datePart x)) as (b & Hget & Hflat & Hdated & _).
    rewrite Hget. apply nonEmpty_true in Hne.
    destruct (findTicket b (Ticket.id t)) eqn:Hfind.
    + exists (ensure m1 (datePart x)).
      split; [reflexivity | split; [exact (Hdated Hm) |]].
      right. exists x, b.
      split; [reflexivity | split; [exact Hne | split; [exact Hget |]]].
      left. split; assumption.
    + destruct (pushAt_spec (ensure m1 (datePart x)) (datePart x) b
                  (mkEvent "end-" t (datePart x) h c) Hget (Hdated Hm) eq_refl)
        as (m2 & Hpush & Hm2 & Hperm & _).
      exists m2. split; [exact Hpush | split; [exact Hm2 |]].
      right. exists x, b. rewrite Hflat in Hperm.
      split; [reflexivity | split; [exact Hne | split; [exact Hget |]]].
      right. split; assumption.
  - exists m1. split; [reflexivity | split; [exact Hm |]].
    left. split; [reflexivity | right].
    destruct (Ticket.start_date t) as [s|]; cbn [strictNotEqual] in Hneq;
      [| discriminate].
    apply negb_false_iff, eqb_eq in Hneq. congruence.
Qed.

Lemma produced_nil (t : Ticket.t) : produced t [].
Proof.
  split; [constructor |].
  split; [cbn; lia | split; [constructor | discriminate]].
Qed.

Lemma produced_one (t : Ticket.t) (e : CalendarEvent.t) :
  eventOf t e -> produced t [e].
Proof.
  intros He. split; [constructor; [exact He | constructor] |].
  split; [cbn; lia |]. split; [| discriminate].
  constructor; [intros [] | constructor].
Qed.

Lemma produced_two (t : Ticket.t) (s x : jsstring) (h : Q)
  (c : EventColor.t) :
  Ticket.start_date t = Some s -> s <> [] ->
  Ticket.end_date t = Some x -> x <> [] ->
  datePart s <> datePart x ->
  produced t [mkEvent "start-" t (datePart s) h c;
              mkEvent "end-" t (datePart x) h c].
Proof.
  intros Hs Hsne Hx Hxne Hdiff. split.
  { constructor; [apply mkEvent_start; assumption |].
    constructor; [apply mkEvent_end; assumption | constructor]. }
  split; [cbn; lia |]. split.
  - cbn [map]. constructor.
    + intros [Heq | []]. apply Hdiff. symmetry. exact Heq.
    + constructor; [intros [] | constructor].
  - intros _. exists s, x. repeat split; assumption.
Qed.

Lemma in_added {A} (e : A) (l l' added : list A) :
  Permutation l' (l ++ added) -> In e added -> In e l'.
Proof.
  intros Hperm Hin. apply (Permutation_in _ (Permutation_sym Hperm)).
  apply in_app_iff. right. exact Hin.
Qed.

Lemma in_kept {A} (e : A) (l l' added : list A) :
  Permutation l' (l ++ added) -> In e l -> In e l'.
Proof.
  intros Hperm Hin. apply (Permutation_in _ (Permutation_sym Hperm)).
  apply in_app_iff. left. exact Hin.
Qed.

(** An event of the ticket found in the bucket of a date is an event of
    the ticket on that date. *)
Lemma found_covers (m : EventMap) (t : Ticket.t) (k : jsstring)
  (b : list CalendarEvent.t) :
  dated m ->
  get (ensure m k) k = Some b ->
  findTicket b (Ticket.id t) = true ->
  exists e, In e (flatten m)
            /\ CalendarEvent.ticketId e = Ticket.id t
            /\ CalendarEvent.date e = k.
Proof.
  intros Hm Hget Hfind.
  destruct (ensure_spec m k) as (b' & Hget' & Hflat & Hd & _).
  rewrite Hget in Hget'. injection Hget' as <-.
  apply findTicket_true in Hfind. destruct Hfind as (e & Hin & He).
  exists e. split; [| split; [exact He |]].
  - rewrite <- Hflat. eapply In_get_flatten; eauto.
  - pose proof (dated_get _ _ _ (Hd Hm) Hget) as Hall.
    rewrite Forall_forall in Hall. apply Hall, Hin.
Qed.

(** One call of the callback: what it adds to the events, and that every
    date of the ticket then has an event of the ticket. *)
Lemma processTicket_spec (m : EventMap) (t : Ticket.t) :
  dated m ->
  exists m' added,
    processTicket toLowerCase m t = Some m'
    /\ dated m'
    /\ Permutation (flatten m') (flatten m ++ added)
    /\ produced t added
    /\ covered t (flatten m').
Proof.
  intros Hm. unfold processTicket.
  destruct (negb (truthy (Ticket.start_date t))
            && negb (truthy (Ticket.end_date t))) eqn:Hguard.
  { apply andb_true_iff in Hguard. destruct Hguard as [Hs Hx].
    apply negb_true_iff in Hs, Hx.
    exists m, []. split; [reflexivity | split; [exact Hm |]].
    rewrite app_nil_r. split; [reflexivity |].
    split; [apply produced_nil |].
    intros d [(s & E & Hne & _) | (x & E & Hne & _)].
    - rewrite E in Hs. cbn [truthy] in Hs.
      apply nonEmpty_true in Hne. congruence.
    - rewrite E in Hx. cbn [truthy] in Hx.
      apply nonEmpty_true in Hne. congruence. }
  destruct (getEventColor_defined toLowerCase t) as (c & Hc & _).
  rewrite Hc. cbv zeta. set (h := hoursOf t).
  destruct (addStart_spec t h c m Hm) as (m1 & Hstart & Hm1 & Hcase1).
  rewrite Hstart.
  destruct (addEnd_spec t h c m1 Hm1) as (m2 & Hend & Hm2 & Hcase2).
  exists m2.
  destruct Hcase1 as [[Hs ->] | (s & b & Hs & Hsne & Hperm1 & Hget1)].
  - (* no start event *)
    assert (Hstartless : forall d,
              ~ (exists s, Ticket.start_date t = Some s /\ s <> []
                           /\ d = datePart s)).
    { intros d (s & E & Hne & _).
      assert (truthy (Ticket.start_date t) = true)
        by (apply truthy_true; eauto).
      congruence. }
    destruct Hcase2 as [[-> Hcase2] | (x & bx & Hx & Hxne & Hgetx & Hcase2)].
    + exfalso. destruct Hcase2 as [Hx | Hx].
      * rewrite Hs, Hx in Hguard. discriminate.
      * rewrite Hx, Hs in Hguard. discriminate.
    + destruct Hcase2 as [[Hfind Hflat2] | [Hfind Hperm2]].
      * exists []. split; [exact Hend | split; [exact Hm2 |]].
        rewrite app_nil_r, Hflat2. split; [reflexivity |].
        split; [apply produced_nil |].
        intros d [Hd' | (x' & E & Hne & ->)]; [destruct (Hstartless d Hd') |].
        rewrite Hx in E. injection E as <-.
        exact (found_covers m t (datePart x) bx Hm Hgetx Hfind).
      * exists [mkEvent "end-" t (datePart x) h c].
        split; [exact Hend | split; [exact Hm2 |]].
        split; [exact Hperm2 |].
        split; [apply produced_one, mkEvent_end; assumption |].
        intros d [Hd' | (x' & E & Hne & ->)]; [destruct (Hstartless d Hd') |].
        rewrite Hx in E. injection E as <-.
        exists (mkEvent "end-" t (datePart x) h c).
        split; [| split; reflexivity].
        eapply in_added; [exact Hperm2 | left; reflexivity].
  - (* a start event *)
    set (startEvent := mkEvent "start-" t (datePart s) h c) in *.
    assert (HinStart : In startEvent (flatten m1))
      by (eapply in_added; [exact Hperm1 | left; reflexivity]).
    destruct Hcase2 as [[-> Hcase2] | (x & bx & Hx & Hxne & Hgetx & Hcase2)].
    + exists [startEvent]. split; [exact Hend | split; [exact Hm2 |]].
      split; [exact Hperm1 |].
      split; [apply produced_one, mkEvent_start; assumption |].
      intros d Hd.
      assert (d = datePart s) as ->.
      { destruct Hd as [(s' & E & _ & ->) | (x & E & Hne & ->)].
        - congruence.
        - destruct Hcase2 as [Hx | Hx].
          + assert (truthy (Ticket.end_date t) = true)
              by (apply truthy_true; eauto).
            congruence.
          + congruence. }
      exists startEvent. split; [exact HinStart | split; reflexivity].
    + destruct Hcase2 as [[Hfind Hflat2] | [Hfind Hperm2]].
      * exists [startEvent]. split; [exact Hend | split; [exact Hm2 |]].
        rewrite Hflat2. split; [exact Hperm1 |].
        split; [apply produced_one, mkEvent_start; assumption |].
        intros d [(s' & E & _ & ->) | (x' & E & Hne & ->)].
        -- rewrite Hs in E. injection E as <-.
           exists startEvent. split; [exact HinStart | split; reflexivity].
        -- rewrite Hx in E. injection E as <-.
           exact (found_covers m1 t (datePart x) bx Hm1 Hgetx Hfind).
      * set (endEvent := mkEvent "end-" t (datePart x) h c) in *.
        assert (Hdiff : datePart s <> datePart x).
        { intros Heq. rewrite <- Heq in Hgetx.
          rewrite (ensure_present _ _ _ Hget1), Hget1 in Hgetx.
          injection Hgetx as <-.
          assert (findTicket (b ++ [startEvent]) (Ticket.id t) = true).
          { apply findTicket_true. exists startEvent.
            split; [apply in_app_iff; right; left |]; reflexivity. }
          congruence. }
        exists [startEvent; endEvent].
        split; [exact Hend | split; [exact Hm2 |]]. split.
        { rewrite Hperm2, Hperm1, <- app_assoc. reflexivity. }
        split; [apply produced_two; assumption |].
        intros d [(s' & E & _ & ->) | (x' & E & Hne & ->)].
        -- rewrite Hs in E. injection E as <-.
           exists startEvent. split; [| split; reflexivity].
           eapply in_kept; [exact Hperm2 | exact HinStart].
        -- rewrite Hx in E. injection E as <-.
           exists endEvent. split; [| split; reflexivity].
           eapply in_added; [exact Hperm2 | left; reflexivity].
Qed.

Lemma processTicket_dateless (m : EventMap) (t : Ticket.t) :
  truthy (Ticket.start_date t) = false ->
  truthy (Ticket.end_date t) = false ->
  processTicket toLowerCase m t = Some m.
Proof.
  intros Hs Hx. unfold processTicket. rewrite Hs, Hx. reflexivity.
Qed.

Lemma forEach_app (pre post : list Ticket.t) (m : EventMap) :
  forEach toLowerCase (pre ++ post) m
  = match forEach toLowerCase pre m with
    | Some m1 => forEach toLowerCase post m1
    | None => None
    end.
Proof.
  revert m; induction pre as [|t pre IH]; intros m; cbn [forEach app];
    [reflexivity |].
  destruct (processTicket toLowerCase m t); [apply IH | reflexivity].
Qed.

(** The whole loop: it ends, the events of the map are kept, every new
    event is an event of a ticket of the list, and every date of every
    ticket has an event of the ticket. *)
Lemma forEach_spec (tickets : list Ticket.t) (m : EventMap) :
  dated m ->
  exists m',
    forEach toLowerCase tickets m = Some m'
    /\ dated m'
    /\ (forall e, In e (flatten m) -> In e (flatten m'))
    /\ (forall e, In e (flatten m') ->
                  In e (flatten m) \/ exists t, In t tickets /\ eventOf t e)
    /\ (forall t, In t tickets -> covered t (flatten m')).
Proof.
  revert m; induction tickets as [|t0 rest IH]; intros m Hm; cbn [forEach].
  - exists m. repeat split; auto. intros t [].
  - destruct (processTicket_spec m t0 Hm)
      as (m1 & added & Hstep & Hm1 & Hperm & (Hadded & _) & Hcov).
    rewrite Hstep.
    destruct (IH m1 Hm1) as (m' & Hloop & Hm' & Hkeep & Hnew & Hcovs).
    exists m'. split; [exact Hloop | split; [exact Hm' |]].
    split; [| split].
    + intros e He. apply Hkeep. eapply in_kept; eauto.
    + intros e He. destruct (Hnew e He) as [Hin | (t & Ht & Hev)].
      * apply (Permutation_in _ Hperm), in_app_iff in Hin.
        destruct Hin as [Hin | Hin]; [left; exact Hin |].
        right. exists t0. split; [left; reflexivity |].
        rewrite Forall_forall in Hadded. apply Hadded, Hin.
      * right. exists t. split; [right; exact Ht | exact Hev].
    + intros t [<- | Ht]; [| apply Hcovs, Ht].
      intros d Hd. destruct (Hcov d Hd) as (e & Hin & He).
      exists e. split; [apply Hkeep, Hin | exact He].
Qed.

Lemma dated_nil : dated [].
Proof. constructor. Qed.

Lemma eventsOfId_all (i : jsstring) (l : list CalendarEvent.t) :
  Forall (fun e => CalendarEvent.ticketId e = i) l -> eventsOfId i l = l.
Proof.
  induction 1 as [|e l He _ IH]; cbn [eventsOfId filter]; [reflexivity |].
  rewrite (proj2 (eqb_eq _ _) He). f_equal. exact IH.
Qed.

Lemma eventsOfId_none (i : jsstring) (l : list CalendarEvent.t) :
  Forall (fun e => CalendarEvent.ticketId e <> i) l -> eventsOfId i l = [].
Proof.
  induction 1 as [|e l He _ IH]; cbn [eventsOfId filter]; [reflexivity |].
  rewrite (proj2 (eqb_neq _ _) He). exact IH.
Qed.

Lemma produced_ids (t : Ticket.t) (l : list CalendarEvent.t) :
  produced t l -> Forall (fun e => CalendarEvent.ticketId e = Ticket.id t) l.
Proof.
  intros (Hall & _). eapply Forall_impl; [| exact Hall].
  intros e [He _]. exact He.
Qed.

Lemma produced_permutation (t : Ticket.t) (l l' : list CalendarEvent.t) :
  Permutation l l' -> produced t l -> produced t l'.
Proof.
  intros Hperm (Hall & Hlen & Hnodup & Htwo).
  pose proof (Permutation_length Hperm) as Hl.
  split; [eapply Permutation_Forall; eauto |].
  split; [lia |]. split.
  - eapply Permutation_NoDup; [apply Permutation_map, Hperm | exact Hnodup].
  - intros H. apply Htwo. lia.
Qed.

(** With ids that differ from ticket to ticket, the events that carry the
    id of a ticket are the ones its call of the callback added. *)
Lemma forEach_ids (tickets : list Ticket.t) (m m' : EventMap) (i : jsstring) :
  dated m ->
  forEach toLowerCase tickets m = Some m' ->
  NoDup (map Ticket.id tickets) ->
  (~ In i (map Ticket.id tickets) ->
   Permutation (eventsOfId i (flatten m')) (eventsOfId i (flatten m)))
  /\ (forall t, In t tickets -> Ticket.id t = i ->
      exists added,
        produced t added
        /\ Permutation (eventsOfId i (flatten m'))
             (eventsOfId i (flatten m) ++ added)).
Proof.
  revert m; induction tickets as [|t0 rest IH]; intros m Hm Hloop Hnodup;
    cbn [forEach map] in *.
  - injection Hloop as <-. split; [reflexivity | intros t []].
  - destruct (processTicket_spec m t0 Hm)
      as (m1 & added0 & Hstep & Hm1 & Hperm & Hprod & _).
    rewrite Hstep in Hloop.
    inversion Hnodup as [| ? ? Hfresh Hrest]; subst.
    destruct (IH m1 Hm1 Hloop Hrest) as [IHout IHin].
    assert (Hfilter : Permutation (eventsOfId i (flatten m1))
                        (eventsOfId i (flatten m) ++ eventsOfId i added0)).
    { unfold eventsOfId. rewrite <- filter_app.
      apply filter_permutation, Hperm. }
    assert (Hother : Ticket.id t0 <> i -> eventsOfId i added0 = []).
    { intros Hne. apply eventsOfId_none.
      eapply Forall_impl; [| apply (produced_ids _ _ Hprod)].
      cbn beta. intros e He. congruence. }
    split.
    + intros Hout. rewrite IHout by (intros H; apply Hout; right; exact H).
      rewrite Hfilter, Hother, app_nil_r; [reflexivity |].
      intros H; apply Hout; left; exact H.
    + intros t [<- | Ht] Hid.
      * exists added0. split; [exact Hprod |].
        rewrite IHout by (rewrite <- Hid; exact Hfresh).
        rewrite Hfilter. subst i.
        rewrite (eventsOfId_all _ _ (produced_ids _ _ Hprod)). reflexivity.
      * destruct (IHin t Ht Hid) as (added & Hadded & Hp).
        exists added. split; [exact Hadded |].
        rewrite Hp, Hfilter, Hother, app_nil_r; [reflexivity |].
        intros Heq. apply Hfresh. rewrite Heq, <- Hid.
        apply in_map, Ht.
Qed.

End ProjectionFacts.

Lemma sampleTickets_ids : NoDup (map Ticket.id sampleTickets).
Proof.
  repeat constructor; cbn; intuition discriminate.
Qed.

Example sample_events :
  option_map (map (fun e => (CalendarEvent.id e, CalendarEvent.date e)))
             (events asciiLower sampleTickets)
  = Some [(lit "start-1", lit "2025-01-01"); (lit "end-2", lit "2025-01-01");
          (lit "start-2", lit "2025-01-02"); (lit "end-4", lit "2025-01-03")].
Proof. reflexivity. Qed.

(** ** More of the voice assistant *)

Module VoiceFlows.

Import Http Voice.

Ltac step_voice :=
  cbv beta iota zeta
      delta [run bind ret throw tryCatch getState modify fetch json when
             setRecordingStatus setTranscript setCurrentStep setError
             setAnalysisResult setIsAnalyzing setAudioBlob setUploadedFile
             State.recordingStatus State.audioBlob State.uploadedFile
             State.transcript State.currentStep State.error
             State.analysisResult State.isAnalyzing
             Response.ok Response.json];
  cbn [List.length app negb].

(** A request fails, or its response is ok with a body that can be read. *)
Lemma transcribe_outcome (o : FetchOutcome Json.t) :
  (exists err, transcribeFailure o = Some err)
  \/ (exists status statusText data,
        o = Resolved (Response.mk true status statusText (inr data))).
Proof.
  destruct o as [err | [ok status statusText [err | data]]];
    cbn; eauto.
  destruct ok; cbn; eauto 6.
Qed.

Lemma analyze_outcome (o : FetchOutcome Json.t) :
  (exists err, analyzeFailure o = Some err)
  \/ (exists status statusText data,
        o = Resolved (Response.mk true status statusText (inr data))).
Proof.
  destruct o as [err | [ok status statusText [err | data]]];
    cbn; eauto.
  destruct ok; cbn; eauto 6.
Qed.

Section WithEnv.

Variable NEXT_PUBLIC_API_URL : option jsstring.
Variable net : Network Json.t.

Lemma transcribeAudio_failed (s : State.t) (file : Blob.t) (err : Exn.t) :
  fileToTranscribe s = Some file ->
  transcribeFailure
    (net 0%nat (transcribeRequest NEXT_PUBLIC_API_URL file (fileName s)))
  = Some err ->
  run (transcribeAudio NEXT_PUBLIC_API_URL) net s
  = (inr tt,
     State.mk idle (State.audioBlob s) (State.uploadedFile s)
       (State.transcript s) upload
       (lit "Transcription failed: " ++ Exn.message err)
       (State.analysisResult s) (State.isAnalyzing s),
     [transcribeRequest NEXT_PUBLIC_API_URL file (fileName s)]).
Proof.
  intros Hfile.
  unfold transcribeAudio, run, bind at 1, getState. rewrite Hfile.
  generalize (transcribeRequest NEXT_PUBLIC_API_URL file (fileName s))
    as request.
  intros request. unfold transcribeFailure. step_voice.
  destruct (net 0%nat request) as [e | [ok status statusText [e | data]]];
    [| destruct ok | destruct ok]; step_voice; intros [= <-];
    reflexivity.
Qed.

Lemma transcribeAudio_succeeded (s : State.t) (file : Blob.t)
  (status : Z) (statusText : jsstring) (data : Json.t) :
  fileToTranscribe s = Some file ->
  net 0%nat (transcribeRequest NEXT_PUBLIC_API_URL file (fileName s))
  = Resolved (Response.mk true status statusText (inr data)) ->
  run (transcribeAudio NEXT_PUBLIC_API_URL) net s
  = (inr tt,
     (if truthy (Json.transcript data) then
        State.mk idle (State.audioBlob s) (State.uploadedFile s)
          (orElse (Json.transcript data) []) complete []
          (State.analysisResult s) (State.isAnalyzing s)
      else
        State.mk idle (State.audioBlob s) (State.uploadedFile s)
          [] transcribing
          (lit "No speech detected in the audio. Please try again.")
          (State.analysisResult s) (State.isAnalyzing s)),
     [transcribeRequest NEXT_PUBLIC_API_URL file (fileName s)]).
Proof.
  intros Hfile.
  unfold transcribeAudio, run, bind at 1, getState. rewrite Hfile.
  generalize (transcribeRequest NEXT_PUBLIC_API_URL file (fileName s))
    as request.
  intros request Hnet. step_voice. rewrite Hnet. step_voice.
  destruct (Json.transcript data) as [[|c t]|]; reflexivity.
Qed.

Lemma analyzeWithAI_failed (s : State.t) (err : Exn.t) :
  State.transcript s <> [] ->
  analyzeFailure
    (net 0%nat (analyzeRequest NEXT_PUBLIC_API_URL (State.transcript s)))
  = Some err ->
  run (analyzeWithAI NEXT_PUBLIC_API_URL) net s
  = (inr tt,
     State.mk (State.recordingStatus s) (State.audioBlob s)
       (State.uploadedFile s) (State.transcript s) upload
       (lit "AI analysis failed: "
        ++ orElse (Some (Exn.message err)) (errorToString err))
       (State.analysisResult s) false,
     [analyzeRequest NEXT_PUBLIC_API_URL (State.transcript s)]).
Proof.
  intros Ht.
  unfold analyzeWithAI, run, bind at 1, getState.
  apply nonEmpty_true in Ht. rewrite Ht. cbn [negb].
  generalize (analyzeRequest NEXT_PUBLIC_API_URL (State.transcript s))
    as request.
  intros request. unfold analyzeFailure. step_voice.
  destruct (net 0%nat request) as [e | [ok status statusText [e | data]]];
    [| destruct ok | destruct ok]; step_voice; intros [= <-];
    reflexivity.
Qed.

Lemma analyzeWithAI_succeeded (s : State.t)
  (status : Z) (statusText : jsstring) (data : Json.t) :
  State.transcript s <> [] ->
  net 0%nat (analyzeRequest NEXT_PUBLIC_API_URL (State.transcript s))
  = Resolved (Response.mk true status statusText (inr data)) ->
  run (analyzeWithAI NEXT_PUBLIC_API_URL) net s
  = (inr tt,
     State.mk (State.recordingStatus s) (State.audioBlob s)
       (State.uploadedFile s) (State.transcript s) complete []
       (Some data) false,
     [analyzeRequest NEXT_PUBLIC_API_URL (State.transcript s)]).
Proof.
  intros Ht.
  unfold analyzeWithAI, run, bind at 1, getState.
  apply nonEmpty_true in Ht. rewrite Ht. cbn [negb].
  generalize (analyzeRequest NEXT_PUBLIC_API_URL (State.transcript s))
    as request.
  intros request Hnet. step_voice. rewrite Hnet. step_voice. reflexivity.
Qed.

(** X1. Without a recording and without an uploaded file, [transcribeAudio]
    only stores its message in [error]: nothing is sent and nothing else of
    the state changes. *)
Theorem no_audio_rejected (s : State.t) :
  State.uploadedFile s = None -> State.audioBlob s = None ->
  run (transcribeAudio NEXT_PUBLIC_API_URL) net s
  = (inr tt,
     State.mk (State.recordingStatus s) None None (State.transcript s)
       (State.currentStep s)
       (lit "No audio to transcribe. Please record or upload an audio file.")
       (State.analysisResult s) (State.isAnalyzing s),
     []).
Proof.
  intros Hf Hb. destruct s; cbn [State.uploadedFile State.audioBlob] in *.
  subst. reflexivity.
Qed.

(** X2. Whatever the network answers, a handler that has sent its request
    ends without an exception, with exactly that one request sent and its
    busy flag released: [recordingStatus] is "idle" after [transcribeAudio]
    and [isAnalyzing] is false after [analyzeWithAI]. *)
Theorem busy_flags_released (s : State.t) :
  (forall file,
     fileToTranscribe s = Some file ->
     exists s',
       run (transcribeAudio NEXT_PUBLIC_API_URL) net s
       = (inr tt, s',
          [transcribeRequest NEXT_PUBLIC_API_URL file (fileName s)])
       /\ State.recordingStatus s' = idle)
  /\ (State.transcript s <> [] ->
      exists s',
        run (analyzeWithAI NEXT_PUBLIC_API_URL) net s
        = (inr tt, s',
           [analyzeRequest NEXT_PUBLIC_API_URL (State.transcript s)])
        /\ State.isAnalyzing s' = false).
Proof.
  split.
  - intros file Hfile.
    destruct (transcribe_outcome
                (net 0%nat (transcribeRequest NEXT_PUBLIC_API_URL file
                              (fileName s))))
      as [(err & Hfail) | (status & statusText & data & Hok)].
    + eexists. split; [apply (transcribeAudio_failed s file err Hfile Hfail) |].
      reflexivity.
    + eexists.
      split; [apply (transcribeAudio_succeeded s file _ _ _ Hfile Hok) |].
      destruct (truthy (Json.transcript data)); reflexivity.
  - intros Ht.
    destruct (analyze_outcome
                (net 0%nat (analyzeRequest NEXT_PUBLIC_API_URL
                              (State.transcript s))))
      as [(err & Hfail) | (status & statusText & data & Hok)].
    + eexists. split; [apply (analyzeWithAI_failed s err Ht Hfail) |].
      reflexivity.
    + eexists. split; [apply (analyzeWithAI_succeeded s _ _ _ Ht Hok) |].
      reflexivity.
Qed.

End WithEnv.

(** X3. The two steps compose: when the transcription answers with a
    transcript that is not empty, the page holds that transcript with the
    step at "complete", and the analysis that follows sends exactly that
    transcript, whatever the network does then. *)
Theorem transcript_flows_to_analysis (env : option jsstring)
  (net : Network Json.t) (s : State.t) (file : Blob.t)
  (status : Z) (statusText text : jsstring) (data : Json.t) :
  fileToTranscribe s = Some file ->
  net 0%nat (transcribeRequest env file (fileName s))
  = Resolved (Response.mk true status statusText (inr data)) ->
  Json.transcript data = Some text -> text <> [] ->
  exists s1,
    run (transcribeAudio env) net s
    = (inr tt, s1, [transcribeRequest env file (fileName s)])
    /\ State.transcript s1 = text
    /\ State.currentStep s1 = complete
    /\ State.error s1 = []
    /\ forall net2 : Network Json.t,
         exists s2 members,
           run (analyzeWithAI env) net2 s1
           = (inr tt, s2,
              [ {| Request.url := apiUrl env ++ lit "/api/voice/process-meeting";
                   Request.method := lit "POST";
                   Request.headers :=
                     [(lit "Content-Type", lit "application/json")];
                   Request.body := JsonText members |} ])
           /\ member members (lit "transcript") = Some (VString text).
Proof.
  intros Hfile Hnet Htext Hne.
  pose proof (transcribeAudio_succeeded env net s file _ _ _ Hfile Hnet)
    as Hrun.
  rewrite Htext in Hrun. cbn [truthy orElse] in Hrun.
  pose proof Hne as Hne'. apply nonEmpty_true in Hne'. rewrite Hne' in Hrun.
  eexists. split; [exact Hrun |].
  split; [reflexivity |]. split; [reflexivity |]. split; [reflexivity |].
  intros net2.
  destruct (VoiceFacts.analyzeWithAI_run env net2
              (State.mk idle (State.audioBlob s) (State.uploadedFile s) text
                 complete [] (State.analysisResult s) (State.isAnalyzing s))
              Hne)
    as (s2 & Hrun2 & _).
  exists s2. eexists. split; [exact Hrun2 | reflexivity].
Qed.

Lemma transcript_flows_to_analysis_witness :
  exists s1,
    run (transcribeAudio None) hearing recordedState
    = (inr tt, s1,
       [transcribeRequest None
          (Blob.mk (lit "audio/webm") [26; 69; 223; 163])
          (lit "recording.webm")])
    /\ State.transcript s1 = lit "Ship it on Friday."
    /\ exists s2 members,
         run (analyzeWithAI None) unavailable s1
         = (inr tt, s2,
            [ {| Request.url :=
                   lit "http://localhost:8000/api/voice/process-meeting";
                 Request.method := lit "POST";
                 Request.headers :=
                   [(lit "Content-Type", lit "application/json")];
                 Request.body := JsonText members |} ])
         /\ member members (lit "transcript")
            = Some (VString (lit "Ship it on Friday.")).
Proof.
  destruct (transcript_flows_to_analysis None hearing recordedState
              (Blob.mk (lit "audio/webm") [26; 69; 223; 163])
              200 (lit "OK") (lit "Ship it on Friday.")
              (Json.mk None None (Some (lit "Ship it on Friday.")) (lit "{}"))
              eq_refl eq_refl eq_refl ltac:(discriminate))
    as (s1 & Hrun & Ht & _ & _ & Hnext).
  exists s1. split; [exact Hrun | split; [exact Ht |]].
  exact (Hnext unavailable).
Defined.

(** X4. When the transcription answers without a transcript, the page
    shows "No speech detected", holds an empty transcript, and keeps the
    step at "transcribing", so the panel of the steps stays on the page; the
    analysis that follows is refused without a request. *)
Theorem no_speech_detected (env : option jsstring) (net : Network Json.t)
  (s : State.t) (file : Blob.t)
  (status : Z) (statusText : jsstring) (data : Json.t) :
  fileToTranscribe s = Some file ->
  net 0%nat (transcribeRequest env file (fileName s))
  = Resolved (Response.mk true status statusText (inr data)) ->
  truthy (Json.transcript data) = false ->
  exists s1,
    run (transcribeAudio env) net s
    = (inr tt, s1, [transcribeRequest env file (fileName s)])
    /\ State.transcript s1 = []
    /\ State.error s1
       = lit "No speech detected in the audio. Please try again."
    /\ State.currentStep s1 = transcribing
    /\ State.recordingStatus s1 = idle
    /\ showsProgress s1 = true
    /\ forall net2 : Network Json.t,
         exists s2,
           run (analyzeWithAI env) net2 s1 = (inr tt, s2, [])
           /\ State.error s2 = lit "No transcript to analyze".
Proof.
  intros Hfile Hnet Hfalsy.
  pose proof (transcribeAudio_succeeded env net s file _ _ _ Hfile Hnet)
    as Hrun.
  rewrite Hfalsy in Hrun.
  eexists. split; [exact Hrun |].
  do 4 (split; [reflexivity |]).
  split; [unfold showsProgress; cbn; destruct (State.isAnalyzing s);
          reflexivity |].
  intros net2. unfold analyzeWithAI. step_voice.
  eexists. split; reflexivity.
Qed.

Lemma no_speech_detected_witness :
  exists s1,
    run (transcribeAudio None) silent recordedState
    = (inr tt, s1,
       [transcribeRequest None
          (Blob.mk (lit "audio/webm") [26; 69; 223; 163])
          (lit "recording.webm")])
    /\ State.currentStep s1 = transcribing
    /\ showsProgress s1 = true
    /\ exists s2,
         run (analyzeWithAI None) hearing s1 = (inr tt, s2, [])
         /\ State.error s2 = lit "No transcript to analyze".
Proof.
  destruct (no_speech_detected None silent recordedState
              (Blob.mk (lit "audio/webm") [26; 69; 223; 163])
              200 (lit "OK") (Json.mk None None None (lit "{}"))
              eq_refl eq_refl eq_refl)
    as (s1 & Hrun & _ & _ & Hstep & _ & Hshow & Hnext).
  exists s1.
  split; [exact Hrun | split; [exact Hstep | split; [exact Hshow |]]].
  exact (Hnext hearing).
Defined.

Lemma no_audio_rejected_witness :
  run (transcribeAudio None) hearing initialState
  = (inr tt,
     State.mk idle None None [] upload
       (lit "No audio to transcribe. Please record or upload an audio file.")
       None false,
     []).
Proof.
  exact (no_audio_rejected None hearing initialState eq_refl eq_refl).
Defined.

Lemma busy_flags_released_witness :
  (exists s',
     run (transcribeAudio None) unavailable recordedState
     = (inr tt, s',
        [transcribeRequest None
           (Blob.mk (lit "audio/webm") [26; 69; 223; 163])
           (lit "recording.webm")])
     /\ State.recordingStatus s' = idle)
  /\ (exists s',
        run (analyzeWithAI None) hearing transcribedState
        = (inr tt, s',
           [analyzeRequest None (lit "We ship the beta on Friday.")])
        /\ State.isAnalyzing s' = false).
Proof.
  split.
  - exact (proj1 (busy_flags_released None unavailable recordedState)
                 (Blob.mk (lit "audio/webm") [26; 69; 223; 163]) eq_refl).
  - exact (proj2 (busy_flags_released None hearing transcribedState)
                 ltac:(discriminate)).
Defined.

(** X5. [reset] sends nothing and leaves the page with no audio, no
    transcript, no error and no result, the step at "upload": the initial
    state, when no transcription is running. From there both handlers
    refuse to send. *)
Theorem reset_clears (env : option jsstring) (net : Network Json.t)
  (s : State.t) :
  let s1 := State.mk (State.recordingStatus s) None None [] upload [] None
              false in
  run reset net s = (inr tt, s1, [])
  /\ (State.recordingStatus s = idle -> s1 = initialState)
  /\ (forall net2 : Network Json.t,
        (exists s2, run (transcribeAudio env) net2 s1 = (inr tt, s2, []))
        /\ (exists s2, run (analyzeWithAI env) net2 s1 = (inr tt, s2, []))).
Proof.
  cbv zeta. split; [reflexivity |]. split.
  - intros ->. reflexivity.
  - intros net2. unfold transcribeAudio, analyzeWithAI. step_voice.
    split; eexists; reflexivity.
Qed.

Lemma reset_clears_witness :
  run reset hearing transcribedState = (inr tt, initialState, []).
Proof.
  pose proof (reset_clears None hearing transcribedState) as H.
  cbv zeta in H. destruct H as (Hrun & Hinit & _).
  rewrite <- (Hinit eq_refl). exact Hrun.
Defined.

(** X6. A chosen file that is not audio is refused: only [error] changes.
    An audio file is stored, with the error and the transcript emptied, and
    the transcription that follows sends that file, under its own name when
    it has one, also when a recording is waiting. *)
Theorem upload_then_transcribe (env : option jsstring)
  (net : Network Json.t) (s : State.t) (file : File.t) :
  (startsWith (Blob.type (File.blob file)) (lit "audio/") = false ->
   run (handleFileUpload (Some file)) net s
   = (inr tt,
      State.mk (State.recordingStatus s) (State.audioBlob s)
        (State.uploadedFile s) (State.transcript s) (State.currentStep s)
        (lit "Please upload an audio file (MP3, WAV, M4A, etc.)")
        (State.analysisResult s) (State.isAnalyzing s),
      []))
  /\ (startsWith (Blob.type (File.blob file)) (lit "audio/") = true ->
      let s1 := State.mk (State.recordingStatus s) (State.audioBlob s)
                  (Some file) [] (State.currentStep s) []
                  (State.analysisResult s) (State.isAnalyzing s) in
      run (handleFileUpload (Some file)) net s = (inr tt, s1, [])
      /\ forall net2 : Network Json.t,
           exists s2,
             run (transcribeAudio env) net2 s1
             = (inr tt, s2,
                [transcribeRequest env (File.blob file)
                   (orElse (Some (File.name file)) (lit "recording.webm"))])).
Proof.
  split; intros Htype.
  - unfold handleFileUpload. rewrite Htype. reflexivity.
  - cbv zeta. split.
    + unfold handleFileUpload. rewrite Htype. reflexivity.
    + intros net2.
      destruct (VoiceFacts.transcribeAudio_run env net2
                  (State.mk (State.recordingStatus s) (State.audioBlob s)
                     (Some file) [] (State.currentStep s) []
                     (State.analysisResult s) (State.isAnalyzing s))
                  (File.blob file) eq_refl)
        as (s2 & Hrun & _).
      exists s2. exact Hrun.
Qed.

Lemma upload_then_transcribe_witness :
  run (handleFileUpload (Some notesFile)) hearing recordedState
  = (inr tt,
     State.mk idle (Some (Blob.mk (lit "audio/webm") [26; 69; 223; 163]))
       None [] upload
       (lit "Please upload an audio file (MP3, WAV, M4A, etc.)") None false,
     [])
  /\ exists s1 s2,
       run (handleFileUpload (Some standupFile)) hearing recordedState
       = (inr tt, s1, [])
       /\ run (transcribeAudio None) hearing s1
          = (inr tt, s2,
             [transcribeRequest None (Blob.mk (lit "audio/mpeg") [73; 68; 51])
                (lit "standup.mp3")]).
Proof.
  split.
  - exact (proj1 (upload_then_transcribe None hearing recordedState notesFile)
                 eq_refl).
  - pose proof (proj2 (upload_then_transcribe None hearing recordedState
                         standupFile) eq_refl) as H.
    cbv zeta in H. destruct H as (Hup & Hnext).
    destruct (Hnext hearing) as (s2 & Hrun).
    eexists. exists s2. split; [exact Hup | exact Hrun].
Defined.

End VoiceFlows.

(** ** More of the tickets page *)

Module TicketFlows.

Import Http Tickets TicketFacts.

(** X7. [fetchTickets] sends one GET to /tickets/ and always ends with
    [loading] false, the form and the dialogs untouched. A response that is
    ok and readable replaces the tickets; every other outcome keeps them and
    shows one alert. *)
Theorem fetchTickets_settles (env : option jsstring)
  (net : Network Json.t) (s : State.t) :
  exists s',
    run (fetchTickets env) net s
    = (inr tt, s',
       [ {| Request.url := apiUrl env ++ lit "/tickets/";
            Request.method := lit "GET";
            Request.headers := [];
            Request.body := NoBody |} ])
    /\ State.loading s' = false
    /\ State.formData s' = State.formData s
    /\ State.editingTicket s' = State.editingTicket s
    /\ State.showCreateModal s' = State.showCreateModal s
    /\ State.showEditModal s' = State.showEditModal s
    /\ match net 0%nat (listRequest env) with
       | Resolved {| Response.ok := true; Response.json := inr data |} =>
           State.tickets s' = Json.tickets data
           /\ State.alerts s' = State.alerts s
       | _ =>
           State.tickets s' = State.tickets s
           /\ State.alerts s'
              = State.alerts s
                ++ [lit ("Failed to load tickets. "
                         ++ "Please check your backend connection.")]
       end.
Proof.
  change (Request.mk (apiUrl env ++ lit "/tickets/") (lit "GET") [] NoBody)
    with (listRequest env).
  destruct s. unfold fetchTickets. step_page.
  generalize (listRequest env) as request. intros request.
  destruct (net 0%nat request) as [err | [ok ? ? [err | data]]];
    [| destruct ok | destruct ok]; step_page;
    eexists; repeat split; reflexivity.
Qed.

Section WithEnv.

Variable NEXT_PUBLIC_API_URL : option jsstring.
Variable net : Network Json.t.

(** X8. When the POST of [createTicket] is rejected or answered by a
    response that is not ok, nothing else is sent and the page is as it
    was, the form included, but for one alert. When it is answered ok, the
    list is fetched next, the form is emptied and the dialog closed, and
    the last alert reports the success. *)
Theorem createTicket_outcomes (s : State.t) :
  let post := net 0%nat (createRequest NEXT_PUBLIC_API_URL (State.formData s)) in
  (accepted post = false ->
   run (createTicket NEXT_PUBLIC_API_URL) net s
   = (inr tt,
      State.mk (State.tickets s) (State.loading s) (State.showCreateModal s)
        (State.showEditModal s) (State.editingTicket s) (State.formData s)
        (State.alerts s ++ [lit "Failed to create ticket"]),
      [createRequest NEXT_PUBLIC_API_URL (State.formData s)]))
  /\ (accepted post = true ->
      exists s' shown,
        run (createTicket NEXT_PUBLIC_API_URL) net s
        = (inr tt, s',
           [createRequest NEXT_PUBLIC_API_URL (State.formData s);
            listRequest NEXT_PUBLIC_API_URL])
        /\ State.formData s' = emptyForm
        /\ State.showCreateModal s' = false
        /\ State.loading s' = false
        /\ State.alerts s' = shown ++ [lit "Ticket created successfully!"]).
Proof.
  destruct s as [tickets loading showCreate showEdit editing form alerts].
  cbv zeta. unfold createTicket, accepted. step_page.
  generalize (createRequest NEXT_PUBLIC_API_URL form) as request.
  generalize (listRequest NEXT_PUBLIC_API_URL) as list_request.
  intros list_request request.
  destruct (net 0%nat request) as [err | [ok ? ? [err | data]]];
    [| destruct ok | destruct ok]; step_page;
    (split; intros Hacc; [try discriminate Hacc; try reflexivity
                         | try discriminate Hacc]);
    case_outcome net; do 2 eexists; repeat split; reflexivity.
Qed.

(** X9. A [deleteTicket] that is not confirmed sends nothing and changes
    nothing. A confirmed one first sends a DELETE to the ticket; when that
    is rejected or not ok the list is not fetched and one alert is shown,
    else the list is fetched next and the last alert reports the success.
    The form is never touched. *)
Theorem deleteTicket_outcomes (s : State.t) (ticketId : Z) :
  let request :=
    {| Request.url :=
         apiUrl NEXT_PUBLIC_API_URL ++ lit "/tickets/" ++ decimal ticketId;
       Request.method := lit "DELETE";
       Request.headers := [];
       Request.body := NoBody |} in
  run (deleteTicket NEXT_PUBLIC_API_URL false ticketId) net s = (inr tt, s, [])
  /\ (accepted (net 0%nat request) = false ->
      run (deleteTicket NEXT_PUBLIC_API_URL true ticketId) net s
      = (inr tt,
         State.mk (State.tickets s) (State.loading s)
           (State.showCreateModal s) (State.showEditModal s)
           (State.editingTicket s) (State.formData s)
           (State.alerts s ++ [lit "Failed to delete ticket"]),
         [request]))
  /\ (accepted (net 0%nat request) = true ->
      exists s' shown,
        run (deleteTicket NEXT_PUBLIC_API_URL true ticketId) net s
        = (inr tt, s', [request; listRequest NEXT_PUBLIC_API_URL])
        /\ State.formData s' = State.formData s
        /\ State.loading s' = false
        /\ State.alerts s' = shown ++ [lit "Ticket deleted successfully!"]).
Proof.
  destruct s as [tickets loading showCreate showEdit editing form alerts].
  cbv zeta. split; [reflexivity |].
  change (Request.mk
            (apiUrl NEXT_PUBLIC_API_URL ++ lit "/tickets/" ++ decimal ticketId)
            (lit "DELETE") [] NoBody)
    with (deleteRequest NEXT_PUBLIC_API_URL ticketId).
  unfold deleteTicket, accepted. step_page.
  generalize (deleteRequest NEXT_PUBLIC_API_URL ticketId) as request.
  generalize (listRequest NEXT_PUBLIC_API_URL) as list_request.
  intros list_request request.
  destruct (net 0%nat request) as [err | [ok ? ? [err | data]]];
    [| destruct ok | destruct ok]; step_page;
    (split; intros Hacc; [try discriminate Hacc; try reflexivity
                         | try discriminate Hacc]);
    case_outcome net; do 2 eexists; repeat split; reflexivity.
Qed.

End WithEnv.

Lemma createTicket_outcomes_witness :
  run (createTicket None) offline creatingState
  = (inr tt,
     State.mk (Some []) false true false None paddedForm
       [lit "Failed to create ticket"],
     [createRequest None paddedForm])
  /\ exists s' shown,
       run (createTicket None) accepting creatingState
       = (inr tt, s', [createRequest None paddedForm; listRequest None])
       /\ State.formData s' = emptyForm
       /\ State.showCreateModal s' = false
       /\ State.alerts s' = shown ++ [lit "Ticket created successfully!"].
Proof.
  split.
  - exact (proj1 (createTicket_outcomes None offline creatingState) eq_refl).
  - destruct (proj2 (createTicket_outcomes None accepting creatingState)
                    eq_refl)
      as (s' & shown & Hrun & Hform & Hmodal & _ & Halerts).
    exists s', shown. repeat split; assumption.
Defined.

Lemma deleteTicket_outcomes_witness :
  run (deleteTicket None true 7) offline creatingState
  = (inr tt,
     State.mk (Some []) false true false None paddedForm
       [lit "Failed to delete ticket"],
     [ {| Request.url := lit "http://localhost:8000/tickets/7";
          Request.method := lit "DELETE";
          Request.headers := [];
          Request.body := NoBody |} ])
  /\ exists s' shown,
       run (deleteTicket None true 7) accepting creatingState
       = (inr tt, s', [deleteRequest None 7; listRequest None])
       /\ State.alerts s' = shown ++ [lit "Ticket deleted successfully!"].
Proof.
  destruct (deleteTicket_outcomes None offline creatingState 7)
    as (_ & Hfail & _).
  destruct (deleteTicket_outcomes None accepting creatingState 7)
    as (_ & _ & Hok).
  split; [exact (Hfail eq_refl) |].
  destruct (Hok eq_refl) as (s' & shown & Hrun & _ & _ & Halerts).
  exists s', shown. split; assumption.
Defined.

Lemma payload_status (form : TicketCreate.t) (status : Value) :
  member
    (stringify
       (withOptionalFields form
          [(lit "title", VString (trim (TicketCreate.title form)));
           (lit "status", status)]))
    (lit "status")
  = if isUndefined status then None else Some status.
Proof.
  unfold withOptionalFields.
  rewrite !setTrimmed_eq, !setIfSet_eq.
  destruct (trimmedMember (TicketCreate.summary form)) as [v1|] eqn:E1;
    [destruct (trimmedMember_string _ _ E1) as [t1 ->] |];
  (destruct (trimmedMember (TicketCreate.assignee form)) as [v2|] eqn:E2;
    [destruct (trimmedMember_string _ _ E2) as [t2 ->] |]);
  (destruct (setMember (TicketCreate.start_date form)) as [v3|] eqn:E3;
    [destruct (setMember_string _ _ E3) as [t3 ->] |]);
  (destruct (setMember (TicketCreate.end_date form)) as [v4|] eqn:E4;
    [destruct (setMember_string _ _ E4) as [t4 ->] |]);
  destruct status; reflexivity.
Qed.

Lemma trimmedMember_or_empty (v : option jsstring) :
  trimmedMember (Some match v with Some text => text | None => [] end)
  = trimmedMember v.
Proof. destruct v; reflexivity. Qed.

(** X10. Opening the edit dialog on a ticket and saving it as it is sends
    a PUT to that ticket whose members are the ticket's own values: its
    trimmed title, its status, its summary and assignee when their trimmed
    text is not empty, its dates when set. *)
Theorem edit_then_update (env : option jsstring) (net net2 : Network Json.t)
  (s : State.t) (ticket : Ticket.t) :
  exists s1,
    run (openEditModal ticket) net s = (inr tt, s1, [])
    /\ State.editingTicket s1 = Some ticket
    /\ State.showEditModal s1 = true
    /\ exists s2 members rest,
         run (updateTicket env) net2 s1
         = (inr tt, s2,
            {| Request.url :=
                 apiUrl env ++ lit "/tickets/" ++ decimal (Ticket.id ticket);
               Request.method := lit "PUT";
               Request.headers :=
                 [(lit "Content-Type", lit "application/json")];
               Request.body := JsonText members |} :: rest)
         /\ member members (lit "title")
            = Some (VString (trim (Ticket.title ticket)))
         /\ member members (lit "status")
            = Some (VString (statusString (Ticket.status ticket)))
         /\ member members (lit "summary")
            = trimmedMember (Ticket.summary ticket)
         /\ member members (lit "assignee")
            = trimmedMember (Ticket.assignee ticket)
         /\ member members (lit "start_date")
            = setMember (Ticket.start_date ticket)
         /\ member members (lit "end_date")
            = setMember (Ticket.end_date ticket).
Proof.
  destruct s as [tickets loading showCreate showEdit editing form alerts].
  eexists. split; [unfold openEditModal; step_page; reflexivity |].
  split; [reflexivity |]. split; [reflexivity |].
  match goal with
  | |- context [run (updateTicket env) net2 ?s1] =>
      destruct (updateTicket_run env net2 s1 ticket eq_refl)
        as (s2 & rest & Hrun);
      pose proof (payload_members (State.formData s1)
                    (VString (statusString (Ticket.status ticket)))) as Hn;
      pose proof (payload_status (State.formData s1)
                    (VString (statusString (Ticket.status ticket)))) as Hst
  end.
  cbn [State.formData] in *.
  exists s2. eexists. exists rest. split; [exact Hrun |].
  destruct Hn as (Htitle & Hsum & Hass & Hstart & Hend).
  cbn [TicketCreate.title TicketCreate.summary TicketCreate.assignee
       TicketCreate.start_date TicketCreate.end_date] in *.
  rewrite trimmedMember_or_empty in Hsum, Hass.
  split; [exact Htitle |]. split; [exact Hst |].
  split; [exact Hsum |]. split; [exact Hass |].
  split; [exact Hstart | exact Hend].
Qed.

Lemma trimStart_split (text : jsstring) :
  exists before,
    text = before ++ trimStart text
    /\ Forall (fun c => isWhiteSpace c = true) before
    /\ forall c, hd_error (trimStart text) = Some c -> isWhiteSpace c = false.
Proof.
  induction text as [|c text (before & Heq & Hws & Hhd)]; cbn [trimStart].
  - exists []. repeat split; [constructor | discriminate].
  - destruct (isWhiteSpace c) eqn:E.
    + exists (c :: before). cbn [app]. rewrite <- Heq.
      repeat split; [constructor; assumption | exact Hhd].
    + exists []. repeat split; [constructor |].
      intros c' [= <-]. exact E.
Qed.

Lemma hd_error_app {A} (l l' : list A) (x : A) :
  hd_error l = Some x -> hd_error (l ++ l') = Some x.
Proof. destruct l; [discriminate | auto]. Qed.

Lemma trim_stripped (text : jsstring) : stripped text (trim text).
Proof.
  unfold trim.
  destruct (trimStart_split text) as (before & Heq & Hbefore & Hhd).
  destruct (trimStart_split (rev (trimStart text)))
    as (after & Heq' & Hafter & Hhd').
  set (inner := trimStart (rev (trimStart text))) in *.
  assert (Hmid : trimStart text = rev inner ++ rev after).
  { rewrite <- rev_app_distr, <- Heq', rev_involutive. reflexivity. }
  split; [| split].
  - exists before, (rev after). split; [| split].
    + rewrite <- Hmid. exact Heq.
    + exact Hbefore.
    + apply Forall_rev. exact Hafter.
  - intros c Hc. apply Hhd. rewrite Hmid. apply hd_error_app, Hc.
  - rewrite rev_involutive. exact Hhd'.
Qed.

(** X11. The title that [createTicket] and [updateTicket] send is the title
    of the form with the white space at both ends taken away: what is cut
    off before and after is white space only, and what is sent neither
    starts nor ends with white space. *)
Theorem title_sent_stripped (form : TicketCreate.t) :
  exists sent,
    member (stringify (createPayload form)) (lit "title") = Some (VString sent)
    /\ member (stringify (updatePayload form)) (lit "title")
       = Some (VString sent)
    /\ stripped (TicketCreate.title form) sent.
Proof.
  exists (trim (TicketCreate.title form)).
  split; [apply payload_members | split; [apply payload_members |]].
  apply trim_stripped.
Qed.

Example trim_padded :
  trim (lit "  Fix login	 ") = lit "Fix login"
  /\ trim (lit "   ") = [] /\ trim [] = [].
Proof. repeat split; reflexivity. Qed.

Section TicketListFacts.

Variable toLowerCase : jsstring -> jsstring.

Lemma statusEqb_eq (a b : TicketStatus) : statusEqb a b = true <-> a = b.
Proof. destruct a, b; cbn; split; congruence. Qed.

Lemma startsWith_nil (text : jsstring) : startsWith text [] = true.
Proof. destruct text; reflexivity. Qed.

Lemma includes_nil (text : jsstring) : includes text [] = true.
Proof. destruct text; reflexivity. Qed.

Lemma startsWith_prefix (text q : jsstring) :
  startsWith text q = true <-> exists after, text = q ++ after.
Proof.
  revert text; induction q as [|c q IH]; intros text; cbn [startsWith].
  - split; [intros _; exists text; reflexivity |].
    intros _. apply startsWith_nil.
  - destruct text as [|d text]; cbn [startsWith].
    + split; [discriminate | intros (after & H); discriminate].
    + rewrite andb_true_iff, Z.eqb_eq, IH. split.
      * intros (-> & after & ->). exists after. reflexivity.
      * intros (after & H). cbn [app] in H. injection H as -> ->. eauto.
Qed.

Lemma includes_occurs (text q : jsstring) :
  includes text q = true <-> occursIn q text.
Proof.
  unfold occursIn. induction text as [|c text IH]; cbn [includes].
  - rewrite orb_false_r, startsWith_prefix. split.
    + intros (after & H). exists [], after. exact H.
    + intros ([|b before] & after & H); [eauto | discriminate].
  - rewrite orb_true_iff, startsWith_prefix, IH. split.
    + intros [(after & H) | (before & after & H)].
      * exists [], after. exact H.
      * exists (c :: before), after. cbn [app]. rewrite H. reflexivity.
    + intros ([|b before] & after & H).
      * left. exists after. exact H.
      * right. cbn [app] in H. injection H as -> ->. eauto.
Qed.

(** X12. The search of the tickets page is exact: a ticket is listed if
    and only if it is in the list, the lower-cased query occurs in its
    lower-cased title or summary, and it has the status asked for. With the
    filter "all" and an empty query, on a [toLowerCase] that keeps the empty
    string, every ticket is listed. *)
Theorem ticket_search_exact (tickets : list Ticket.t)
  (searchQuery : jsstring) (selected : StatusFilter) :
  (forall t,
     In t (filteredTickets toLowerCase tickets searchQuery selected)
     <-> In t tickets
         /\ (occursIn (toLowerCase searchQuery) (toLowerCase (Ticket.title t))
             \/ exists summary,
                  Ticket.summary t = Some summary
                  /\ occursIn (toLowerCase searchQuery) (toLowerCase summary))
         /\ match selected with
            | all => True
            | only st => Ticket.status t = st
            end)
  /\ (toLowerCase [] = [] ->
      filteredTickets toLowerCase tickets [] all = tickets).
Proof.
  split.
  - intros t. unfold filteredTickets. rewrite filter_In. cbv zeta.
    rewrite andb_true_iff, orb_true_iff, includes_occurs.
    assert (Hsum : match Ticket.summary t with
                   | Some summary =>
                       includes (toLowerCase summary) (toLowerCase searchQuery)
                   | None => false
                   end = true
                   <-> exists summary,
                         Ticket.summary t = Some summary
                         /\ occursIn (toLowerCase searchQuery)
                                     (toLowerCase summary)).
    { destruct (Ticket.summary t) as [summary|].
      - rewrite includes_occurs. split; [eauto |].
        intros (x & [= <-] & H). exact H.
      - split; [discriminate | intros (x & H & _); discriminate]. }
    rewrite Hsum.
    assert (Hst : match selected with
                  | all => true
                  | only st => statusEqb (Ticket.status t) st
                  end = true
                  <-> match selected with
                      | all => True
                      | only st => Ticket.status t = st
                      end).
    { destruct selected; [tauto | apply statusEqb_eq]. }
    rewrite Hst. tauto.
  - intros Hempty. unfold filteredTickets. rewrite Hempty.
    induction tickets as [|t rest IH]; cbn [filter]; [reflexivity |].
    rewrite includes_nil. cbn [orb andb]. f_equal. exact IH.
Qed.

End TicketListFacts.

Lemma ticket_search_exact_witness :
  In storedTicket
     (filteredTickets asciiLower [editedTicket; storedTicket] (lit "LAUNCH")
        (only in_progress))
  /\ filteredTickets asciiLower [editedTicket; storedTicket] [] all
     = [editedTicket; storedTicket].
Proof.
  destruct (ticket_search_exact asciiLower [editedTicket; storedTicket]
              (lit "LAUNCH") (only in_progress)) as [Hiff _].
  destruct (ticket_search_exact asciiLower [editedTicket; storedTicket]
              [] all) as [_ Hall].
  split; [| exact (Hall eq_refl)].
  apply Hiff. split; [right; left; reflexivity |].
  split; [| reflexivity].
  left. exists (lit " plan the "), (lit " "). reflexivity.
Defined.

End TicketFlows.

(** ** More of the calendar page *)

Section ProjectionMore.

Variable toLowerCase : jsstring -> jsstring.

Lemma addStart_origin (t : Ticket.t) (h : Q) (c : EventColor.t)
  (m m1 : EventMap) :
  dated m -> addStart t h c m = Some m1 ->
  forall e, In e (flatten m1) ->
            In e (flatten m) \/ exists d, e = mkEvent "start-" t d h c.
Proof.
  intros Hm Hrun e He.
  destruct (addStart_spec t h c m Hm) as (m1' & Hrun' & _ & Hcase).
  rewrite Hrun in Hrun'. injection Hrun' as <-.
  destruct Hcase as [[_ ->] | (s & b & _ & _ & Hperm & _)]; [auto |].
  apply (Permutation_in _ Hperm), in_app_iff in He.
  destruct He as [He | [<- | []]]; eauto.
Qed.

Lemma addEnd_origin (t : Ticket.t) (h : Q) (c : EventColor.t)
  (m m1 : EventMap) :
  dated m -> addEnd t h c m = Some m1 ->
  forall e, In e (flatten m1) ->
            In e (flatten m) \/ exists d, e = mkEvent "end-" t d h c.
Proof.
  intros Hm Hrun e He.
  destruct (addEnd_spec t h c m Hm) as (m1' & Hrun' & _ & Hcase).
  rewrite Hrun in Hrun'. injection Hrun' as <-.
  destruct Hcase as [[-> _] | (x & b & _ & _ & _ & Hcase)]; [auto |].
  destruct Hcase as [[_ Hflat] | [_ Hperm]].
  - rewrite Hflat in He. auto.
  - apply (Permutation_in _ Hperm), in_app_iff in He.
    destruct He as [He | [<- | []]]; eauto.
Qed.

(** Where an event of the map comes from after one call of the callback. *)
Lemma processTicket_origin (m m' : EventMap) (t : Ticket.t) :
  dated m -> processTicket toLowerCase m t = Some m' ->
  dated m'
  /\ forall e, In e (flatten m') ->
       In e (flatten m)
       \/ exists prefix d c,
            getEventColor toLowerCase t = Some c
            /\ e = mkEvent prefix t d (hoursOf t) c.
Proof.
  intros Hm Hrun.
  destruct (processTicket_spec toLowerCase m t Hm)
    as (m'' & _ & Hrun' & Hm' & _).
  rewrite Hrun in Hrun'. injection Hrun' as <-.
  split; [exact Hm' |].
  unfold processTicket in Hrun.
  destruct (negb (truthy (Ticket.start_date t))
            && negb (truthy (Ticket.end_date t))).
  { injection Hrun as <-. auto. }
  destruct (getEventColor toLowerCase t) as [c|]; [| discriminate].
  cbv zeta in Hrun.
  destruct (addStart t (hoursOf t) c m) as [m1|] eqn:Hstart; [| discriminate].
  destruct (addStart_spec t (hoursOf t) c m Hm) as (m1' & Hs & Hm1 & _).
  rewrite Hstart in Hs. injection Hs as <-.
  intros e He.
  destruct (addEnd_origin t _ c m1 m' Hm1 Hrun e He) as [He1 | (d & ->)];
    [| right; eauto].
  destruct (addStart_origin t _ c m m1 Hm Hstart e He1) as [He0 | (d & ->)];
    [left; exact He0 | right; eauto].
Qed.

Lemma forEach_origin (tickets : list Ticket.t) (m m' : EventMap) :
  dated m -> forEach toLowerCase tickets m = Some m' ->
  forall e, In e (flatten m') ->
    In e (flatten m)
    \/ exists t prefix d c,
         In t tickets
         /\ getEventColor toLowerCase t = Some c
         /\ e = mkEvent prefix t d (hoursOf t) c.
Proof.
  revert m; induction tickets as [|t0 rest IH]; intros m Hm Hrun e He;
    cbn [forEach] in Hrun.
  - injection Hrun as <-. auto.
  - destruct (processTicket toLowerCase m t0) as [m1|] eqn:Hstep;
      [| discriminate].
    destruct (processTicket_origin m m1 t0 Hm Hstep) as [Hm1 Horigin].
    destruct (IH m1 Hm1 Hrun e He) as [He1 | (t & p & d & c & Ht & Hc & ->)].
    + destruct (Horigin e He1) as [He0 | (p & d & c & Hc & ->)];
        [left; exact He0 |].
      right. exists t0, p, d, c. split; [left; reflexivity | auto].
    + right. exists t, p, d, c. split; [right; exact Ht | auto].
Qed.

Lemma events_origin (tickets : list Ticket.t) (evs : list CalendarEvent.t) :
  events toLowerCase tickets = Some evs ->
  forall e, In e evs ->
    exists t prefix d c,
      In t tickets
      /\ getEventColor toLowerCase t = Some c
      /\ e = mkEvent prefix t d (hoursOf t) c.
Proof.
  unfold events. intros Hev e He.
  destruct (forEach toLowerCase tickets []) as [m'|] eqn:Hloop;
    [| discriminate].
  injection Hev as <-.
  destruct (forEach_origin tickets [] m' dated_nil Hloop e He) as [[] | H].
  exact H.
Qed.


Lemma unique_by_key {A B} (key : A -> B) (l : list A) (x y : A) :
  NoDup (map key l) -> In x l -> In y l -> key x = key y -> x = y.
Proof.
  induction l as [|a l IH]; cbn [map]; intros Hnd Hx Hy Hk; [destruct Hx |].
  inversion Hnd as [| ? ? Hfresh Hrest]; subst.
  destruct Hx as [-> | Hx], Hy as [-> | Hy]; auto.
  - exfalso. apply Hfresh. rewrite Hk. apply in_map, Hy.
  - exfalso. apply Hfresh. rewrite <- Hk. apply in_map, Hx.
Qed.


End ProjectionMore.


Section ProjectionCounts.

Variable toLowerCase : jsstring -> jsstring.

(** The events after the loop are the events before it and, ticket by
    ticket, what each call added. *)
Lemma forEach_parts (tickets : list Ticket.t) (m : EventMap) :
  dated m ->
  exists m' addeds,
    forEach toLowerCase tickets m = Some m'
    /\ Forall2 produced tickets addeds
    /\ Permutation (flatten m') (flatten m ++ List.concat addeds).
Proof.
  revert m; induction tickets as [|t rest IH]; intros m Hm; cbn [forEach].
  - exists m, []. repeat split; [constructor |].
    cbn [List.concat]. rewrite app_nil_r. reflexivity.
  - destruct (processTicket_spec toLowerCase m t Hm)
      as (m1 & added & Hstep & Hm1 & Hperm & Hprod & _).
    rewrite Hstep.
    destruct (IH m1 Hm1) as (m' & addeds & Hloop & Hall & Hperm').
    exists m', (added :: addeds).
    split; [exact Hloop | split; [constructor; assumption |]].
    cbn [List.concat]. rewrite Hperm', Hperm, <- app_assoc. reflexivity.
Qed.

Lemma nodup_by_image {A B C} (f : A -> B) (g : A -> C) (l : list A) :
  (forall x y, In x l -> In y l -> f x = f y -> g x = g y) ->
  NoDup (map g l) -> NoDup (map f l).
Proof.
  induction l as [|a l IH]; cbn [map]; intros Hfg Hnd; [constructor |].
  inversion Hnd as [| ? ? Hfresh Hrest]; subst.
  constructor.
  - intros Hin. apply in_map_iff in Hin. destruct Hin as (x & Hx & Hxl).
    apply Hfresh. rewrite <- (Hfg x a) by (cbn; auto).
    apply in_map, Hxl.
  - apply IH; [| exact Hrest]. intros x y Hx Hy. apply Hfg; cbn; auto.
Qed.

Lemma start_not_end (a b : jsstring) : lit "start-" ++ a <> lit "end-" ++ b.
Proof. discriminate. Qed.

(** Two events of one ticket with the same id are on the same date. *)
Lemma eventOf_same_id (t : Ticket.t) (e1 e2 : CalendarEvent.t) :
  eventOf t e1 -> eventOf t e2 ->
  CalendarEvent.id e1 = CalendarEvent.id e2 ->
  CalendarEvent.date e1 = CalendarEvent.date e2.
Proof.
  intros [_ [(s1 & Hs1 & _ & Hd1 & Hi1) | (x1 & Hx1 & _ & Hd1 & Hi1)]]
         [_ [(s2 & Hs2 & _ & Hd2 & Hi2) | (x2 & Hx2 & _ & Hd2 & Hi2)]] Hid;
    rewrite Hi1, Hi2 in Hid.
  - congruence.
  - destruct (start_not_end _ _ Hid).
  - symmetry in Hid. destruct (start_not_end _ _ Hid).
  - congruence.
Qed.

(** Events of tickets with different ids have different ids. *)
Lemma eventOf_other_id (t1 t2 : Ticket.t) (e1 e2 : CalendarEvent.t) :
  eventOf t1 e1 -> eventOf t2 e2 ->
  CalendarEvent.id e1 = CalendarEvent.id e2 -> Ticket.id t1 = Ticket.id t2.
Proof.
  intros [_ [(s1 & _ & _ & _ & Hi1) | (x1 & _ & _ & _ & Hi1)]]
         [_ [(s2 & _ & _ & _ & Hi2) | (x2 & _ & _ & _ & Hi2)]] Hid;
    rewrite Hi1, Hi2 in Hid.
  - exact (app_inv_head _ _ _ Hid).
  - destruct (start_not_end _ _ Hid).
  - symmetry in Hid. destruct (start_not_end _ _ Hid).
  - exact (app_inv_head _ _ _ Hid).
Qed.

Lemma parts_ids_unique (tickets : list Ticket.t)
  (addeds : list (list CalendarEvent.t)) :
  Forall2 produced tickets addeds ->
  NoDup (map Ticket.id tickets) ->
  NoDup (map CalendarEvent.id (List.concat addeds))
  /\ forall e, In e (List.concat addeds) ->
               exists t, In t tickets /\ eventOf t e.
Proof.
  induction 1 as [|t added tickets addeds Hprod _ IH]; cbn [map List.concat].
  - intros _. split; [constructor | intros e []].
  - intros Hnd. inversion Hnd as [| ? ? Hfresh Hrest]; subst.
    destruct (IH Hrest) as [IHnd IHof].
    destruct Hprod as (Hall & _ & Hdates & _).
    rewrite Forall_forall in Hall.
    split.
    + rewrite map_app. apply NoDup_app.
      * apply (nodup_by_image _ CalendarEvent.date); [| exact Hdates].
        intros x y Hx Hy. apply (eventOf_same_id t); auto.
      * exact IHnd.
      * intros i Hi Hi'.
        apply in_map_iff in Hi. destruct Hi as (e1 & <- & He1).
        apply in_map_iff in Hi'. destruct Hi' as (e2 & Heq & He2).
        destruct (IHof e2 He2) as (t2 & Ht2 & Hof2).
        apply Hfresh.
        rewrite (eventOf_other_id t t2 e1 e2 (Hall e1 He1) Hof2 (eq_sym Heq)).
        apply in_map, Ht2.
    + intros e He. apply in_app_iff in He. destruct He as [He | He].
      * exists t. split; [left; reflexivity | apply Hall, He].
      * destruct (IHof e He) as (t' & Ht' & Hof). exists t'. cbn. auto.
Qed.

Lemma parts_length (tickets : list Ticket.t)
  (addeds : list (list CalendarEvent.t)) :
  Forall2 produced tickets addeds ->
  (List.length (List.concat addeds) <= 2 * List.length tickets)%nat.
Proof.
  induction 1 as [|t added tickets addeds (_ & Hlen & _) _ IH];
    cbn [List.concat List.length]; [lia |].
  rewrite length_app. lia.
Qed.

(** X14. When no two tickets share an id, no two events of the projection
    share an id: the ids "start-<ticket id>" and "end-<ticket id>", which
    the cells use as keys, are unique. *)
Theorem event_ids_unique (tickets : list Ticket.t)
  (evs : list CalendarEvent.t) :
  NoDup (map Ticket.id tickets) ->
  events toLowerCase tickets = Some evs ->
  NoDup (map CalendarEvent.id evs).
Proof.
  intros Hnd Hev. unfold events in Hev.
  destruct (forEach_parts tickets [] dated_nil)
    as (m' & addeds & Hloop & Hparts & Hperm).
  rewrite Hloop in Hev. injection Hev as <-.
  cbn [flatten map List.concat app] in Hperm.
  eapply Permutation_NoDup;
    [apply Permutation_map, Permutation_sym, Hperm |].
  apply (parts_ids_unique tickets addeds Hparts Hnd).
Qed.

(** X15. The projection makes at most two events per ticket of the list,
    and none at all exactly when no ticket of the list has a date. *)
Theorem events_count (tickets : list Ticket.t)
  (evs : list CalendarEvent.t) :
  events toLowerCase tickets = Some evs ->
  (List.length evs <= 2 * List.length tickets)%nat
  /\ (evs = []
      <-> forall t, In t tickets ->
                    truthy (Ticket.start_date t) = false
                    /\ truthy (Ticket.end_date t) = false).
Proof.
  intros Hev. unfold events in Hev.
  destruct (forEach_parts tickets [] dated_nil)
    as (m' & addeds & Hloop & Hparts & Hperm).
  destruct (forEach_spec toLowerCase tickets [] dated_nil)
    as (m'' & Hloop' & _ & _ & Hnew & Hcov).
  rewrite Hloop in Hloop'. injection Hloop' as <-.
  rewrite Hloop in Hev. injection Hev as <-.
  cbn [flatten map List.concat app] in Hperm.
  split.
  - rewrite (Permutation_length Hperm). apply parts_length, Hparts.
  - split.
    + intros Hnil t Ht.
      assert (Hnone : forall d, ~ onDate t d).
      { intros d Hd. destruct (Hcov t Ht d Hd) as (e & He & _).
        rewrite Hnil in He. destruct He. }
      split.
      * destruct (truthy (Ticket.start_date t)) eqn:E; [| reflexivity].
        apply truthy_true in E. destruct E as (s & Hs & Hne).
        destruct (Hnone (datePart s)). left. eauto.
      * destruct (truthy (Ticket.end_date t)) eqn:E; [| reflexivity].
        apply truthy_true in E. destruct E as (x & Hx & Hne).
        destruct (Hnone (datePart x)). right. eauto.
    + intros Hdateless.
      destruct (flatten m') as [|e rest] eqn:E; [reflexivity |].
      destruct (Hnew e (or_introl eq_refl)) as [[] | (t & Ht & _ & Hof)].
      destruct (Hdateless t Ht) as [Hs Hx].
      destruct Hof as [(s & Hs' & Hne & _) | (x & Hx' & Hne & _)].
      * assert (truthy (Ticket.start_date t) = true)
          by (apply truthy_true; eauto).
        congruence.
      * assert (truthy (Ticket.end_date t) = true)
          by (apply truthy_true; eauto).
        congruence.
Qed.

Lemma shortTitle_length (title : jsstring) :
  (List.length (shortTitle title) <= 20)%nat.
Proof.
  unfold shortTitle.
  destruct (Z.ltb_spec 20 (Z.of_nat (List.length title))); [| lia].
  unfold substring0. rewrite length_app, length_firstn.
  change (List.length (lit "...")) with 3%nat. lia.
Qed.

Lemma hoursOf_nonzero (t : Ticket.t) : ~ (hoursOf t == 0)%Q.
Proof.
  unfold hoursOf. destruct (Ticket.estimated_hours t) as [h|].
  - destruct (Qeq_bool h 0) eqn:E; [discriminate |].
    intros H. apply Qeq_bool_iff in H. congruence.
  - discriminate.
Qed.

(** X16. Every event of the projection has a title of at most 20 code
    units: the title of its ticket when that has at most 20, else the first
    17 of it followed by "...". Its hours are never zero: they are the
    estimate of the ticket when that is not zero, and 8 when the ticket has
    no estimate or a zero one. *)
Theorem event_display_bounds (tickets : list Ticket.t)
  (evs : list CalendarEvent.t) (e : CalendarEvent.t) :
  events toLowerCase tickets = Some evs -> In e evs ->
  (List.length (CalendarEvent.title e) <= 20)%nat
  /\ ~ (CalendarEvent.hours e == 0)%Q
  /\ exists t,
       In t tickets
       /\ CalendarEvent.ticketId e = Ticket.id t
       /\ (((List.length (Ticket.title t) <= 20)%nat
            /\ CalendarEvent.title e = Ticket.title t)
           \/ ((20 < List.length (Ticket.title t))%nat
               /\ CalendarEvent.title e
                  = firstn 17 (Ticket.title t) ++ lit "..."))
       /\ (forall h,
             Ticket.estimated_hours t = Some h -> ~ (h == 0)%Q ->
             CalendarEvent.hours e = h)
       /\ (forall h,
             Ticket.estimated_hours t = Some h -> (h == 0)%Q ->
             CalendarEvent.hours e = 8%Q)
       /\ (Ticket.estimated_hours t = None -> CalendarEvent.hours e = 8%Q).
Proof.
  intros Hev He.
  destruct (events_origin toLowerCase tickets evs Hev e He)
    as (t & p & d & c & Ht & _ & ->).
  cbn [mkEvent CalendarEvent.title CalendarEvent.hours CalendarEvent.ticketId].
  split; [apply shortTitle_length |]. split; [apply hoursOf_nonzero |].
  exists t. split; [exact Ht |]. split; [reflexivity |]. split.
  - unfold shortTitle, substring0.
    destruct (Z.ltb_spec 20 (Z.of_nat (List.length (Ticket.title t))));
      [right | left]; split; try reflexivity; lia.
  - unfold hoursOf. split; [| split].
    + intros h -> Hh. destruct (Qeq_bool h 0) eqn:E; [| reflexivity].
      apply Qeq_bool_iff in E. contradiction.
    + intros h -> Hh. apply Qeq_bool_iff in Hh. rewrite Hh. reflexivity.
    + intros ->. reflexivity.
Qed.

End ProjectionCounts.

Section SidebarFacts.

Variable toLowerCase : jsstring -> jsstring.

Lemma matchesPlanned_yes (t : Ticket.t) :
  matchesPlanned (lit "yes") t
  = truthy (Ticket.start_date t) || truthy (Ticket.end_date t).
Proof.
  unfold matchesPlanned.
  destruct (truthy (Ticket.start_date t)), (truthy (Ticket.end_date t));
    reflexivity.
Qed.

Lemma matchesPlanned_no (t : Ticket.t) :
  matchesPlanned (lit "no") t
  = negb (truthy (Ticket.start_date t) || truthy (Ticket.end_date t)).
Proof.
  unfold matchesPlanned.
  destruct (truthy (Ticket.start_date t)), (truthy (Ticket.end_date t));
    reflexivity.
Qed.

Lemma planned_only (issues : list Issue.t) (planned : jsstring) (i : Issue.t) :
  In i (filteredIssues toLowerCase issues (Filters.mk [] [] [] [] planned))
  <-> In i issues /\ matchesPlanned planned (Issue.ticket i) = true.
Proof.
  unfold filteredIssues. rewrite filter_In. reflexivity.
Qed.

Lemma no_filters_identity (issues : list Issue.t) :
  filteredIssues toLowerCase issues noFilters = issues.
Proof.
  unfold filteredIssues, noFilters.
  induction issues as [|i rest IH]; cbn [filter]; [reflexivity |].
  cbn. f_equal. exact IH.
Qed.

(** X17. Without filters the sidebar lists every ticket. The filter
    "Planned" lists exactly the tickets with a date that is set, each of
    which has an event on the calendar; the filter "Not planned" lists
    exactly the others, none of which has an event when no two tickets
    share an id. *)
Theorem planned_filter_matches_calendar (issues : list Issue.t)
  (evs : list CalendarEvent.t) :
  events toLowerCase (map Issue.ticket issues) = Some evs ->
  filteredIssues toLowerCase issues noFilters = issues
  /\ (forall i,
        In i (filteredIssues toLowerCase issues plannedOnly)
        <-> In i issues /\ ~ In i (filteredIssues toLowerCase issues
                                     unplannedOnly))
  /\ (forall i,
        In i (filteredIssues toLowerCase issues plannedOnly) ->
        exists e, In e evs
                  /\ CalendarEvent.ticketId e = Ticket.id (Issue.ticket i))
  /\ (NoDup (map Ticket.id (map Issue.ticket issues)) ->
      forall i e,
        In i (filteredIssues toLowerCase issues unplannedOnly) ->
        In e evs ->
        CalendarEvent.ticketId e <> Ticket.id (Issue.ticket i)).
Proof.
  intros Hev. unfold events in Hev.
  destruct (forEach_spec toLowerCase (map Issue.ticket issues) [] dated_nil)
    as (m' & Hloop & _ & _ & Hnew & Hcov).
  rewrite Hloop in Hev. injection Hev as <-.
  unfold plannedOnly, unplannedOnly.
  split; [apply no_filters_identity |]. split; [| split].
  - intros i. rewrite !planned_only, matchesPlanned_yes, matchesPlanned_no.
    destruct (truthy (Ticket.start_date (Issue.ticket i))
              || truthy (Ticket.end_date (Issue.ticket i)));
      cbn [negb]; intuition congruence.
  - intros i Hi. apply planned_only in Hi. destruct Hi as [Hin Hplanned].
    rewrite matchesPlanned_yes in Hplanned.
    assert (Hdate : exists d, onDate (Issue.ticket i) d).
    { apply orb_true_iff in Hplanned.
      destruct Hplanned as [H | H]; apply truthy_true in H;
        destruct H as (x & Hx & Hne);
        exists (datePart x); [left | right]; eauto. }
    destruct Hdate as (d & Hd).
    destruct (Hcov (Issue.ticket i) (in_map _ _ _ Hin) d Hd)
      as (e & He & Hid & _).
    eauto.
  - intros Hnd i e Hi He Hid. apply planned_only in Hi.
    destruct Hi as [Hin Hunplanned].
    rewrite matchesPlanned_no in Hunplanned.
    apply negb_true_iff, orb_false_iff in Hunplanned.
    destruct Hunplanned as [Hs Hx].
    destruct (Hnew e He) as [[] | (t & Ht & Hof)].
    assert (t = Issue.ticket i).
    { eapply unique_by_key; eauto; [apply in_map, Hin |].
      destruct Hof as [Hof _]. congruence. }
    subst t. destruct Hof as [_ [(s & Hs' & Hne & _) | (x & Hx' & Hne & _)]].
    + assert (truthy (Ticket.start_date (Issue.ticket i)) = true)
        by (apply truthy_true; eauto).
      congruence.
    + assert (truthy (Ticket.end_date (Issue.ticket i)) = true)
        by (apply truthy_true; eauto).
      congruence.
Qed.

End SidebarFacts.

Lemma sampleIssues_ids :
  NoDup (map Ticket.id (map Issue.ticket sampleIssues)).
Proof. exact sampleTickets_ids. Qed.

Lemma planned_filter_matches_calendar_witness :
  exists evs,
    events asciiLower sampleTickets = Some evs
    /\ filteredIssues asciiLower sampleIssues noFilters = sampleIssues
    /\ (exists e, In e evs /\ CalendarEvent.ticketId e = lit "4")
    /\ forall e, In e evs -> CalendarEvent.ticketId e <> lit "3".
Proof.
  destruct (events asciiLower sampleTickets) as [evs|] eqn:Hev;
    [| discriminate].
  destruct (planned_filter_matches_calendar asciiLower sampleIssues evs Hev)
    as (Hall & _ & Hyes & Hno).
  exists evs. split; [reflexivity | split; [exact Hall | split]].
  - apply (Hyes (Issue.mk endOnlyTicket None None)).
    apply planned_only. split; [| reflexivity].
    right. right. right. left. reflexivity.
  - intros e He.
    apply (Hno sampleIssues_ids (Issue.mk datelessTicket None None) e);
      [| exact He].
    apply planned_only. split; [| reflexivity].
    right. right. left. reflexivity.
Defined.

Lemma event_ids_unique_witness :
  exists evs,
    events asciiLower sampleTickets = Some evs
    /\ NoDup (map CalendarEvent.id evs).
Proof.
  destruct (events asciiLower sampleTickets) as [evs|] eqn:Hev;
    [| discriminate].
  exists evs. split; [reflexivity |].
  exact (event_ids_unique asciiLower sampleTickets evs sampleTickets_ids Hev).
Defined.

Lemma events_count_witness :
  exists evs,
    events asciiLower sampleTickets = Some evs
    /\ (List.length evs <= 8)%nat
    /\ events asciiLower [datelessTicket] = Some [].
Proof.
  destruct (events asciiLower sampleTickets) as [evs|] eqn:Hev;
    [| discriminate].
  exists evs. split; [reflexivity |].
  split; [exact (proj1 (events_count asciiLower sampleTickets evs Hev)) |].
  destruct (events asciiLower [datelessTicket]) as [none|] eqn:Hnone;
    [| discriminate].
  f_equal.
  apply (proj2 (events_count asciiLower [datelessTicket] none Hnone)).
  intros t [<- | []]. split; reflexivity.
Defined.

Lemma event_display_bounds_witness :
  exists evs e,
    events asciiLower [plannedTicket] = Some evs
    /\ nth_error evs 0 = Some e
    /\ CalendarEvent.title e = lit "Planned for the s..."
    /\ CalendarEvent.hours e = 3%Q.
Proof.
  destruct (events asciiLower [plannedTicket]) as [evs|] eqn:Hev;
    [| vm_compute in Hev; discriminate Hev].
  destruct (nth_error evs 0) as [e|] eqn:He.
  2: { vm_compute in Hev. injection Hev as <-. discriminate He. }
  exists evs, e. split; [reflexivity | split; [exact He |]].
  destruct (event_display_bounds asciiLower [plannedTicket] evs e Hev
              (nth_error_In _ _ He))
    as (_ & _ & t & Ht & _ & Htitle & Hhours & _).
  destruct Ht as [<- | []].
  split.
  - destruct Htitle as [[Hshort _] | [_ ->]]; [| reflexivity].
    vm_compute in Hshort. lia.
  - apply (Hhours 3%Q); [reflexivity | discriminate].
Defined.

(** ** The calendar behind [Date] *)

Ltac div_lia := Z.to_euclidean_division_equations; lia.

Lemma isLeap_true (y : Z) :
  isLeap y = true
  <-> y mod 4 = 0 /\ (y mod 100 <> 0 \/ y mod 400 = 0).
Proof.
  unfold isLeap.
  destruct (Z.eqb_spec (y mod 4) 0), (Z.eqb_spec (y mod 100) 0),
           (Z.eqb_spec (y mod 400) 0);
    cbn; split; try tauto; try discriminate; div_lia.
Qed.

Lemma monthLength_range (y m : Z) : 28 <= monthLength y m <= 31.
Proof.
  unfold monthLength.
  destruct (m =? 2); [destruct (isLeap y); lia |].
  destruct ((m =? 4) || (m =? 6) || (m =? 9) || (m =? 11)); lia.
Qed.

(** The year of the era and the day of the year, read back from the day of
    the era. *)
Lemma year_of_era (doe : Z) :
  0 <= doe <= 146096 ->
  let yoe := (doe - doe / 1460 + doe / 36524 - doe / 146096) / 365 in
  let doy := doe - (365 * yoe + yoe / 4 - yoe / 100) in
  0 <= yoe <= 399 /\ 0 <= doy <= 365
  /\ (doy = 365 ->
      (yoe + 1) mod 4 = 0 /\ ((yoe + 1) mod 100 <> 0 \/ yoe = 399)).
Proof. intros H. cbv zeta. div_lia. Qed.

(** The month and the day of the month, read back from the day of the
    year; months run from March (0) to February (11). *)
Lemma month_of_year (doy : Z) :
  0 <= doy <= 365 ->
  let mp := (5 * doy + 2) / 153 in
  let d := doy - (153 * mp + 2) / 5 + 1 in
  0 <= mp <= 11 /\ 1 <= d
  /\ (mp = 11 -> d <= 29 /\ (d = 29 -> doy = 365))
  /\ (mp = 1 \/ mp = 3 \/ mp = 6 \/ mp = 8 -> d <= 30)
  /\ d <= 31.
Proof. intros H. cbv zeta. div_lia. Qed.

Lemma day_of_year (mp d : Z) :
  0 <= mp <= 11 ->
  1 <= d <= (if mp =? 11 then 29
             else if (mp =? 1) || (mp =? 3) || (mp =? 6) || (mp =? 8)
                  then 30 else 31) ->
  let doy := (153 * mp + 2) / 5 + d - 1 in
  (5 * doy + 2) / 153 = mp
  /\ 0 <= doy <= 365 /\ (doy = 365 -> mp = 11 /\ d = 29).
Proof.
  intros Hm Hd. cbv zeta.
  assert (mp = 0 \/ mp = 1 \/ mp = 2 \/ mp = 3 \/ mp = 4 \/ mp = 5 \/ mp = 6
          \/ mp = 7 \/ mp = 8 \/ mp = 9 \/ mp = 10 \/ mp = 11) as H by lia.
  repeat destruct H as [H | H]; subst mp; cbn [Z.eqb Pos.eqb orb] in Hd;
    div_lia.
Qed.

Lemma day_of_era (yoe doy : Z) :
  0 <= yoe <= 399 -> 0 <= doy <= 365 ->
  (doy = 365 ->
   (yoe + 1) mod 4 = 0 /\ ((yoe + 1) mod 100 <> 0 \/ yoe = 399)) ->
  let doe := yoe * 365 + yoe / 4 - yoe / 100 + doy in
  0 <= doe <= 146096
  /\ (doe - doe / 1460 + doe / 36524 - doe / 146096) / 365 = yoe.
Proof. intros Hy Hd Hleap. cbv zeta. div_lia. Qed.

Lemma monthLength_cases (y m : Z) :
  1 <= m <= 12 ->
  (m = 2 /\ ((isLeap y = true /\ monthLength y m = 29)
             \/ (isLeap y = false /\ monthLength y m = 28)))
  \/ ((m = 4 \/ m = 6 \/ m = 9 \/ m = 11) /\ monthLength y m = 30)
  \/ ((m = 1 \/ m = 3 \/ m = 5 \/ m = 7 \/ m = 8 \/ m = 10 \/ m = 12)
      /\ monthLength y m = 31).
Proof.
  intros H. unfold monthLength.
  assert (m = 1 \/ m = 2 \/ m = 3 \/ m = 4 \/ m = 5 \/ m = 6 \/ m = 7
          \/ m = 8 \/ m = 9 \/ m = 10 \/ m = 11 \/ m = 12) as Hm by lia.
  repeat destruct Hm as [Hm | Hm]; subst m; cbn [Z.eqb Pos.eqb orb];
    try (destruct (isLeap y)); tauto.
Qed.

(** A date of the calendar is read back from its day number. *)
Lemma civil_of_days (y m d : Z) :
  validDate y m d -> Date.civilFromDays (Date.daysFromCivil y m d) = (y, m, d).
Proof.
  intros [Hm Hd].
  unfold Date.daysFromCivil.
  set (y0 := if m <=? 2 then y - 1 else y).
  set (mp := if 2 <? m then m - 3 else m + 9).
  set (era := y0 / 400). set (yoe := y0 - era * 400).
  set (doy := (153 * mp + 2) / 5 + d - 1).
  set (doe := yoe * 365 + yoe / 4 - yoe / 100 + doy).
  cbv zeta.
  assert (0 <= yoe <= 399) as Hyoe by (subst yoe era; div_lia).
  assert (0 <= mp <= 11 /\ (m = if mp <? 10 then mp + 3 else mp - 9)
          /\ (mp = 11 <-> m = 2)
          /\ (mp = 1 \/ mp = 3 \/ mp = 6 \/ mp = 8
              <-> m = 4 \/ m = 6 \/ m = 9 \/ m = 11))
    as (Hmp & Hmm & Hfeb & H30).
  { subst mp. destruct (Z.ltb_spec 2 m).
    - destruct (Z.ltb_spec (m - 3) 10); lia.
    - destruct (Z.ltb_spec (m + 9) 10); lia. }
  assert (1 <= d <= (if mp =? 11 then 29
             else if (mp =? 1) || (mp =? 3) || (mp =? 6) || (mp =? 8)
                  then 30 else 31)) as Hd'.
  { assert (m = 1 \/ m = 2 \/ m = 3 \/ m = 4 \/ m = 5 \/ m = 6 \/ m = 7
            \/ m = 8 \/ m = 9 \/ m = 10 \/ m = 11 \/ m = 12) as Hc by lia.
    split; [lia |]. apply Z.le_trans with (1 := proj2 Hd).
    unfold monthLength. subst mp. destruct (isLeap y);
    repeat destruct Hc as [Hc | Hc]; subst m; cbn; lia. }
  destruct (day_of_year mp d Hmp Hd') as (Hmp' & Hdoy & H365).
  fold doy in Hmp', Hdoy, H365.
  assert (doy = 365 ->
   (yoe + 1) mod 4 = 0 /\ ((yoe + 1) mod 100 <> 0 \/ yoe = 399)) as Hleap.
  { intros E. destruct (H365 E) as [E1 E2].
    assert (m = 2) as -> by tauto.
    assert (isLeap y = true) as HL.
    { destruct (isLeap y) eqn:EL; [reflexivity |].
      unfold monthLength in Hd. rewrite EL in Hd. cbn in Hd. lia. }
    apply isLeap_true in HL. subst yoe era y0.
    cbn [Z.leb Z.compare Pos.compare Pos.compare_cont].
    div_lia. }
  destruct (day_of_era yoe doy Hyoe Hdoy Hleap) as (Hdoe & Hyoe').
  fold doe in Hdoe, Hyoe'.
  unfold Date.civilFromDays.
  replace (era * 146097 + doe - 719468 + 719468) with (doe + era * 146097)
    by lia.
  rewrite Z.div_add by lia. rewrite (Z.div_small doe) by lia.
  cbn [Z.add]. replace (doe + era * 146097 - era * 146097) with doe by lia.
  cbv zeta. rewrite Hyoe'.
  replace (doe - (365 * yoe + yoe / 4 - yoe / 100)) with doy
    by (subst doe; lia).
  rewrite Hmp'. rewrite <- Hmm.
  replace (doy - (153 * mp + 2) / 5 + 1) with d by (subst doy; lia).
  f_equal. f_equal. subst yoe y0. destruct (m <=? 2); lia.
Qed.

Lemma month_shift (mp : Z) :
  0 <= mp <= 11 ->
  let m := if mp <? 10 then mp + 3 else mp - 9 in
  1 <= m <= 12 /\ mp = (if 2 <? m then m - 3 else m + 9)
  /\ (m = 2 -> mp = 11) /\ ((m <=? 2) = true <-> 10 <= mp)
  /\ (m = 4 \/ m = 6 \/ m = 9 \/ m = 11
      -> mp = 1 \/ mp = 3 \/ mp = 6 \/ mp = 8).
Proof.
  intros H. cbv zeta. destruct (Z.ltb_spec mp 10).
  - destruct (Z.ltb_spec 2 (mp + 3)), (Z.leb_spec (mp + 3) 2); lia.
  - destruct (Z.ltb_spec 2 (mp - 9)), (Z.leb_spec (mp - 9) 2); lia.
Qed.

(** Every day number is the day number of the date read from it, which is
    a date of the calendar. *)
Lemma days_of_civil (z : Z) :
  let '(y, m, d) := Date.civilFromDays z in
  validDate y m d /\ Date.daysFromCivil y m d = z.
Proof.
  unfold Date.civilFromDays.
  set (era := (z + 719468) / 146097).
  set (doe := z + 719468 - era * 146097).
  assert (0 <= doe <= 146096) as Hdoe by (subst doe era; div_lia).
  assert (z = era * 146097 + doe - 719468) as Hz by (subst doe; lia).
  clearbody doe era.
  pose proof (year_of_era doe Hdoe) as Hy. cbv zeta in Hy |- *.
  set (yoe := (doe - doe / 1460 + doe / 36524 - doe / 146096) / 365) in *.
  set (doy := doe - (365 * yoe + yoe / 4 - yoe / 100)) in *.
  assert (doe = yoe * 365 + yoe / 4 - yoe / 100 + doy) as Hdoe'
    by (subst doy; lia).
  clearbody doy. clearbody yoe.
  destruct Hy as (Hyoe & Hdoy & Hleap).
  pose proof (month_of_year doy Hdoy) as Hmd. cbv zeta in Hmd.
  set (mp := (5 * doy + 2) / 153) in *.
  set (d := doy - (153 * mp + 2) / 5 + 1) in *.
  assert (doy = (153 * mp + 2) / 5 + d - 1) as Hdoy' by (subst d; lia).
  clearbody d. clearbody mp.
  destruct Hmd as (Hmp & Hd1 & Hfeb & H30 & H31).
  pose proof (month_shift mp Hmp) as Hm. cbv zeta in Hm.
  set (m := if mp <? 10 then mp + 3 else mp - 9) in *.
  clearbody m.
  destruct Hm as (Hm & Hmm & Hfebm & Hjf & H30m).
  set (y := if m <=? 2 then yoe + era * 400 + 1 else yoe + era * 400).
  assert ((if m <=? 2 then y - 1 else y) = yoe + era * 400) as Hy0
    by (subst y; destruct (m <=? 2); lia).
  assert (m = 2 -> y = yoe + era * 400 + 1) as Hy2
    by (intros ->; reflexivity).
  clearbody y.
  split.
  - split; [exact Hm |]. split; [exact Hd1 |].
    destruct (monthLength_cases y m Hm) as [[E HL] | [[H HL] | [H HL]]].
    + specialize (Hy2 E). specialize (Hfebm E).
      destruct (Hfeb Hfebm) as [Hle H29].
      destruct HL as [[_ HL] | [HL HL']]; [lia |].
      assert (d <> 29); [| lia].
      intros E29. destruct (Hleap (H29 E29)) as [L4 L100].
      assert (isLeap y = true); [| congruence].
      apply isLeap_true. clear - Hy2 L4 L100 Hyoe. div_lia.
    + rewrite HL. apply H30. apply H30m. exact H.
    + rewrite HL. exact H31.
  - unfold Date.daysFromCivil. rewrite Hy0, <- Hmm.
    replace ((yoe + era * 400) / 400) with era
      by (clear - Hyoe; div_lia).
    cbv zeta.
    replace (yoe + era * 400 - era * 400) with yoe by lia.
    clear - Hz Hdoe' Hdoy'. lia.
Qed.

(** ** Months and days *)

Lemma daysFromCivil_day (y m d : Z) :
  Date.daysFromCivil y m d = Date.daysFromCivil y m 1 + d - 1.
Proof. unfold Date.daysFromCivil. cbv zeta. lia. Qed.

(** The day after the last day of a month is the first day of the month
    after it. *)
Lemma month_end (y m : Z) :
  1 <= m <= 12 ->
  Date.daysFromCivil y m (monthLength y m) + 1
  = Date.daysFromCivil (if m =? 12 then y + 1 else y)
                       (if m =? 12 then 1 else m + 1) 1.
Proof.
  intros Hm.
  assert (m = 1 \/ m = 2 \/ m = 3 \/ m = 4 \/ m = 5 \/ m = 6 \/ m = 7
          \/ m = 8 \/ m = 9 \/ m = 10 \/ m = 11 \/ m = 12) as Hc by lia.
  unfold monthLength, Date.daysFromCivil.
  destruct (isLeap y) eqn:E.
  - apply isLeap_true in E.
    repeat destruct Hc as [Hc | Hc]; subst m; cbn; cbv zeta; div_lia.
  - assert (~ (y mod 4 = 0 /\ (y mod 100 <> 0 \/ y mod 400 = 0)))
      by (rewrite <- isLeap_true; congruence).
    repeat destruct Hc as [Hc | Hc]; subst m; cbn; cbv zeta; div_lia.
Qed.

(** The fields of a date: a date of the calendar, with the date as its day
    number. *)
Lemma date_fields (date : Date.t) :
  0 <= Date.getMonth date <= 11
  /\ 1 <= Date.getDate date
          <= monthLength (Date.getFullYear date) (Date.getMonth date + 1)
  /\ Date.daysFromCivil (Date.getFullYear date) (Date.getMonth date + 1)
                        (Date.getDate date) = date.
Proof.
  pose proof (days_of_civil date) as H.
  unfold Date.getMonth, Date.getDate, Date.getFullYear.
  destruct (Date.civilFromDays date) as [[y m] d]. cbn [fst snd].
  destruct H as [[Hm Hd] Hz].
  replace (m - 1 + 1) with m by lia.
  split; [lia | split; [exact Hd | exact Hz]].
Qed.

Lemma fields_of_civil (y m d : Z) :
  0 <= m <= 11 -> 1 <= d <= monthLength y (m + 1) ->
  let date := Date.daysFromCivil y (m + 1) d in
  Date.getFullYear date = y /\ Date.getMonth date = m
  /\ Date.getDate date = d.
Proof.
  intros Hm Hd. cbv zeta.
  unfold Date.getMonth, Date.getDate, Date.getFullYear.
  rewrite civil_of_days by (split; [lia | exact Hd]).
  cbn [fst snd]. lia.
Qed.

(** [new Date(year, month, day)] for a month from 0 to 11. *)
Lemma make_in_year (year m d : Z) :
  0 <= m <= 11 ->
  Date.make year m d
  = Date.daysFromCivil (yearOfDate year) (m + 1) 1 + d - 1.
Proof.
  intros Hm. unfold Date.make, yearOfDate. cbv zeta.
  rewrite Z.div_small, Z.mod_small by lia.
  rewrite Z.add_0_r. reflexivity.
Qed.

(** [new Date(year, month + 1, 0)]: the last day of the month. *)
Lemma make_last_day (year m : Z) :
  0 <= m <= 11 ->
  Date.make year (m + 1) 0
  = Date.daysFromCivil (yearOfDate year) (m + 1)
                       (monthLength (yearOfDate year) (m + 1)).
Proof.
  intros Hm. unfold Date.make. fold (yearOfDate year). cbv zeta.
  pose proof (month_end (yearOfDate year) (m + 1) ltac:(lia)) as H.
  destruct (Z.eqb_spec (m + 1) 12) as [E | E].
  - rewrite E in *. change (12 / 12) with 1. change (12 mod 12 + 1) with 1.
    lia.
  - rewrite Z.div_small, Z.mod_small, !Z.add_0_r by lia. lia.
Qed.

(** [new Date(year, month, 0)]: the last day of the month before. *)
Lemma make_day_zero (year m : Z) :
  0 <= m <= 11 ->
  let p := monthBefore (yearOfDate year) m in
  Date.make year m 0
  = Date.daysFromCivil (fst p) (snd p + 1) (monthLength (fst p) (snd p + 1)).
Proof.
  intros Hm. cbv zeta. rewrite make_in_year by exact Hm.
  unfold monthBefore. destruct (Z.eqb_spec m 0) as [-> | E]; cbn [fst snd].
  - pose proof (month_end (yearOfDate year - 1) 12 ltac:(lia)) as H.
    cbn [Z.eqb Pos.eqb] in H.
    replace (yearOfDate year - 1 + 1) with (yearOfDate year) in H by lia.
    change (11 + 1) with 12. change (0 + 1) with 1. lia.
  - pose proof (month_end (yearOfDate year) m ltac:(lia)) as H.
    destruct (Z.eqb_spec m 12); [lia |].
    replace (m - 1 + 1) with m by lia. lia.
Qed.

Lemma monthBefore_range (y m : Z) :
  0 <= m <= 11 -> 0 <= snd (monthBefore y m) <= 11.
Proof.
  intros H. unfold monthBefore.
  destruct (Z.eqb_spec m 0); cbn [snd]; lia.
Qed.

Lemma countDown_nth (n i : nat) :
  (i < n)%nat ->
  nth_error (countDown n) i = Some (Z.of_nat n - 1 - Z.of_nat i).
Proof.
  revert i; induction n as [|n IH]; intros i Hi; [lia |].
  cbn [countDown]. destruct i as [|i]; cbn [nth_error].
  - f_equal. lia.
  - rewrite IH by lia. f_equal. lia.
Qed.

Lemma fieldsOf_civil (y m d : Z) :
  0 <= m <= 11 -> 1 <= d <= monthLength y (m + 1) ->
  fieldsOf (Date.daysFromCivil y (m + 1) d) = (y, m, d).
Proof.
  intros Hm Hd. unfold fieldsOf.
  destruct (fields_of_civil y m d Hm Hd) as (-> & -> & ->). reflexivity.
Qed.

Lemma monthAfter_range (y m : Z) :
  0 <= m <= 11 -> 0 <= snd (monthAfter y m) <= 11.
Proof.
  intros H. unfold monthAfter.
  destruct (Z.eqb_spec m 11); cbn [snd]; lia.
Qed.

(** The day after the last day of a month, months from 0. *)
Lemma month_after_start (y m : Z) :
  0 <= m <= 11 ->
  Date.daysFromCivil y (m + 1) (monthLength y (m + 1)) + 1
  = Date.daysFromCivil (fst (monthAfter y m)) (snd (monthAfter y m) + 1) 1.
Proof.
  intros Hm. rewrite month_end by lia. unfold monthAfter.
  destruct (Z.eqb_spec m 11) as [-> | E]; cbn [fst snd].
  - reflexivity.
  - destruct (Z.eqb_spec (m + 1) 12); [lia | reflexivity].
Qed.

(** The day before the first day of a month, months from 0. *)
Lemma month_before_end (y m : Z) :
  0 <= m <= 11 ->
  Date.daysFromCivil (fst (monthBefore y m)) (snd (monthBefore y m) + 1)
    (monthLength (fst (monthBefore y m)) (snd (monthBefore y m) + 1)) + 1
  = Date.daysFromCivil y (m + 1) 1.
Proof.
  intros Hm. unfold monthBefore.
  destruct (Z.eqb_spec m 0) as [-> | E]; cbn [fst snd].
  - change (11 + 1) with 12. change (0 + 1) with 1.
    rewrite (month_end (y - 1) 12) by lia. cbn [Z.eqb Pos.eqb].
    replace (y - 1 + 1) with y by lia. reflexivity.
  - rewrite month_end by lia.
    destruct (Z.eqb_spec (m - 1 + 1) 12); [lia |].
    replace (m - 1 + 1) with m by lia. reflexivity.
Qed.

(** [setMonth] with the month after, and with the month before, the month
    of the date. *)
Lemma setMonth_after (d : Date.t) :
  let p := monthAfter (Date.getFullYear d) (Date.getMonth d) in
  setMonth d (Date.getMonth d + 1)
  = Date.daysFromCivil (fst p) (snd p + 1) 1 + Date.getDate d - 1.
Proof.
  destruct (date_fields d) as (Hm & _ & _). cbv zeta.
  unfold setMonth, monthAfter.
  destruct (Z.eqb_spec (Date.getMonth d) 11) as [E | E]; cbn [fst snd].
  - rewrite E. reflexivity.
  - rewrite Z.div_small, Z.mod_small, Z.add_0_r by lia. reflexivity.
Qed.

Lemma setMonth_before (d : Date.t) :
  let p := monthBefore (Date.getFullYear d) (Date.getMonth d) in
  setMonth d (Date.getMonth d - 1)
  = Date.daysFromCivil (fst p) (snd p + 1) 1 + Date.getDate d - 1.
Proof.
  destruct (date_fields d) as (Hm & _ & _). cbv zeta.
  unfold setMonth, monthBefore.
  destruct (Z.eqb_spec (Date.getMonth d) 0) as [E | E]; cbn [fst snd].
  - rewrite E. reflexivity.
  - rewrite Z.div_small, Z.mod_small, Z.add_0_r by lia. reflexivity.
Qed.

(** X18. [navigateMonth] moves forward by the length of the month of the
    date and backward by the length of the month before it. The day of the
    month is kept when the month arrived at has that day; when it has not,
    "next" lands in the month after the next one and "prev" stays in the
    month of the date, on the day left over. *)
Theorem navigate_month (current : Date.t) :
  let y := Date.getFullYear current in
  let m := Date.getMonth current in
  let d := Date.getDate current in
  let after := monthAfter y m in
  let before := monthBefore y m in
  let lenAfter := monthLength (fst after) (snd after + 1) in
  let lenBefore := monthLength (fst before) (snd before + 1) in
  navigateMonth next current = current + monthLength y (m + 1)
  /\ navigateMonth prev current = current - lenBefore
  /\ (d <= lenAfter ->
      fieldsOf (navigateMonth next current) = (fst after, snd after, d))
  /\ (lenAfter < d ->
      fieldsOf (navigateMonth next current)
      = (fst (monthAfter (fst after) (snd after)),
         snd (monthAfter (fst after) (snd after)), d - lenAfter))
  /\ (d <= lenBefore ->
      fieldsOf (navigateMonth prev current) = (fst before, snd before, d))
  /\ (lenBefore < d ->
      fieldsOf (navigateMonth prev current) = (y, m, d - lenBefore)).
Proof.
  destruct (date_fields current) as (Hm & Hd & Hz).
  cbv zeta. unfold navigateMonth.
  rewrite setMonth_after, setMonth_before. cbv zeta.
  set (y := Date.getFullYear current) in *.
  set (m := Date.getMonth current) in *.
  set (d := Date.getDate current) in *.
  pose proof (month_after_start y m Hm) as Hafter.
  pose proof (month_before_end y m Hm) as Hbefore.
  pose proof (monthAfter_range y m Hm) as Hna.
  pose proof (monthBefore_range y m Hm) as Hnb.
  set (ay := fst (monthAfter y m)) in *.
  set (am := snd (monthAfter y m)) in *.
  set (by_ := fst (monthBefore y m)) in *.
  set (bm := snd (monthBefore y m)) in *.
  pose proof (month_after_start ay am Hna) as Hafter2.
  pose proof (monthAfter_range ay am Hna) as Hnaa.
  set (aay := fst (monthAfter ay am)) in *.
  set (aam := snd (monthAfter ay am)) in *.
  pose proof (monthLength_range y (m + 1)) as Hl.
  pose proof (monthLength_range ay (am + 1)) as Hla.
  pose proof (monthLength_range by_ (bm + 1)) as Hlb.
  pose proof (monthLength_range aay (aam + 1)) as Hlaa.
  pose proof (daysFromCivil_day y (m + 1) d) as E1.
  pose proof (daysFromCivil_day y (m + 1) (monthLength y (m + 1))) as E2.
  pose proof (daysFromCivil_day by_ (bm + 1) (monthLength by_ (bm + 1)))
    as E3.
  pose proof (daysFromCivil_day ay (am + 1) (monthLength ay (am + 1)))
    as E4.
  split; [lia | split; [lia |]].
  split; [| split; [| split]]; intros Hcase.
  - rewrite <- daysFromCivil_day. apply fieldsOf_civil; lia.
  - replace (Date.daysFromCivil ay (am + 1) 1 + d - 1)
      with (Date.daysFromCivil aay (aam + 1) (d - monthLength ay (am + 1)))
      by (rewrite (daysFromCivil_day aay); lia).
    apply fieldsOf_civil; lia.
  - rewrite <- daysFromCivil_day. apply fieldsOf_civil; lia.
  - replace (Date.daysFromCivil by_ (bm + 1) 1 + d - 1)
      with (Date.daysFromCivil y (m + 1) (d - monthLength by_ (bm + 1)))
      by (rewrite (daysFromCivil_day y); lia).
    apply fieldsOf_civil; lia.
Qed.

Lemma navigate_month_witness :
  fieldsOf (Date.daysFromCivil 2025 1 31) = (2025, 0, 31)
  /\ fieldsOf (navigateMonth next (Date.daysFromCivil 2025 1 31))
     = (2025, 2, 3)
  /\ fieldsOf (navigateMonth prev (Date.daysFromCivil 2025 3 31))
     = (2025, 2, 3)
  /\ fieldsOf (navigateMonth next (Date.daysFromCivil 2025 1 15))
     = (2025, 1, 15)
  /\ fieldsOf (navigateMonth prev (Date.daysFromCivil 2025 1 15))
     = (2024, 11, 15).
Proof.
  split; [reflexivity |].
  destruct (navigate_month (Date.daysFromCivil 2025 1 31))
    as (_ & _ & _ & Hskip & _ & _).
  destruct (navigate_month (Date.daysFromCivil 2025 3 31))
    as (_ & _ & _ & _ & _ & Hstay).
  destruct (navigate_month (Date.daysFromCivil 2025 1 15))
    as (_ & _ & Hnext & _ & Hprev & _).
  split; [exact (Hskip ltac:(vm_compute; reflexivity)) |].
  split; [exact (Hstay ltac:(vm_compute; reflexivity)) |].
  split; [exact (Hnext ltac:(vm_compute; discriminate)) |].
  exact (Hprev ltac:(vm_compute; discriminate)).
Defined.

(** ** Numbers and dates as text *)

(** ** Numbers as text *)

Lemma lit_inj (a b : string) : lit a = lit b -> a = b.
Proof.
  revert b; induction a as [|x a IH]; intros [|y b]; cbn [lit];
    try discriminate; [reflexivity |].
  intros [= Hc Hrest]. f_equal; [| apply IH, Hrest].
  unfold charCode in Hc. apply N2Z.inj in Hc.
  rewrite <- (ascii_N_embedding x), <- (ascii_N_embedding y).
  f_equal. exact Hc.
Qed.

Lemma uint_digits (d : Decimal.uint) :
  Forall isDigit (lit (NilEmpty.string_of_uint d)).
Proof.
  induction d; cbn [NilEmpty.string_of_uint lit]; constructor;
    try assumption; unfold isDigit; vm_compute; split; discriminate.
Qed.


Lemma toString_inj (a b : Z) : toString a = toString b -> a = b.
Proof.
  unfold toString. intros H. apply lit_inj in H.
  assert (forall n, Z.to_int n <> Decimal.Pos Decimal.Nil
                    /\ Z.to_int n <> Decimal.Neg Decimal.Nil) as Hn.
  { intros [|p|p]; cbn [Z.to_int]; split; try discriminate;
      intros [= E]; exact (DecimalPos.Unsigned.to_uint_nonnil p E). }
  pose proof (NilZero.isi (Z.to_int a) (proj1 (Hn a)) (proj2 (Hn a))) as Ea.
  pose proof (NilZero.isi (Z.to_int b) (proj1 (Hn b)) (proj2 (Hn b))) as Eb.
  rewrite H, Eb in Ea. injection Ea as Ea.
  rewrite <- (DecimalZ.of_to a), <- (DecimalZ.of_to b). f_equal.
  symmetry. exact Ea.
Qed.

(** Two digits for a number from 0 to 99. *)
Lemma padStart2_digits (k : Z) :
  0 <= k <= 99 ->
  padStart2 (toString k) = [48 + k / 10; 48 + k mod 10].
Proof.
  intros H.
  assert (forallb (fun i => Js.eqb (padStart2 (toString (Z.of_nat i)))
                              [48 + Z.of_nat i / 10; 48 + Z.of_nat i mod 10])
                  (seq 0 100) = true) as Hall by (vm_compute; reflexivity).
  rewrite forallb_forall in Hall.
  specialize (Hall (Z.to_nat k)). rewrite Z2Nat.id in Hall by lia.
  apply eqb_eq, Hall, in_seq. lia.
Qed.

Lemma formatDateString_parts (year month day : Z) :
  0 <= month <= 11 -> 1 <= day <= 31 ->
  formatDateString year month day
  = toString year
    ++ [45; 48 + (month + 1) / 10; 48 + (month + 1) mod 10;
        45; 48 + day / 10; 48 + day mod 10].
Proof.
  intros Hm Hd. unfold formatDateString.
  rewrite !padStart2_digits by lia. reflexivity.
Qed.

Lemma app_inj_suffix {A} (a b s t : list A) :
  List.length s = List.length t -> a ++ s = b ++ t -> a = b /\ s = t.
Proof.
  revert t; induction s as [|x s IH] using rev_ind; intros t Hlen H.
  - destruct t; [| discriminate]. rewrite !app_nil_r in H. auto.
  - destruct t as [|y t] using rev_ind.
    { rewrite length_app in Hlen. cbn in Hlen. lia. }
    clear IHt. rewrite !app_assoc in H. apply app_inj_tail in H.
    destruct H as [H ->]. rewrite !length_app in Hlen. cbn in Hlen.
    destruct (IH t ltac:(lia) H) as [-> ->]. auto.
Qed.

(** The text of a date tells the date. *)
Lemma formatDateString_inj (y1 m1 d1 y2 m2 d2 : Z) :
  0 <= m1 <= 11 -> 1 <= d1 <= 31 -> 0 <= m2 <= 11 -> 1 <= d2 <= 31 ->
  formatDateString y1 m1 d1 = formatDateString y2 m2 d2 ->
  y1 = y2 /\ m1 = m2 /\ d1 = d2.
Proof.
  intros Hm1 Hd1 Hm2 Hd2.
  rewrite !formatDateString_parts by assumption. intros H.
  apply app_inj_suffix in H; [| reflexivity].
  destruct H as [Hy H]. apply toString_inj in Hy.
  pose proof (f_equal (fun l => nth 1 l 0) H) as Ha.
  pose proof (f_equal (fun l => nth 2 l 0) H) as Hb.
  pose proof (f_equal (fun l => nth 4 l 0) H) as Hc.
  pose proof (f_equal (fun l => nth 5 l 0) H) as He.
  cbn [nth] in Ha, Hb, Hc, He. clear H.
  split; [exact Hy |]. clear Hy. split; div_lia.
Qed.

(** The text of a date has no [T]: it is its own date part, also with a
    time after it. *)
Lemma beforeFirst_app (sep : Z) (a rest : jsstring) :
  ~ In sep a -> beforeFirst sep (a ++ sep :: rest) = a.
Proof.
  induction a as [|c a IH]; intros Hno; cbn [beforeFirst app].
  - rewrite Z.eqb_refl. reflexivity.
  - destruct (Z.eqb_spec c sep) as [-> | _].
    + destruct Hno. left. reflexivity.
    + f_equal. apply IH. intros Hin. apply Hno. right. exact Hin.
Qed.

Lemma beforeFirst_none (sep : Z) (a : jsstring) :
  ~ In sep a -> beforeFirst sep a = a.
Proof.
  induction a as [|c a IH]; intros Hno; cbn [beforeFirst]; [reflexivity |].
  destruct (Z.eqb_spec c sep) as [-> | _].
  - destruct Hno. left. reflexivity.
  - f_equal. apply IH. intros Hin. apply Hno. right. exact Hin.
Qed.


(** ** The cells of the month grid *)

Lemma calendarCells_eq (today cur : Date.t)
  (events : list CalendarEvent.t) :
  calendarCells today cur events
  = let r := getDaysInMonth cur in
    let year := Date.getFullYear cur in
    let month := Date.getMonth cur in
    map (calendarCell today events (fst (monthBefore year month))
           (snd (monthBefore year month)) false)
        (MonthDays.prevMonthDays r)
    ++ map (calendarCell today events year month true)
           (countUp (MonthDays.daysInMonth r))
    ++ map (calendarCell today events (fst (monthAfter year month))
              (snd (monthAfter year month)) false)
           (MonthDays.nextMonthDays r).
Proof.
  unfold calendarCells, monthBefore, monthAfter. cbv zeta.
  generalize (getDaysInMonth cur). intros r.
  destruct (Date.getMonth cur =? 0), (Date.getMonth cur =? 11);
    reflexivity.
Qed.

(** What [getDaysInMonth] returns, by the calendar. *)
Lemma getDaysInMonth_eq (date : Date.t) :
  let y := yearOfDate (Date.getFullYear date) in
  let m := Date.getMonth date in
  let s := Date.getDay (Date.daysFromCivil y (m + 1) 1) in
  let len := monthLength y (m + 1) in
  let before :=
    monthLength (fst (monthBefore y m)) (snd (monthBefore y m) + 1) in
  getDaysInMonth date
  = {| MonthDays.daysInMonth := len;
       MonthDays.startingDayOfWeek := s;
       MonthDays.prevMonthDays :=
         map (fun i => before - i) (countDown (Z.to_nat s));
       MonthDays.nextMonthDays :=
         countUp (ceilDiv (s + len) 7 * 7 - (s + len)) |}.
Proof.
  destruct (date_fields date) as (Hm & _ & _).
  unfold getDaysInMonth. cbv zeta.
  set (year := Date.getFullYear date) in *.
  set (m := Date.getMonth date) in *.
  rewrite make_last_day, (make_day_zero year m), (make_in_year year m 1)
    by exact Hm.
  cbv zeta.
  set (y := yearOfDate year).
  pose proof (monthBefore_range y m Hm) as Hp.
  set (py := fst (monthBefore y m)) in *.
  set (pm := snd (monthBefore y m)) in *.
  pose proof (monthLength_range y (m + 1)) as Hlen.
  pose proof (monthLength_range py (pm + 1)) as Hlenp.
  destruct (fields_of_civil y m (monthLength y (m + 1)) Hm ltac:(lia))
    as (_ & _ & ->).
  destruct (fields_of_civil py pm (monthLength py (pm + 1)) Hp ltac:(lia))
    as (_ & _ & ->).
  replace (Date.daysFromCivil y (m + 1) 1 + 1 - 1)
    with (Date.daysFromCivil y (m + 1) 1) by lia.
  reflexivity.
Qed.

(** X19. [getDaysInMonth] returns the length of the month by the Gregorian
    calendar (for the year that [new Date(year, ...)] takes [year] to
    mean), the weekday of the first of the month, the last days of the
    month before in ascending order, and the days 1 to n of the month after
    for an n up to 6 that makes the grid 4, 5 or 6 whole weeks. *)
Theorem month_grid_days (date : Date.t) :
  let r := getDaysInMonth date in
  let y := yearOfDate (Date.getFullYear date) in
  let m := Date.getMonth date in
  let s := MonthDays.startingDayOfWeek r in
  let before :=
    monthLength (fst (monthBefore y m)) (snd (monthBefore y m) + 1) in
  MonthDays.daysInMonth r = monthLength y (m + 1)
  /\ s = Date.getDay (Date.daysFromCivil y (m + 1) 1)
  /\ (forall i, (i < Z.to_nat s)%nat ->
        nth_error (MonthDays.prevMonthDays r) i
        = Some (before - s + 1 + Z.of_nat i))
  /\ (exists n,
        0 <= n <= 6 /\ MonthDays.nextMonthDays r = countUp n
        /\ (s + MonthDays.daysInMonth r + n = 28
            \/ s + MonthDays.daysInMonth r + n = 35
            \/ s + MonthDays.daysInMonth r + n = 42)).
Proof.
  pose proof (getDaysInMonth_eq date) as Hr. cbv zeta in Hr |- *.
  rewrite Hr. clear Hr.
  cbn [MonthDays.daysInMonth MonthDays.startingDayOfWeek
       MonthDays.prevMonthDays MonthDays.nextMonthDays].
  set (y := yearOfDate (Date.getFullYear date)).
  set (m := Date.getMonth date).
  pose proof (monthLength_range y (m + 1)) as Hlen.
  set (len := monthLength y (m + 1)) in *.
  pose proof (getDay_range (Date.daysFromCivil y (m + 1) 1)) as Hs.
  set (s := Date.getDay _) in *.
  split; [reflexivity | split; [reflexivity | split]].
  - intros i Hi. rewrite nth_error_map, countDown_nth by exact Hi.
    cbn [option_map]. f_equal. lia.
  - pose proof (ceilDiv_least (s + len)) as Hc.
    exists (ceilDiv (s + len) 7 * 7 - (s + len)).
    split; [lia | split; [reflexivity |]].
    set (w := ceilDiv (s + len) 7) in *. lia.
Qed.

Lemma month_grid_days_witness :
  MonthDays.daysInMonth (getDaysInMonth (Date.daysFromCivil 2024 2 10)) = 29
  /\ MonthDays.prevMonthDays (getDaysInMonth (Date.daysFromCivil 2024 2 10))
     = [28; 29; 30; 31]
  /\ MonthDays.nextMonthDays (getDaysInMonth (Date.daysFromCivil 2024 2 10))
     = [1; 2].
Proof.
  destruct (month_grid_days (Date.daysFromCivil 2024 2 10))
    as (Hlen & Hs & Hprev & n & Hn & Hnext & Htotal).
  assert (MonthDays.startingDayOfWeek
            (getDaysInMonth (Date.daysFromCivil 2024 2 10)) = 4) as Es
    by (rewrite Hs; vm_compute; reflexivity).
  assert (MonthDays.daysInMonth
            (getDaysInMonth (Date.daysFromCivil 2024 2 10)) = 29) as El
    by (rewrite Hlen; vm_compute; reflexivity).
  split; [exact El |].
  rewrite Es in Hprev, Htotal. rewrite El in Htotal.
  split.
  - pose proof (Hprev 0%nat ltac:(vm_compute; lia)) as H0.
    pose proof (Hprev 1%nat ltac:(vm_compute; lia)) as H1.
    pose proof (Hprev 2%nat ltac:(vm_compute; lia)) as H2.
    pose proof (Hprev 3%nat ltac:(vm_compute; lia)) as H3.
    vm_compute in H0, H1, H2, H3. vm_compute. reflexivity.
  - rewrite Hnext. replace n with 2 by lia. reflexivity.
Defined.

Lemma Some_eq {A} (a b : A) : Some a = Some b -> a = b.
Proof. intros [= H]. exact H. Qed.

Lemma countUp_nth (n : Z) (i : nat) :
  (i < Z.to_nat n)%nat ->
  nth_error (countUp n) i = Some (Z.of_nat i + 1).
Proof.
  intros Hi. unfold countUp.
  rewrite nth_error_map, nth_error_seq.
  destruct (Nat.ltb_spec i (Z.to_nat n)); [| lia].
  cbn [option_map]. f_equal. lia.
Qed.

(** The cell at a place of the grid: a day of the month before, of the
    month, or of the month after. *)
Lemma cell_at (today cur : Date.t) (events : list CalendarEvent.t)
  (k : nat) (c : Cell.t) :
  let year := Date.getFullYear cur in
  let month := Date.getMonth cur in
  let y := yearOfDate year in
  let s := Date.getDay (Date.daysFromCivil y (month + 1) 1) in
  let len := monthLength y (month + 1) in
  let before :=
    monthLength (fst (monthBefore y month))
                (snd (monthBefore y month) + 1) in
  nth_error (calendarCells today cur events) k = Some c ->
  (Z.of_nat k < s
   /\ c = calendarCell today events (fst (monthBefore year month))
            (snd (monthBefore year month)) false
            (before - s + 1 + Z.of_nat k))
  \/ (s <= Z.of_nat k < s + len
      /\ c = calendarCell today events year month true
               (Z.of_nat k - s + 1))
  \/ (s + len <= Z.of_nat k < ceilDiv (s + len) 7 * 7
      /\ c = calendarCell today events (fst (monthAfter year month))
               (snd (monthAfter year month)) false
               (Z.of_nat k - s - len + 1)).
Proof.
  cbv zeta. rewrite calendarCells_eq. cbv zeta.
  pose proof (getDaysInMonth_eq cur) as Hr. cbv zeta in Hr. rewrite Hr.
  cbn [MonthDays.daysInMonth MonthDays.startingDayOfWeek
       MonthDays.prevMonthDays MonthDays.nextMonthDays].
  clear Hr.
  set (year := Date.getFullYear cur).
  set (month := Date.getMonth cur).
  set (y := yearOfDate year).
  pose proof (getDay_range (Date.daysFromCivil y (month + 1) 1)) as Hs.
  set (s := Date.getDay _) in *.
  pose proof (monthLength_range y (month + 1)) as Hlen.
  set (len := monthLength y (month + 1)) in *.
  set (before := monthLength _ _).
  pose proof (ceilDiv_least (s + len)) as Hc.
  set (total := ceilDiv (s + len) 7 * 7) in *.
  intros H.
  destruct (Nat.ltb_spec k (Z.to_nat s)) as [Hk | Hk].
  - left. split; [lia |].
    rewrite nth_error_app1 in H
      by (rewrite !length_map, countDown_length; exact Hk).
    rewrite !nth_error_map, countDown_nth in H by exact Hk.
    cbn [option_map] in H. apply Some_eq in H. subst c.
      f_equal. lia.
  - right.
    rewrite nth_error_app2 in H
      by (rewrite !length_map, countDown_length; exact Hk).
    rewrite !length_map, countDown_length in H.
    destruct (Nat.ltb_spec (k - Z.to_nat s) (Z.to_nat len)) as [Hk2 | Hk2].
    + left. split; [lia |].
      rewrite nth_error_app1 in H
        by (rewrite length_map, countUp_length; exact Hk2).
      rewrite nth_error_map, countUp_nth in H by exact Hk2.
      cbn [option_map] in H. apply Some_eq in H. subst c.
      f_equal. lia.
    + right.
      rewrite nth_error_app2 in H
        by (rewrite length_map, countUp_length; exact Hk2).
      rewrite length_map, countUp_length in H.
      assert (k - Z.to_nat s - Z.to_nat len
              < Z.to_nat (total - (s + len)))%nat as Hk3.
      { pose proof (proj1 (nth_error_Some _ _)
                      ltac:(rewrite H; discriminate)) as Hlt.
        rewrite length_map, countUp_length in Hlt. exact Hlt. }
      split; [lia |].
      rewrite nth_error_map, countUp_nth in H by exact Hk3.
      cbn [option_map] in H. apply Some_eq in H. subst c.
      f_equal. lia.
Qed.





Lemma monthBefore_snd (y m : Z) :
  0 <= m <= 11 ->
  snd (monthBefore y m) <> m /\ snd (monthBefore y m) <> snd (monthAfter y m)
  /\ snd (monthAfter y m) <> m.
Proof.
  intros H. unfold monthBefore, monthAfter.
  destruct (Z.eqb_spec m 0), (Z.eqb_spec m 11); cbn [snd]; lia.
Qed.






Lemma cell_events (today cur : Date.t) (events : list CalendarEvent.t)
  (k : nat) (c : Cell.t) :
  nth_error (calendarCells today cur events) k = Some c ->
  Cell.events c = getEventsForDate events (Cell.dateStr c).
Proof.
  intros H. apply cell_at in H. cbv zeta in H.
  destruct H as [[_ ->] | [[_ ->] | [_ ->]]]; reflexivity.
Qed.

(** Two places of the grid never carry the same date text. *)
Lemma cell_dates_distinct (today cur : Date.t)
  (events : list CalendarEvent.t) (k1 k2 : nat) (c1 c2 : Cell.t) :
  nth_error (calendarCells today cur events) k1 = Some c1 ->
  nth_error (calendarCells today cur events) k2 = Some c2 ->
  Cell.dateStr c1 = Cell.dateStr c2 -> k1 = k2.
Proof.
  intros H1 H2 Hstr. apply cell_at in H1, H2. cbv zeta in H1, H2.
  destruct (date_fields cur) as (Hm & _ & _).
  set (year := Date.getFullYear cur) in *.
  set (m := Date.getMonth cur) in *.
  set (y := yearOfDate year) in *.
  pose proof (monthBefore_range year m Hm) as Hpm.
  pose proof (monthAfter_range year m Hm) as Hnm.
  destruct (monthBefore_snd year m Hm) as (Hne1 & Hne2 & Hne3).
  set (py := fst (monthBefore year m)) in *.
  set (pm := snd (monthBefore year m)) in *.
  set (ny := fst (monthAfter year m)) in *.
  set (nm := snd (monthAfter year m)) in *.
  pose proof (monthLength_range y (m + 1)) as Hlen.
  pose proof (monthLength_range (fst (monthBefore y m))
                (snd (monthBefore y m) + 1)) as Hlenp.
  set (len := monthLength y (m + 1)) in *.
  set (before := monthLength _ _) in *.
  pose proof (getDay_range (Date.daysFromCivil y (m + 1) 1)) as Hs.
  set (s := Date.getDay _) in *.
  pose proof (ceilDiv_least (s + len)) as Hc.
  set (total := ceilDiv (s + len) 7 * 7) in *.
  clearbody total before len s py ny pm nm.
  destruct H1 as [[Hk1 ->] | [[Hk1 ->] | [Hk1 ->]]];
    destruct H2 as [[Hk2 ->] | [[Hk2 ->] | [Hk2 ->]]];
    cbn [calendarCell Cell.dateStr] in Hstr;
    apply formatDateString_inj in Hstr; lia.
Qed.



(** X21. No two cells of a grid carry the same date text, so an event is
    shown in at most one cell. *)
Theorem event_in_one_cell (today cur : Date.t)
  (events : list CalendarEvent.t) (k1 k2 : nat) (c1 c2 : Cell.t) :
  nth_error (calendarCells today cur events) k1 = Some c1 ->
  nth_error (calendarCells today cur events) k2 = Some c2 ->
  (Cell.dateStr c1 = Cell.dateStr c2 -> k1 = k2)
  /\ (forall e, In e (Cell.events c1) -> In e (Cell.events c2) -> k1 = k2).
Proof.
  intros H1 H2.
  split; [apply (cell_dates_distinct today cur events); assumption |].
  intros e He1 He2.
  rewrite (cell_events today cur events k1 c1 H1) in He1.
  rewrite (cell_events today cur events k2 c2 H2) in He2.
  unfold getEventsForDate in He1, He2.
  apply filter_In in He1, He2.
  destruct He1 as [_ E1], He2 as [_ E2]. apply eqb_eq in E1, E2.
  apply (cell_dates_distinct today cur events k1 k2 c1 c2 H1 H2).
  congruence.
Qed.

Lemma january2025_cell (evs : list CalendarEvent.t) :
  nth_error (calendarCells january2025 january2025 evs) 3
  = Some (calendarCell january2025 evs 2025 0 true 1).
Proof. vm_compute. reflexivity. Qed.

Lemma event_in_one_cell_witness :
  exists evs c e,
    events asciiLower sampleTickets = Some evs
    /\ nth_error (calendarCells january2025 january2025 evs) 3 = Some c
    /\ Cell.dateStr c = lit "2025-01-01"
    /\ In e (Cell.events c)
    /\ (3 = 3)%nat.
Proof.
  destruct (events asciiLower sampleTickets) as [evs|] eqn:Hev;
    [| vm_compute in Hev; discriminate Hev].
  pose proof (january2025_cell evs) as Hc.
  set (c := calendarCell january2025 evs 2025 0 true 1) in *.
  assert (exists e, In e (Cell.events c)) as (e & He).
  { subst c. vm_compute in Hev. apply Some_eq in Hev. subst evs.
    vm_compute. eexists. left. reflexivity. }
  exists evs, c, e. split; [reflexivity |]. split; [exact Hc |].
  split; [vm_compute; reflexivity |]. split; [exact He |].
  exact (proj2 (event_in_one_cell january2025 january2025 evs 3 3 c c Hc Hc)
           e He He).
Defined.



(** ** Initials and avatars *)

(** The parts are words when [s], if not empty, ends without white space,
    and the part being read, if empty, is followed by more: by anything
    after white space, by no white space otherwise. *)
Lemma splitOn_words (s : jsstring) :
  forall (inGap : bool) (cur : jsstring),
    Forall (fun c => isWhiteSpace c = false) cur ->
    (forall c, hd_error (rev s) = Some c -> isWhiteSpace c = false) ->
    (cur = [] ->
     exists c rest,
       s = c :: rest /\ (inGap = false -> isWhiteSpace c = false)) ->
    Forall isWord (splitOn inGap cur s).
Proof.
  induction s as [|c rest IH]; intros inGap cur Hcur Hlast Hnext;
    cbn [splitOn].
  - constructor; [| constructor]. split; [| exact Hcur].
    intros E. destruct (Hnext E) as (c & rest & Hs & _). discriminate.
  - assert (Hrest : forall c', hd_error (rev rest) = Some c' ->
                               isWhiteSpace c' = false).
    { intros c' Hc'. apply Hlast. cbn [rev].
      destruct (rev rest); [discriminate | exact Hc']. }
    assert (Hmore : isWhiteSpace c = true ->
                    exists c' rest', rest = c' :: rest').
    { intros Hws. destruct rest as [|c' rest']; [| eauto].
      rewrite (Hlast c eq_refl) in Hws. discriminate. }
    destruct (isWhiteSpace c) eqn:Hc.
    + destruct (Hmore eq_refl) as (c' & rest' & Erest).
      destruct inGap.
      * apply IH; [exact Hcur | exact Hrest |].
        intros _. exists c', rest'. split; [exact Erest | discriminate].
      * constructor.
        -- split; [| exact Hcur]. intros E.
           destruct (Hnext E) as (c0 & rest0 & [= <- <-] & Hc0).
           rewrite (Hc0 eq_refl) in Hc. discriminate.
        -- apply IH; [constructor | exact Hrest |].
           intros _. exists c', rest'. split; [exact Erest | discriminate].
    + apply IH; [| exact Hrest |].
      * apply Forall_app. split; [exact Hcur |].
        constructor; [exact Hc | constructor].
      * intros E. destruct cur; discriminate.
Qed.

(** Outside of a gap, the first part starts with the part being read. *)
Lemma splitOn_first (s cur : jsstring) :
  exists w parts, splitOn false cur s = (cur ++ w) :: parts.
Proof.
  revert cur; induction s as [|c rest IH]; intros cur; cbn [splitOn].
  - exists [], []. rewrite app_nil_r. reflexivity.
  - destruct (isWhiteSpace c).
    + exists [], (splitOn true [] rest). rewrite app_nil_r. reflexivity.
    + destruct (IH (cur ++ [c])) as (w & parts & ->).
      exists (c :: w), parts. rewrite <- app_assoc. reflexivity.
Qed.

Lemma index_last {A} (l : list A) (x : A) :
  index (l ++ [x]) (Z.of_nat (List.length (l ++ [x])) - 1) = Some x.
Proof.
  unfold index. rewrite length_app. cbn [List.length].
  destruct (Z.ltb_spec (Z.of_nat (List.length l + 1) - 1) 0); [lia |].
  replace (Z.to_nat (Z.of_nat (List.length l + 1) - 1))
    with (List.length l) by lia.
  rewrite nth_error_app2, Nat.sub_diag by lia. reflexivity.
Qed.

Section InitialsFacts.

Variable toUpperCase : jsstring -> jsstring.

(** The parts that [getInitials] reads: one empty part for a name of white
    space only, the words of the name otherwise, the first of which starts
    with the first code unit of the trimmed name. *)
Lemma parts_of_name (name : jsstring) :
  let parts := splitWhiteSpace (trim name) in
  (trim name = [] /\ parts = [[]])
  \/ (exists a rest w more,
        trim name = a :: rest /\ parts = (a :: w) :: more
        /\ Forall isWord parts).
Proof.
  cbv zeta. unfold splitWhiteSpace.
  destruct (TicketFlows.trim_stripped name) as (_ & Hhd & Hlast).
  destruct (trim name) as [|a rest] eqn:E; [left; auto |].
  right. pose proof (Hhd a eq_refl) as Ha.
  assert (Forall isWord (splitOn false [] (a :: rest))) as Hwords.
  { apply splitOn_words; [constructor | exact Hlast |].
    intros _. exists a, rest. auto. }
  cbn [splitOn] in Hwords |- *. rewrite Ha in Hwords |- *.
  cbn [app] in Hwords |- *.
  destruct (splitOn_first rest [a]) as (w & more & Hsplit).
  rewrite Hsplit in Hwords |- *.
  exists a, rest, w, more. auto.
Qed.

Lemma getInitials_defined (name : jsstring) :
  exists initials, Avatar.getInitials toUpperCase name = Some initials.
Proof.
  unfold Avatar.getInitials. cbv zeta.
  destruct (parts_of_name name)
    as [[_ ->] | (a & rest & w & more & _ & Hparts & Hwords)].
  - cbn. eauto.
  - rewrite Hparts in *.
    destruct more as [|p more] using rev_ind; [cbn; eauto |].
    assert (isWord p) as [Hp _].
    { rewrite Forall_forall in Hwords. apply Hwords.
      right. apply in_or_app. right. left. reflexivity. }
    destruct p as [|b v]; [contradiction |].
    change ((a :: w) :: more ++ [b :: v])
      with (((a :: w) :: more) ++ [b :: v]).
    rewrite index_last.
    match goal with
    | |- context [if ?c then _ else _] => destruct c
    end; cbn; eauto.
Qed.

(** X23. [getInitials] always returns initials: it never reads the first
    character of an empty part. With two or more parts the parts are the
    words of the name, and the initials are the upper case of the first
    code unit of the name without white space around it and of the first
    code unit of the last word. With fewer parts they are the upper case
    of the first two code units of the name as given, white space
    included. *)
Theorem initials_of_name (name : jsstring) :
  let parts := splitWhiteSpace (trim name) in
  exists initials,
    Avatar.getInitials toUpperCase name = Some initials
    /\ ((2 <= List.length parts)%nat ->
        Forall isWord parts
        /\ exists a b w,
             initials = toUpperCase [a; b]
             /\ hd_error (trim name) = Some a
             /\ List.last parts [] = b :: w)
    /\ ((List.length parts < 2)%nat ->
        initials = toUpperCase (firstn 2 name)).
Proof.
  cbv zeta. unfold Avatar.getInitials. cbv zeta.
  destruct (parts_of_name name)
    as [[_ ->] | (a & rest & w & more & Htrim & Hparts & Hwords)].
  - cbn. eexists. split; [reflexivity |]. split; [lia | reflexivity].
  - rewrite Hparts in *. rewrite Htrim.
    destruct more as [|p more] using rev_ind.
    + cbn. eexists. split; [reflexivity |].
      split; [lia | reflexivity].
    + clear IHmore.
      assert (isWord p) as [Hp _].
      { rewrite Forall_forall in Hwords. apply Hwords.
        right. apply in_or_app. right. left. reflexivity. }
      destruct p as [|b v]; [contradiction |].
      change ((a :: w) :: more ++ [b :: v])
        with (((a :: w) :: more) ++ [b :: v]) in *.
      rewrite index_last. rewrite length_app. cbn [List.length].
      destruct (Z.leb_spec 2 (Z.of_nat (S (List.length more) + 1)));
        [| lia].
      cbn [index Z.ltb Z.compare Z.to_nat nth_error app].
      eexists. split; [reflexivity |].
      split; [| lia]. intros _. split; [exact Hwords |].
      exists a, b, v. split; [reflexivity | split; [reflexivity |]].
      change (List.last (((a :: w) :: more) ++ [b :: v]) [] = b :: v).
      apply last_last.
Qed.

Lemma getUserColor_defined (userId : Z) :
  0 <= userId ->
  exists c, Avatar.getUserColor userId = Some c /\ c <> [].
Proof.
  intros Hu.
  destruct (index_in_range Avatar.colors
              (remainder userId (Z.of_nat (List.length Avatar.colors))))
    as (c & Hc & Hin).
  { change (Z.of_nat (List.length Avatar.colors)) with 16.
    unfold remainder. apply Z.rem_bound_pos; lia. }
  exists c. split; [exact Hc |].
  assert (Forall (fun c => c <> []) Avatar.colors) as Hall
    by (repeat constructor; discriminate).
  rewrite Forall_forall in Hall. apply Hall, Hin.
Qed.

(** X24. [UserAvatar] always renders: "?" without a user, the picture of a
    user that has one, and otherwise the initials on a background color.
    Stored initials and a stored color that are not empty are used as they
    are, the initials are computed from the name otherwise, and a user
    whose id is not negative always has a background color that is not
    empty. *)
Theorem avatar_renders (user : option Avatar.User.t) :
  exists view,
    Avatar.UserAvatar toUpperCase user = Some view
    /\ (user = None -> view = Avatar.Unknown)
    /\ (forall u, user = Some u ->
        (exists url,
           Avatar.User.avatar_url u = Some url /\ url <> []
           /\ view = Avatar.Image url (Avatar.User.name u))
        \/ (truthy (Avatar.User.avatar_url u) = false
            /\ exists color initials,
                 view = Avatar.Badge color initials
                 /\ (forall i, Avatar.User.initials u = Some i -> i <> [] ->
                     initials = i)
                 /\ (truthy (Avatar.User.initials u) = false ->
                     Avatar.getInitials toUpperCase (Avatar.User.name u)
                     = Some initials)
                 /\ (forall c, Avatar.User.color u = Some c -> c <> [] ->
                     color = Some c)
                 /\ (0 <= Avatar.User.id u ->
                     exists c, color = Some c /\ c <> []))).
Proof.
  destruct user as [u|]; cbn [Avatar.UserAvatar].
  2: { exists Avatar.Unknown. split; [reflexivity |].
       split; [reflexivity | discriminate]. }
  cbv zeta.
  destruct (getInitials_defined (Avatar.User.name u)) as (computed & Hi).
  set (initials := if truthy (Avatar.User.initials u)
                   then Avatar.User.initials u
                   else Avatar.getInitials toUpperCase (Avatar.User.name u)).
  set (color := if truthy (Avatar.User.color u) then Avatar.User.color u
                else Avatar.getUserColor (Avatar.User.id u)).
  assert (exists i, initials = Some i
            /\ (forall i', Avatar.User.initials u = Some i' -> i' <> [] ->
                i = i')
            /\ (truthy (Avatar.User.initials u) = false ->
                Avatar.getInitials toUpperCase (Avatar.User.name u) = Some i))
    as (i & Ei & Hstored & Hcomputed).
  { subst initials.
    destruct (Avatar.User.initials u) as [[|c0 i0]|] eqn:E;
      cbn [truthy nonEmpty].
    - exists computed. split; [exact Hi |].
      split; [intros i' [= <-] H; contradiction | intros _; exact Hi].
    - exists (c0 :: i0). split; [reflexivity |].
      split; [intros i' [= <-] _; reflexivity | discriminate].
    - exists computed. split; [exact Hi |].
      split; [discriminate | intros _; exact Hi]. }
  assert ((forall c, Avatar.User.color u = Some c -> c <> [] ->
           color = Some c)
          /\ (0 <= Avatar.User.id u -> exists c, color = Some c /\ c <> []))
    as (Hcolor & Hdefined).
  { subst color.
    destruct (Avatar.User.color u) as [[|c0 k]|] eqn:E; cbn [truthy nonEmpty].
    - split; [intros c [= <-] H; contradiction |].
      apply getUserColor_defined.
    - split; [intros c [= <-] _; reflexivity |].
      intros _. exists (c0 :: k). split; [reflexivity | discriminate].
    - split; [discriminate | apply getUserColor_defined]. }
  rewrite Ei. clearbody initials color.
  destruct (Avatar.User.avatar_url u) as [[|c0 url]|] eqn:Eurl;
    cbn [nonEmpty truthy].
  - exists (Avatar.Badge color i). split; [reflexivity |].
    split; [discriminate |]. intros u' [= <-]. right.
    rewrite Eurl. split; [reflexivity |]. exists color, i. auto.
  - exists (Avatar.Image (c0 :: url) (Avatar.User.name u)).
    split; [reflexivity |]. split; [discriminate |].
    intros u' [= <-]. left. exists (c0 :: url).
    rewrite Eurl. split; [reflexivity | split; [discriminate | reflexivity]].
  - exists (Avatar.Badge color i). split; [reflexivity |].
    split; [discriminate |]. intros u' [= <-]. right.
    rewrite Eurl. split; [reflexivity |]. exists color, i. auto.
Qed.

End InitialsFacts.

Lemma initials_of_name_witness :
  Avatar.getInitials asciiUpper (lit " ada  king lovelace ")
  = Some (lit "AL")
  /\ Avatar.getInitials asciiUpper (lit "  ada") = Some (lit "  ").
Proof.
  destruct (initials_of_name asciiUpper (lit " ada  king lovelace "))
    as (i & Hi & Hmany & _).
  destruct (initials_of_name asciiUpper (lit "  ada"))
    as (j & Hj & _ & Hfew).
  rewrite Hi, Hj. split; f_equal.
  - destruct (Hmany ltac:(vm_compute; lia))
      as (_ & a & b & w & -> & Ha & Hb).
    vm_compute in Ha, Hb. injection Ha as <-. injection Hb as <- _.
    vm_compute. reflexivity.
  - rewrite (Hfew ltac:(vm_compute; lia)). vm_compute. reflexivity.
Defined.

Lemma avatar_renders_witness :
  Avatar.UserAvatar asciiUpper (Some ada)
  = Some (Avatar.Badge (Some (lit "#06b6d4")) (lit "AL")).
Proof.
  destruct (avatar_renders asciiUpper (Some ada))
    as (view & Hview & _ & Huser).
  rewrite Hview. f_equal.
  destruct (Huser ada eq_refl)
    as [(url & Hurl & _) | (_ & color & i & -> & _ & Hi & _ & Hc)].
  - discriminate Hurl.
  - specialize (Hi eq_refl). vm_compute in Hi. injection Hi as <-.
    destruct (Hc ltac:(vm_compute; discriminate)) as (c & -> & _).
    vm_compute in Hview. injection Hview as <-. reflexivity.
Defined.

(** ** The label picker and its dropdown *)

Lemma of_uint_acc_value (d : Decimal.uint) (acc : positive) :
  Z.pos (Pos.of_uint_acc d acc) = uintValue (Z.pos acc) d.
Proof.
  revert acc; induction d; intros acc; cbn [Pos.of_uint_acc uintValue];
    try reflexivity; rewrite IHd; f_equal; lia.
Qed.

Lemma of_uint_value (d : Decimal.uint) :
  Z.of_N (Pos.of_uint d) = uintValue 0 d.
Proof.
  induction d; cbn [Pos.of_uint uintValue]; try reflexivity;
    try exact IHd; cbn [Z.of_N]; rewrite of_uint_acc_value; reflexivity.
Qed.

Lemma parseDigits_uint (d : Decimal.uint) (acc : Z) :
  parseDigits 10 (Some acc) (lit (NilEmpty.string_of_uint d))
  = Some (uintValue acc d).
Proof.
  revert acc; induction d; intros acc;
    cbn [NilEmpty.string_of_uint lit uintValue parseDigits];
    try reflexivity.
  all: match goal with
       | |- context [digitValue 10 (charCode ?a)] =>
           change (digitValue 10 (charCode a))
             with (Some (charCode a - 48))
       end; cbv beta iota; rewrite IHd; reflexivity.
Qed.

Lemma digit_not_space (c : Z) : isDigit c -> isWhiteSpace c = false.
Proof.
  unfold isDigit. intros H.
  assert (forallb (fun i => negb (isWhiteSpace (48 + Z.of_nat i)))
                  (seq 0 10) = true) as Hall by (vm_compute; reflexivity).
  rewrite forallb_forall in Hall.
  specialize (Hall (Z.to_nat (c - 48))).
  replace (48 + Z.of_nat (Z.to_nat (c - 48))) with c in Hall by lia.
  apply negb_true_iff, Hall, in_seq. lia.
Qed.

(** The digits of a number: a run that is not empty. *)
Lemma uint_text (d : Decimal.uint) :
  d <> Decimal.Nil ->
  exists c rest,
    lit (NilEmpty.string_of_uint d) = c :: rest
    /\ isDigit c /\ Forall isDigit rest.
Proof.
  intros Hd. pose proof (uint_digits d) as Hall.
  destruct d; try contradiction;
    cbn [NilEmpty.string_of_uint lit] in *;
    inversion Hall; subst; eauto.
Qed.

Lemma digits_not_hex (c : Z) (rest : jsstring) :
  Forall isDigit rest ->
  startsWith (c :: rest) (lit "0x") || startsWith (c :: rest) (lit "0X")
  = false.
Proof.
  intros Hrest.
  assert (forall x, x = 120 \/ x = 88 ->
            startsWith (c :: rest) [48; x] = false) as Hx.
  { intros x Hx. destruct rest as [|c2 rest]; cbn [startsWith].
    - apply andb_false_r.
    - inversion Hrest as [|? ? Hc2 _]; subst. unfold isDigit in Hc2.
      destruct (Z.eqb_spec x c2); [lia |]. cbn [andb].
      apply andb_false_r. }
  change (lit "0x") with [48; 120]. change (lit "0X") with [48; 88].
  rewrite !Hx by auto. reflexivity.
Qed.

(** [parseInt] on a run of digits that is not empty, alone and after a
    minus sign. *)
Lemma parseInt_digits (c : Z) (rest : jsstring) :
  isDigit c -> Forall isDigit rest ->
  parseInt (c :: rest) = parseDigits 10 None (c :: rest).
Proof.
  intros Hc Hrest. unfold parseInt. cbn [trimStart].
  rewrite (digit_not_space c Hc). cbv zeta.
  assert (startsWith (c :: rest) (lit "-") = false) as ->.
  { cbn [lit startsWith]. change (charCode "-") with 45.
    unfold isDigit in Hc. destruct (Z.eqb_spec 45 c); [lia | reflexivity]. }
  assert (startsWith (c :: rest) (lit "+") = false) as ->.
  { cbn [lit startsWith]. change (charCode "+") with 43.
    unfold isDigit in Hc. destruct (Z.eqb_spec 43 c); [lia | reflexivity]. }
  cbn [orb]. rewrite (digits_not_hex c rest Hrest).
  destruct (parseDigits 10 None (c :: rest)); cbn [option_map];
    [f_equal; lia | reflexivity].
Qed.

Lemma parseInt_minus (c : Z) (rest : jsstring) :
  isDigit c -> Forall isDigit rest ->
  parseInt (45 :: c :: rest)
  = option_map Z.opp (parseDigits 10 None (c :: rest)).
Proof.
  intros Hc Hrest. unfold parseInt. cbn [trimStart].
  change (isWhiteSpace 45) with false. cbv zeta.
  change (startsWith (45 :: c :: rest) (lit "-")) with true.
  rewrite orb_true_r. cbn [skipn].
  rewrite (digits_not_hex c rest Hrest).
  destruct (parseDigits 10 None (c :: rest)); cbn [option_map];
    [f_equal; lia | reflexivity].
Qed.

Lemma digitValue_digit (c : Z) :
  isDigit c -> digitValue 10 c = Some (c - 48).
Proof.
  unfold isDigit, digitValue. intros H.
  destruct (Z.leb_spec 48 c), (Z.leb_spec c 57); try lia. cbn [andb].
  destruct (Z.ltb_spec (c - 48) 10); [reflexivity | lia].
Qed.

Lemma parseDigits_start (c : Z) (rest : jsstring) :
  isDigit c ->
  parseDigits 10 None (c :: rest) = parseDigits 10 (Some 0) (c :: rest).
Proof.
  intros H. cbn [parseDigits]. rewrite (digitValue_digit c H).
  reflexivity.
Qed.

(** [parseInt] reads back the text of an integer. *)
Lemma parseInt_toString (n : Z) : parseInt (toString n) = Some n.
Proof.
  unfold toString. destruct n as [|p|p]; cbn [Z.to_int].
  - vm_compute. reflexivity.
  - cbn [NilZero.string_of_int]. unfold NilZero.string_of_uint.
    pose proof (DecimalPos.Unsigned.to_uint_nonnil p) as Hnil.
    pose proof (DecimalPos.Unsigned.of_to p) as Hof.
    destruct (Pos.to_uint p) eqn:E; try contradiction; rewrite <- E in *.
    all: destruct (uint_text _ Hnil) as (c & rest & Htext & Hc & Hrest).
    all: rewrite Htext, (parseInt_digits c rest Hc Hrest).
    all: rewrite (parseDigits_start c rest Hc), <- Htext.
    all: rewrite parseDigits_uint, <- of_uint_value, Hof; reflexivity.
  - cbn [NilZero.string_of_int lit]. change (charCode "-") with 45.
    unfold NilZero.string_of_uint.
    pose proof (DecimalPos.Unsigned.to_uint_nonnil p) as Hnil.
    pose proof (DecimalPos.Unsigned.of_to p) as Hof.
    destruct (Pos.to_uint p) eqn:E; try contradiction; rewrite <- E in *.
    all: destruct (uint_text _ Hnil) as (c & rest & Htext & Hc & Hrest).
    all: rewrite Htext, (parseInt_minus c rest Hc Hrest).
    all: rewrite (parseDigits_start c rest Hc), <- Htext.
    all: rewrite parseDigits_uint, <- of_uint_value, Hof; reflexivity.
Qed.

Lemma includesId_In (ids : list Z) (id : Z) :
  Labels.includesId ids id = true <-> In id ids.
Proof.
  unfold Labels.includesId. rewrite existsb_exists. split.
  - intros (x & Hin & E). apply Z.eqb_eq in E. subst x. exact Hin.
  - intros Hin. exists id. split; [exact Hin | apply Z.eqb_refl].
Qed.

Section LabelFacts.

Variable toLowerCase : jsstring -> jsstring.

Lemma offered_iff (availableLabels : list Labels.Label.t)
  (selectedLabelIds : list Z) (searchQuery : jsstring)
  (opt : Dropdown.Option.t) :
  In opt (Dropdown.filteredOptions toLowerCase true
            (Labels.availableOptions selectedLabelIds availableLabels)
            searchQuery)
  <-> exists label,
        In label availableLabels
        /\ ~ In (Labels.Label.id label) selectedLabelIds
        /\ includes (toLowerCase (Labels.Label.name label))
                    (toLowerCase searchQuery) = true
        /\ opt = optionOf label.
Proof.
  unfold Dropdown.filteredOptions, Labels.availableOptions.
  rewrite filter_In, in_map_iff. split.
  - intros [(label & <- & Hin) Hq]. apply filter_In in Hin.
    destruct Hin as [Hin Hsel]. apply negb_true_iff in Hsel.
    exists label. split; [exact Hin |]. split.
    + rewrite <- includesId_In. congruence.
    + split; [exact Hq | reflexivity].
  - intros (label & Hin & Hsel & Hq & ->). split; [| exact Hq].
    exists label. split; [reflexivity |]. apply filter_In.
    split; [exact Hin |]. apply negb_true_iff.
    destruct (Labels.includesId selectedLabelIds (Labels.Label.id label))
      eqn:E; [| reflexivity].
    apply includesId_In in E. contradiction.
Qed.

(** X25. The options that the label picker offers under a search are the
    options of the labels that are not selected and whose lower-cased name
    contains the lower-cased search text. Choosing an offered option calls
    [onSelect] once with the id of its label, closes the list and clears
    the search, except for a label with the id 0, for which [onSelect] is
    not called. Without a search text every label is either shown as
    selected or offered, never both. *)
Theorem offered_labels (availableLabels : list Labels.Label.t)
  (selectedLabelIds : list Z) (searchQuery : jsstring) :
  let offered query :=
    Dropdown.filteredOptions toLowerCase true
      (Labels.availableOptions selectedLabelIds availableLabels) query in
  let shown := Labels.selectedLabels selectedLabelIds availableLabels in
  (forall opt,
     In opt (offered searchQuery)
     <-> exists label,
           In label availableLabels
           /\ ~ In (Labels.Label.id label) selectedLabelIds
           /\ includes (toLowerCase (Labels.Label.name label))
                       (toLowerCase searchQuery) = true
           /\ opt = optionOf label)
  /\ (forall label,
        In (optionOf label) (offered searchQuery) ->
        Dropdown.handleSelect (Labels.handleSelect selectedLabelIds)
          (Dropdown.Option.value (optionOf label))
        = ((if Labels.Label.id label =? 0 then []
            else [Labels.Label.id label], false),
           Dropdown.State.mk false []))
  /\ (toLowerCase [] = [] ->
      forall label,
        In label availableLabels ->
        (In label shown /\ ~ In (optionOf label) (offered []))
        \/ (~ In label shown /\ In (optionOf label) (offered []))).
Proof.
  cbv zeta. split; [intros opt; apply offered_iff |]. split.
  - intros label Hin. apply offered_iff in Hin.
    destruct Hin as (label' & _ & Hsel & _ & Heq).
    assert (Labels.Label.id label = Labels.Label.id label') as Hid.
    { apply toString_inj. unfold optionOf in Heq. congruence. }
    rewrite <- Hid in Hsel.
    unfold Dropdown.handleSelect, Labels.handleSelect. cbv zeta.
    cbn [optionOf Dropdown.Option.value]. rewrite parseInt_toString.
    assert (Labels.includesId selectedLabelIds (Labels.Label.id label)
            = false) as ->.
    { destruct (Labels.includesId selectedLabelIds (Labels.Label.id label))
        eqn:E; [| reflexivity].
      apply includesId_In in E. contradiction. }
    destruct (Labels.Label.id label =? 0); reflexivity.
  - intros Hempty label Hin. unfold Labels.selectedLabels.
    rewrite filter_In, includesId_In.
    destruct (Labels.includesId selectedLabelIds (Labels.Label.id label))
      eqn:E.
    + apply includesId_In in E. left. split; [auto |].
      intros Hoff. apply offered_iff in Hoff.
      destruct Hoff as (label' & _ & Hsel & _ & Heq).
      assert (Labels.Label.id label = Labels.Label.id label') as Hid.
      { apply toString_inj. unfold optionOf in Heq. congruence. }
      rewrite <- Hid in Hsel. contradiction.
    + assert (~ In (Labels.Label.id label) selectedLabelIds) as Hsel.
      { intros H. apply includesId_In in H. congruence. }
      right. split; [tauto |].
      apply offered_iff. exists label. split; [exact Hin |].
      split; [exact Hsel |]. split; [| reflexivity].
      rewrite Hempty. apply TicketFlows.includes_nil.
Qed.

End LabelFacts.

Lemma offered_labels_witness :
  let options :=
    Dropdown.filteredOptions asciiLower true
      (Labels.availableOptions [2] sampleLabels) (lit "B") in
  In (optionOf bugLabel) options
  /\ Dropdown.handleSelect (Labels.handleSelect [2])
       (Dropdown.Option.value (optionOf bugLabel))
     = (([], false), Dropdown.State.mk false [])
  /\ Dropdown.handleSelect (Labels.handleSelect [2])
       (Dropdown.Option.value (optionOf backendLabel))
     = (([1], false), Dropdown.State.mk false []).
Proof.
  cbv zeta.
  destruct (offered_labels asciiLower sampleLabels [2] (lit "B"))
    as (Hiff & Hselect & _).
  assert (forall label,
            In label [bugLabel; backendLabel] ->
            In (optionOf label)
               (Dropdown.filteredOptions asciiLower true
                  (Labels.availableOptions [2] sampleLabels) (lit "B")))
    as Hin.
  { intros label Hlabel. apply Hiff. exists label.
    destruct Hlabel as [<- | [<- | []]];
      (split; [cbn; tauto |]);
      (split; [cbn; lia |]);
      (split; [vm_compute; reflexivity | reflexivity]). }
  split; [apply Hin; left; reflexivity |].
  split.
  - exact (Hselect bugLabel (Hin bugLabel (or_introl eq_refl))).
  - exact (Hselect backendLabel
             (Hin backendLabel (or_intror (or_introl eq_refl)))).
Defined.

(** ** What a cell shows of its events *)

(** X26. A cell shows the first three events of its day in their order and
    counts the others in "+n more": there is no such line for up to three
    events, and for more than three the line gives the number of events
    that are not shown, so that every event of the day is shown or
    counted. *)
Theorem cell_shows_or_counts (events : list CalendarEvent.t) :
  let shown := visibleEvents events in
  events = shown ++ skipn MAX_VISIBLE_EVENTS events
  /\ ((List.length events <= 3)%nat ->
      shown = events /\ moreCount events = None)
  /\ ((3 < List.length events)%nat ->
      List.length shown = 3%nat
      /\ moreCount events
         = Some (Z.of_nat (List.length (skipn MAX_VISIBLE_EVENTS events)))
      /\ (0 < List.length (skipn MAX_VISIBLE_EVENTS events))%nat).
Proof.
  cbv zeta. unfold visibleEvents, moreCount.
  split; [symmetry; apply firstn_skipn |].
  rewrite length_skipn, length_firstn.
  change (Z.of_nat MAX_VISIBLE_EVENTS) with 3.
  change MAX_VISIBLE_EVENTS with 3%nat.
  split; intros Hlen.
  - split; [apply firstn_all2; exact Hlen |].
    destruct (Z.ltb_spec 3 (Z.of_nat (List.length events)));
      [lia | reflexivity].
  - split; [lia |].
    destruct (Z.ltb_spec 3 (Z.of_nat (List.length events))); [| lia].
    split; [f_equal; lia | lia].
Qed.

Lemma cell_shows_or_counts_witness :
  exists evs,
    events asciiLower sampleTickets = Some evs
    /\ List.length (visibleEvents evs) = 3%nat
    /\ moreCount evs = Some 1.
Proof.
  destruct (events asciiLower sampleTickets) as [evs|] eqn:Hev;
    [| vm_compute in Hev; discriminate Hev].
  assert (List.length evs = 4%nat) as Hlen.
  { vm_compute in Hev. apply Some_eq in Hev. subst evs. reflexivity. }
  destruct (cell_shows_or_counts evs) as (_ & _ & Hmore).
  destruct (Hmore ltac:(lia)) as (Hshown & Hcount & _).
  exists evs. split; [reflexivity |]. split; [exact Hshown |].
  rewrite Hcount, length_skipn, Hlen. reflexivity.
Defined.

(** ** The heading of the grid and the recording time *)

(** X27. The heading of the grid always has a month name: for every date
    [monthNames[currentDate.getMonth()]] is one of the twelve names, the
    name at the place of the month of the date. *)
Theorem heading_month_named (currentDate : Date.t) :
  exists name,
    headingMonth currentDate = Some name
    /\ nth_error monthNames (Z.to_nat (Date.getMonth currentDate))
       = Some name
    /\ name <> []
    /\ forall y m d,
         validDate y m d ->
         headingMonth (Date.daysFromCivil y m d)
         = nth_error monthNames (Z.to_nat (m - 1)).
Proof.
  destruct (date_fields currentDate) as (Hm & _ & _).
  destruct (index_in_range monthNames (Date.getMonth currentDate))
    as (name & Hname & Hin).
  { change (Z.of_nat (List.length monthNames)) with 12. lia. }
  exists name. unfold headingMonth. split; [exact Hname |].
  split; [| split].
  - unfold index in Hname.
    destruct (Date.getMonth currentDate <? 0); [discriminate | exact Hname].
  - assert (Forall (fun n => n <> []) monthNames) as Hall
      by (repeat constructor; discriminate).
    rewrite Forall_forall in Hall. apply Hall, Hin.
  - intros y m d Hvalid. unfold Date.getMonth.
    rewrite (civil_of_days y m d Hvalid). cbn [fst snd]. unfold index.
    destruct Hvalid as [Hmonth _].
    destruct (Z.ltb_spec (m - 1) 0); [lia | reflexivity].
Qed.

Lemma heading_month_named_witness :
  headingMonth (Date.daysFromCivil 2024 2 29) = Some (lit "February").
Proof.
  destruct (heading_month_named (Date.daysFromCivil 2024 2 29))
    as (name & _ & _ & _ & Hcivil).
  rewrite (Hcivil 2024 2 29).
  - reflexivity.
  - split; [lia | vm_compute; split; discriminate].
Defined.

Lemma formatTime_parts (seconds : Z) :
  0 <= seconds ->
  Voice.formatTime seconds
  = toString (seconds / 60)
    ++ [58; 48 + (seconds mod 60) / 10; 48 + (seconds mod 60) mod 10].
Proof.
  intros H. unfold Voice.formatTime, remainder. cbv zeta.
  rewrite Z.rem_mod_nonneg by lia.
  pose proof (Z.mod_pos_bound seconds 60 ltac:(lia)).
  rewrite padStart2_digits by lia. reflexivity.
Qed.

(** X28. For a time that is not negative, [formatTime] shows the whole
    minutes, a colon and the seconds left over on two digits, and two
    times with the same text are the same time. *)
Theorem formatTime_reads_back (seconds : Z) :
  0 <= seconds ->
  (exists a b,
     Voice.formatTime seconds = toString (seconds / 60) ++ [58; a; b]
     /\ isDigit a /\ isDigit b
     /\ (a - 48) * 10 + (b - 48) = seconds mod 60)
  /\ forall other,
       0 <= other ->
       Voice.formatTime other = Voice.formatTime seconds ->
       other = seconds.
Proof.
  intros H. rewrite (formatTime_parts seconds H). split.
  - exists (48 + (seconds mod 60) / 10), (48 + (seconds mod 60) mod 10).
    split; [reflexivity |]. unfold isDigit. div_lia.
  - intros other Ho. rewrite (formatTime_parts other Ho). intros E.
    apply app_inj_suffix in E; [| reflexivity].
    destruct E as [Emin E]. apply toString_inj in Emin.
    pose proof (f_equal (fun l => nth 1 l 0) E) as Ea.
    pose proof (f_equal (fun l => nth 2 l 0) E) as Eb.
    cbn [nth] in Ea, Eb. clear E. div_lia.
Qed.

Lemma formatTime_reads_back_witness :
  Voice.formatTime 125 = lit "2:05".
Proof.
  destruct (formatTime_reads_back 125 ltac:(lia))
    as [(a & b & -> & Ha & Hb & Hsum) _].
  unfold isDigit in Ha, Hb.
  change (125 mod 60) with 5 in Hsum.
  assert (a = 48 /\ b = 53) as [-> ->] by lia.
  reflexivity.
Defined.

(** ** The projection, by date parts *)

Lemma datePart_spec (s : jsstring) : datePartOf s (datePart s).
Proof.
  unfold datePartOf, datePart. change (lit "T") with [84].
  induction s as [|c s [Hno Hs]]; cbn [beforeFirst].
  - split; [intros [] | left; reflexivity].
  - destruct (Z.eqb_spec c 84) as [-> | Hc].
    + split; [intros [] | right; exists s; reflexivity].
    + split.
      * intros [E | Hin]; [exact (Hc E) | exact (Hno Hin)].
      * destruct Hs as [Hs | (time & Hs)].
        -- left. f_equal. exact Hs.
        -- right. exists time. cbn [app]. f_equal. exact Hs.
Qed.

Lemma datePartOf_unique (s d : jsstring) :
  datePartOf s d -> d = datePart s.
Proof.
  intros [Hno [-> | (time & ->)]]; unfold datePart; symmetry.
  - apply beforeFirst_none, Hno.
  - change (lit "T" ++ time) with (84 :: time).
    apply beforeFirst_app, Hno.
Qed.

Lemma isoDate_part (s d : jsstring) :
  isoDate d -> s = d \/ (exists time, s = d ++ lit "T" ++ time) ->
  s <> [] /\ datePartOf s d.
Proof.
  intros (y1 & y2 & y3 & y4 & m1 & m2 & d1 & d2 & -> & Hdigits) Hs.
  split.
  - destruct Hs as [-> | (time & ->)]; discriminate.
  - split; [| exact Hs].
    rewrite Forall_forall in Hdigits. unfold isDigit in Hdigits.
    cbn [In]. intros H.
    repeat (destruct H as [H | H];
            [first [discriminate H
                   | pose proof (Hdigits 84) as Hd; cbn [In] in Hd;
                     assert (48 <= 84 <= 57) by (apply Hd; tauto); lia]
            |]).
    exact H.
Qed.

Lemma eventOf_eventFor (t : Ticket.t) (e : CalendarEvent.t) :
  eventOf t e -> eventFor t e.
Proof.
  intros [Hid [(s & Hs & Hne & Hd & Hi) | (x & Hx & Hne & Hd & Hi)]];
    (split; [exact Hid |]); [left; exists s | right; exists x];
    rewrite Hd; repeat split; auto; apply datePart_spec.
Qed.

Lemma plannedOn_onDate (t : Ticket.t) (d : jsstring) :
  plannedOn t d -> onDate t d.
Proof.
  intros (s & [Hs | Hs] & Hne & Hd); apply datePartOf_unique in Hd;
    [left | right]; exists s; auto.
Qed.

Lemma produced_projected (t : Ticket.t) (es : list CalendarEvent.t) :
  produced t es -> projected t es.
Proof.
  intros (Hall & Hlen & Hnodup & Htwo).
  split; [| split; [exact Hlen | split; [exact Hnodup |]]].
  - eapply Forall_impl; [| exact Hall]. apply eventOf_eventFor.
  - intros H. destruct (Htwo H) as (s & x & Hs & Hns & Hx & Hnx & Hd).
    exists s, x, (datePart s), (datePart x).
    repeat split; auto; apply datePart_spec.
Qed.

Section ProjectionByDate.

Variable toLowerCase : jsstring -> jsstring.

(** C1. The projection returns for every list of tickets. Each of its
    events is an event for a ticket of the list, dated with the date part
    of a date of that ticket that is set, the date part being the text up
    to the first "T". For each ticket of the list and each date part of a
    date of it that is set there is an event with the id of the ticket
    whose [date] is that date part; when no two tickets share an id that
    event is made from the ticket itself. In particular a date written
    YYYY-MM-DD, alone or followed by "T" and a time, has the event under
    YYYY-MM-DD. A ticket with neither date adds nothing, and
    [getEventsForDate] keeps exactly the events of the date asked for. *)
Theorem events_bucketed_by_date (tickets : list Ticket.t) :
  exists evs,
    events toLowerCase tickets = Some evs
    /\ (forall e, In e evs -> exists t, In t tickets /\ eventFor t e)
    /\ (forall t d,
          In t tickets -> plannedOn t d ->
          exists e,
            In e evs /\ CalendarEvent.ticketId e = Ticket.id t
            /\ CalendarEvent.date e = d
            /\ (NoDup (map Ticket.id tickets) ->
                eventFor t e
                /\ exists prefix color,
                     e = mkEvent prefix t d (hoursOf t) color))
    /\ (forall t s d,
          In t tickets ->
          Ticket.start_date t = Some s \/ Ticket.end_date t = Some s ->
          isoDate d ->
          s = d \/ (exists time, s = d ++ lit "T" ++ time) ->
          exists e,
            In e (getEventsForDate evs d)
            /\ CalendarEvent.ticketId e = Ticket.id t)
    /\ (forall pre t post,
          tickets = pre ++ t :: post ->
          truthy (Ticket.start_date t) = false ->
          truthy (Ticket.end_date t) = false ->
          events toLowerCase (pre ++ post) = Some evs)
    /\ (forall dateStr e,
          In e (getEventsForDate evs dateStr)
          <-> In e evs /\ CalendarEvent.date e = dateStr).
Proof.
  destruct (forEach_spec toLowerCase tickets [] dated_nil)
    as (m' & Hloop & _ & _ & Hnew & Hcov).
  assert (Hev : events toLowerCase tickets = Some (flatten m'))
    by (unfold events; rewrite Hloop; reflexivity).
  assert (Hfor : forall e, In e (flatten m') ->
                           exists t, In t tickets /\ eventFor t e).
  { intros e He. destruct (Hnew e He) as [[] | (t & Ht & H)].
    exists t. split; [exact Ht | apply eventOf_eventFor, H]. }
  assert (Hplanned : forall t d,
            In t tickets -> plannedOn t d ->
            exists e,
              In e (flatten m') /\ CalendarEvent.ticketId e = Ticket.id t
              /\ CalendarEvent.date e = d
              /\ (NoDup (map Ticket.id tickets) ->
                  eventFor t e
                  /\ exists prefix color,
                       e = mkEvent prefix t d (hoursOf t) color)).
  { intros t d Ht Hd.
    destruct (Hcov t Ht d (plannedOn_onDate t d Hd)) as (e & He & Hid & Hdate).
    exists e. split; [exact He |]. split; [exact Hid |].
    split; [exact Hdate |]. intros Hnodup.
    destruct (events_origin toLowerCase tickets (flatten m') Hev e He)
      as (t0 & prefix & d0 & c & Ht0 & _ & Heq).
    assert (t0 = t) as ->.
    { apply (unique_by_key Ticket.id tickets); auto.
      rewrite <- Hid, Heq. reflexivity. }
    split.
    - destruct (Hfor e He) as (t1 & Ht1 & Hfor1).
      assert (t1 = t) as ->; [| exact Hfor1].
      apply (unique_by_key Ticket.id tickets); auto.
      destruct Hfor1 as [Hid1 _]. congruence.
    - exists prefix, c. rewrite Heq in Hdate |- *.
      cbn [mkEvent CalendarEvent.date] in Hdate. rewrite Hdate.
      reflexivity. }
  exists (flatten m'). split; [exact Hev |].
  split; [exact Hfor |]. split; [exact Hplanned |].
  split; [| split].
  - intros t s d Ht Hs Hiso Hform.
    destruct (isoDate_part s d Hiso Hform) as [Hne Hpart].
    destruct (Hplanned t d Ht) as (e & He & Hid & Hdate & _).
    { exists s. auto. }
    exists e. split; [| exact Hid].
    unfold getEventsForDate. apply filter_In. split; [exact He |].
    apply eqb_eq. exact Hdate.
  - intros pre t post -> Hs Hx. unfold events.
    rewrite forEach_app in Hloop. rewrite forEach_app.
    destruct (forEach toLowerCase pre []) as [m1|]; [| discriminate].
    cbn [forEach] in Hloop.
    rewrite (processTicket_dateless toLowerCase m1 t Hs Hx) in Hloop.
    rewrite Hloop. reflexivity.
  - intros dateStr e. unfold getEventsForDate.
    rewrite filter_In, eqb_eq. reflexivity.
Qed.

(** C6. Each call of the callback adds at most two events, all for the
    ticket it is called with, never two on one date, and two only when both
    dates of the ticket are set and their date parts, the texts up to the
    first "T", differ. So in a list where no two tickets share an id, the
    events that carry the id of a ticket are at most two, on different
    dates, two only in that case, and there is one on every date part of a
    date of the ticket that is set. *)
Theorem at_most_two_events :
  (forall pre t,
     exists before after added,
       events toLowerCase pre = Some before
       /\ events toLowerCase (pre ++ [t]) = Some after
       /\ Permutation after (before ++ added)
       /\ projected t added)
  /\ (forall tickets,
        NoDup (map Ticket.id tickets) ->
        exists evs,
          events toLowerCase tickets = Some evs
          /\ forall t,
               In t tickets ->
               projected t (eventsOfId (Ticket.id t) evs)
               /\ (forall d,
                     plannedOn t d ->
                     exists e,
                       In e (eventsOfId (Ticket.id t) evs)
                       /\ CalendarEvent.date e = d)).
Proof.
  split.
  - intros pre t.
    destruct (forEach_spec toLowerCase pre [] dated_nil)
      as (m & Hloop & Hm & _).
    destruct (processTicket_spec toLowerCase m t Hm)
      as (m' & added & Hstep & _ & Hperm & Hprod & _).
    exists (flatten m), (flatten m'), added.
    unfold events. rewrite forEach_app, Hloop. cbn [forEach].
    rewrite Hstep.
    split; [reflexivity | split; [reflexivity | split; [exact Hperm |]]].
    apply produced_projected, Hprod.
  - intros tickets Hnodup.
    destruct (forEach_spec toLowerCase tickets [] dated_nil)
      as (m' & Hloop & _ & _ & _ & Hcov).
    exists (flatten m'). unfold events. rewrite Hloop.
    split; [reflexivity |].
    intros t Ht. split.
    + destruct (forEach_ids toLowerCase tickets [] m' (Ticket.id t)
                  dated_nil Hloop Hnodup) as [_ Hin].
      destruct (Hin t Ht eq_refl) as (added & Hprod & Hperm).
      apply produced_projected.
      apply (produced_permutation t added); [| exact Hprod].
      symmetry. exact Hperm.
    + intros d Hd.
      destruct (Hcov t Ht d (plannedOn_onDate t d Hd))
        as (e & He & Hid & Hdate).
      exists e. split; [| exact Hdate].
      unfold eventsOfId. apply filter_In. split; [exact He |].
      apply eqb_eq. exact Hid.
Qed.

End ProjectionByDate.

Lemma isoDate_january : isoDate (lit "2025-01-01").
Proof.
  unfold isoDate. do 8 eexists. split; [reflexivity |].
  repeat constructor; unfold isDigit; vm_compute; discriminate.
Qed.

(** [events_bucketed_by_date] at the four sample tickets: the ticket that
    starts at nine on the first of January and the ticket that ends on that
    day both have an event under "2025-01-01", and without the dateless
    ticket the events are the same. *)
Lemma events_bucketed_by_date_witness :
  exists evs,
    events asciiLower sampleTickets = Some evs
    /\ (exists e, In e (getEventsForDate evs (lit "2025-01-01"))
                  /\ CalendarEvent.ticketId e = lit "1")
    /\ (exists e, In e evs /\ CalendarEvent.ticketId e = lit "2"
                  /\ CalendarEvent.date e = lit "2025-01-01"
                  /\ eventFor reversedTicket e)
    /\ events asciiLower [sameDayTicket; reversedTicket; endOnlyTicket]
       = Some evs.
Proof.
  destruct (events_bucketed_by_date asciiLower sampleTickets)
    as (evs & Hev & _ & Hcov & Hiso & Hdrop & _).
  exists evs. split; [exact Hev | split; [| split]].
  - apply (Hiso sameDayTicket (lit "2025-01-01T09:00") (lit "2025-01-01")).
    + left. reflexivity.
    + left. reflexivity.
    + exact isoDate_january.
    + right. exists (lit "09:00"). reflexivity.
  - destruct (Hcov reversedTicket (lit "2025-01-01"))
      as (e & He & Hid & Hdate & Hunique).
    + right. left. reflexivity.
    + exists (lit "2025-01-01"). split; [right; reflexivity |].
      apply (isoDate_part _ _ isoDate_january). left. reflexivity.
    + exists e. split; [exact He |]. split; [exact Hid |].
      split; [exact Hdate |]. apply Hunique, sampleTickets_ids.
  - exact (Hdrop [sameDayTicket; reversedTicket] datelessTicket
                 [endOnlyTicket] eq_refl eq_refl eq_refl).
Defined.

(** [at_most_two_events] at the four sample tickets: ticket 1, which
    starts at nine and ends at five on one day, has exactly one event. *)
Lemma at_most_two_events_witness :
  exists evs,
    events asciiLower sampleTickets = Some evs
    /\ List.length (eventsOfId (lit "1") evs) = 1%nat.
Proof.
  destruct (at_most_two_events asciiLower) as [_ Hall].
  destruct (Hall sampleTickets sampleTickets_ids) as (evs & Hev & Hprod).
  exists evs. split; [exact Hev |].
  destruct (Hprod sameDayTicket (or_introl eq_refl))
    as ((_ & Hlen & _ & Htwo) & Hcov).
  change (Ticket.id sameDayTicket) with (lit "1") in *.
  destruct (Hcov (lit "2025-01-01")) as (e & He & _).
  { exists (lit "2025-01-01T09:00"). split; [left; reflexivity |].
    apply (isoDate_part _ _ isoDate_january).
    right. exists (lit "09:00"). reflexivity. }
  assert (List.length (eventsOfId (lit "1") evs) <> 2%nat) as Hnot.
  { intros H2.
    destruct (Htwo H2) as (s & x & ds & dx & Hs & _ & Hx & _ & Hds & Hdx & Hne).
    injection Hs as <-. injection Hx as <-.
    apply datePartOf_unique in Hds, Hdx. apply Hne.
    rewrite Hds, Hdx. reflexivity. }
  destruct (eventsOfId (lit "1") evs) as [|e1 [|e2 rest]];
    [destruct He | reflexivity | cbn [List.length] in *; lia].
Defined.
